(** * filefreezer command layer: file operations and the request dispatcher

    A shallow embedding of [cmd/freezer/command/file.go] (file lookup,
    removal and version pruning) and of the request and chunk helpers of the
    same package ([RunAuthRequest], [buildAuthRequest], [getHTTPClient],
    [forEachChunk]).

    Go values are modelled as follows.
    - [int] is [Z]; the one arithmetic operation of the code
      ([VersionNumber - 1]) wraps at 64 bits ([int_sub]).
    - [string] and [[]byte] are [string]; file contents are [list byte].
    - a pair [(T, error)] is [result T]; an [error] is its message.
    - the server, the crypto layer and the Go libraries the code calls are
      the fields of a [World].
    - every function runs in the monad [M]: it threads the trace of
      observable events and ends in [Done], [Exit] (log.Fatalf) or [Panic]. *)

From Stdlib Require Import ZArith List String Ascii Bool Lia DecimalString.
From Stdlib.Strings Require Byte.
Import ListNotations.

Local Open Scope string_scope.
Local Open Scope Z_scope.

(* ================================================================== *)
(** ** Go values *)

Module Go.

(** [(T, error)]: the error is carried as its message ([err.Error()]). *)
Inductive result (A : Type) : Type :=
| Ok (a : A)
| Err (e : string).
Arguments Ok {A} a.
Arguments Err {A} e.

Definition is_ok {A} (r : result A) : bool :=
  match r with Ok _ => true | Err _ => false end.

(** 64-bit two's complement [int]. *)
Definition int_min : Z := - 2 ^ 63.
Definition int_max : Z := 2 ^ 63 - 1.
Definition int_wrap (z : Z) : Z := (z + 2 ^ 63) mod 2 ^ 64 - 2 ^ 63.
Definition int_sub (a b : Z) : Z := int_wrap (a - b).

(** The verb [%d] of fmt. *)
Definition fmt_d (z : Z) : string := NilZero.string_of_int (Z.to_int z).

(** [sub] occurs in [s]. *)
Definition Contains (sub s : string) : Prop :=
  exists pre post, s = pre ++ sub ++ post.

End Go.
Export Go.

(* ================================================================== *)
(** ** Data model *)

(** The fields of [filefreezer.FileVersionInfo] and [filefreezer.FileInfo]
    that the command layer reads. *)
Record FileVersionInfo : Type := mkFileVersionInfo {
  VersionID : Z;
  VersionNumber : Z
}.

Record FileInfo : Type := mkFileInfo {
  FileID : Z;
  FileName : string;               (* stored encrypted *)
  CurrentVersion : FileVersionInfo
}.

(** [models.FileDeleteVersionsRequest]. *)
Record FileDeleteVersionsRequest : Type := mkFileDeleteVersionsRequest {
  MinVersion : Z;
  MaxVersion : Z
}.

(** The fields of the command [State] read by these functions. *)
Record State : Type := mkState {
  HostURI : string;
  AuthToken : string;
  TLSCrt : string;
  TLSKey : string
}.

(** The [reqBody interface{}] argument of [RunAuthRequest]: the nil
    interface, a byte slice (itself possibly the nil slice), or a value to be
    serialized. *)
Inductive ReqBody : Type :=
| NilBody
| ByteSlice (b : option string)
| Object (v : FileDeleteVersionsRequest).

(** An [*http.Request] as built by [buildAuthRequest]. *)
Record Request : Type := mkRequest {
  req_method : string;
  req_target : string;
  req_body : option string;
  req_headers : list (string * string)
}.

(** An [*http.Response]; [resp_Body] is what [ioutil.ReadAll] gives. *)
Record Response : Type := mkResponse {
  Status : string;
  StatusCode : Z;
  resp_Body : result string
}.

(** What [client.Do] returns: [(resp, err)] with a possibly nil [resp]
    when [err] is set. *)
Inductive DoResult : Type :=
| DoOk (resp : Response)
| DoErr (resp : option Response) (err : string).

(** Observable events, in the order they happen. *)
Inductive Event : Type :=
| EvGetAllFileHashes
| EvHTTP (r : Request)
| EvPrintf (line : string).

Definition Trace : Type := list Event.

(** Everything outside these two files, taken as parameters: the methods
    of [State] defined elsewhere in the package ([GetAllFileHashes],
    [DecryptString]), the Go libraries (regexp, strconv, encoding/json,
    crypto/tls, net/http) and the server behind [client.Do]. *)
Record World : Type := mkWorld {
  (* s.GetAllFileHashes() *)
  AllFileHashes : result (list FileInfo);
  (* s.DecryptString *)
  DecryptString : string -> result string;
  (* regexp.Compile, giving MatchString *)
  regexp_Compile : string -> result (string -> bool);
  strconv_Atoi : string -> result Z;
  json_Marshal : FileDeleteVersionsRequest -> result string;
  (* json.Unmarshal into FileDeleteVersionsResponse, field Status *)
  json_Unmarshal_Status : string -> result bool;
  (* json.Unmarshal into FileGetAllVersionsResponse, field Versions *)
  json_Unmarshal_Versions : string -> result (list FileVersionInfo);
  (* json.Unmarshal into FileGetResponse, field MissingChunks *)
  json_Unmarshal_MissingChunks : string -> result (list Z);
  tls_LoadX509KeyPair : string -> string -> result unit;
  ioutil_ReadFile : string -> result string;
  AppendCertsFromPEM : string -> bool;
  (* http.NewRequest method target: false when it returns (nil, err) *)
  http_NewRequest : string -> string -> bool;
  (* client.Do, which may depend on everything that happened before *)
  client_Do : Trace -> Request -> DoResult
}.

(* ================================================================== *)
(** ** The execution monad *)

Inductive Outcome (A : Type) : Type :=
| Done (a : A)
| Exit (msg : string)      (* log.Fatalf: the process exits *)
| Panic (msg : string).    (* run-time panic *)
Arguments Done {A} a.
Arguments Exit {A} msg.
Arguments Panic {A} msg.

Definition M (A : Type) : Type := Trace -> Outcome A * Trace.

Definition ret {A} (a : A) : M A := fun tr => (Done a, tr).

Definition bind {A B} (m : M A) (k : A -> M B) : M B :=
  fun tr =>
    match m tr with
    | (Done a, tr') => k a tr'
    | (Exit msg, tr') => (Exit msg, tr')
    | (Panic msg, tr') => (Panic msg, tr')
    end.

Definition emit (e : Event) : M unit := fun tr => (Done tt, tr ++ [e])%list.
Definition history : M Trace := fun tr => (Done tr, tr).
Definition log_Fatalf {A} (msg : string) : M A := fun tr => (Exit msg, tr).
Definition panic {A} (msg : string) : M A := fun tr => (Panic msg, tr).

Notation "x <- m ;; k" := (bind m (fun x => k))
  (at level 61, m at next level, right associativity).
Notation "m ;;; k" := (bind m (fun _ => k))
  (at level 61, right associativity).

Definition nil_deref : string :=
  "invalid memory address or nil pointer dereference".

(** A [Done] outcome: the function came back to its caller. *)
Definition returns {A} (o : Outcome A * Trace) : Prop :=
  exists a, fst o = Done a.

(** The requests of a trace. *)
Fixpoint requests (tr : Trace) : list Request :=
  match tr with
  | [] => []
  | EvHTTP r :: tr' => r :: requests tr'
  | _ :: tr' => requests tr'
  end.



(** The [for ... range] loops of the code leave their body by falling
    through or [continue] ([Next]) or by [return] ([Return]). *)
Inductive Ctl (R : Type) : Type :=
| Next
| Return (r : R).
Arguments Next {R}.
Arguments Return {R} r.

Fixpoint range {A R} (l : list A) (body : A -> M (Ctl R)) : M (Ctl R) :=
  match l with
  | [] => ret Next
  | x :: l' =>
      c <- body x ;;
      match c with
      | Next => range l' body
      | Return r => ret (Return r)
      end
  end.

(* ================================================================== *)
(** ** The request dispatcher *)

Section Dispatcher.

Variable w : World.
Variable s : State.

(** [getHTTPClient]: the client itself is not observed, only whether it
    could be built. *)
Definition getHTTPClient : result unit :=
  if negb (TLSCrt s =? "")%string && negb (TLSKey s =? "")%string then
    match tls_LoadX509KeyPair w (TLSCrt s) (TLSKey s) with
    | Err err => Err ("unable to load cert: " ++ err)
    | Ok _ =>
        let certPath := TLSCrt s in
        match ioutil_ReadFile w certPath with
        | Err err =>
            Err ("Failed to load the certificate file " ++ certPath ++ ": " ++ err)
        | Ok pemData =>
            if negb (AppendCertsFromPEM w pemData)
            then Err "couldn't load PEM data for HTTPS client"
            else Ok tt
        end
    end
  else Ok tt.

(** [buildAuthRequest]: the error of [http.NewRequest] is dropped, so a
    refused method or target leaves [req] nil and [req.Header] panics. *)
Definition buildAuthRequest (target method token : string)
                            (bodyBytes : option string) : M (result Request) :=
  match getHTTPClient with
  | Err err => ret (Err err)
  | Ok _ =>
      if http_NewRequest w method target then
        ret (Ok (mkRequest method target bodyBytes
                           [("Authorization", "Bearer " ++ token)]))
      else panic nil_deref
  end.

Definition RunAuthRequest (target method token : string)
                          (reqBody : ReqBody) : M (result string) :=
  (* serialize the reqBody object if one was passed in *)
  let serialized : result (option string * bool) :=
    match reqBody with
    | NilBody => Ok (None, false)
    | ByteSlice b => Ok (b, true)
    | Object v =>
        match json_Marshal w v with
        | Err err => Err ("Failed to JSON serialize the data object passed in: " ++ err)
        | Ok b => Ok (Some b, false)
        end
    end in
  match serialized with
  | Err e => ret (Err e)
  | Ok (reqBytes, reqBodyIsByteSlice) =>
      b <- buildAuthRequest target method token reqBytes ;;
      match b with
      | Err err => ret (Err err)
      | Ok req0 =>
          (* set the header if a JSON object is being sent *)
          let req :=
            match reqBytes with
            | Some _ =>
                if negb reqBodyIsByteSlice then
                  mkRequest (req_method req0) (req_target req0) (req_body req0)
                            (req_headers req0 ++ [("Content-Type", "application/json")])
                else req0
            | None => req0
            end in
          (* perform the request and read the response body *)
          past <- history ;;
          emit (EvHTTP req) ;;;
          match client_Do w past req with
          | DoErr None err => panic nil_deref     (* resp.Status on a nil resp *)
          | DoErr (Some resp) err =>
              ret (Err ("Failed to make the HTTP " ++ method ++ " request to " ++ target
                        ++ " (status: " ++ Status resp ++ "): " ++ err))
          | DoOk resp =>
              match resp_Body resp with
              | Err err =>
                  ret (Err ("Failed to read the response body from " ++ target ++ ": " ++ err))
              | Ok body =>
                  (* check the status code to ensure the success of the call *)
                  if negb (StatusCode resp =? 200) then
                    ret (Err ("Failed to make the HTTP " ++ method ++ " request to " ++ target
                              ++ " (status: " ++ Status resp ++ "): " ++ body))
                  else ret (Ok body)
              end
          end
      end
  end.

End Dispatcher.

(* ================================================================== *)
(** ** file.go *)

Section FileCommands.

Variable w : World.
Variable s : State.

(** [s.GetAllFileHashes()], defined elsewhere in the package: the call is
    recorded and its result taken from the world. *)
Definition GetAllFileHashes : M (result (list FileInfo)) :=
  emit EvGetAllFileHashes ;;; ret (AllFileHashes w).

(** [s.Printf]. *)
Definition Printf (line : string) : M unit := emit (EvPrintf line).

Definition GetFileInfoByFilename_body (filename : string) (fi : FileInfo)
  : M (Ctl (result FileInfo)) :=
  match DecryptString w (FileName fi) with
  | Err err => ret (Return (Err err))
  | Ok decryptedFilename =>
      if (decryptedFilename =? filename)%string
      then ret (Return (Ok fi))
      else ret Next
  end.

Definition GetFileInfoByFilename (filename : string) : M (result FileInfo) :=
  a <- GetAllFileHashes ;;
  match a with
  | Err err => ret (Err ("failed to getall of the file hashes: " ++ err))
  | Ok allFileInfos =>
      c <- range allFileInfos (GetFileInfoByFilename_body filename) ;;
      match c with
      | Return r => ret r
      | Next => ret (Err ("could not find the file: " ++ filename))
      end
  end.

Definition file_target (fileID : Z) : string :=
  HostURI s ++ "/api/file/" ++ fmt_d fileID.

Definition versions_target (fileID : Z) : string :=
  HostURI s ++ "/api/file/" ++ fmt_d fileID ++ "/versions".

Definition RmFile (filename : string) (dryRun : bool) : M (result unit) :=
  r <- GetFileInfoByFilename filename ;;
  match r with
  | Err err => ret (Err err)
  | Ok fi =>
      d <- (if negb dryRun then
              let target := file_target (FileID fi) in
              x <- RunAuthRequest w s target "DELETE" (AuthToken s) NilBody ;;
              match x with
              | Err err => ret (Return (Err ("Failed to remove the file " ++ filename ++ ": " ++ err)))
              | Ok _ => ret Next
              end
            else ret Next) ;;
      match d with
      | Return e => ret e
      | Next =>
          Printf ("Removed file: " ++ filename ++ String "010" "") ;;;
          ret (Ok tt)
      end
  end.

Definition RmRxFiles_body (compiledFilter : string -> bool) (dryRun : bool)
                          (fi : FileInfo) : M (Ctl (result unit)) :=
  match DecryptString w (FileName fi) with
  | Err err => ret (Return (Err ("failed to decrypt one of the file names: " ++ err)))
  | Ok plaintextFilename =>
      if compiledFilter plaintextFilename then
        (* only attempt to actually delete when not on a dryRun *)
        d <- (if negb dryRun then
                let target := file_target (FileID fi) in
                x <- RunAuthRequest w s target "DELETE" (AuthToken s) NilBody ;;
                match x with
                | Err err =>
                    ret (Return (Err ("Failed to remove the file " ++ plaintextFilename
                                      ++ ": " ++ err)))
                | Ok _ => ret Next
                end
              else ret Next) ;;
        match d with
        | Return e => ret (Return e)
        | Next =>
            Printf ("Removed file: " ++ plaintextFilename ++ String "010" "") ;;;
            ret Next
        end
      else ret Next
  end.

Definition RmRxFiles (pattern : string) (dryRun : bool) : M (result unit) :=
  a <- GetAllFileHashes ;;
  match a with
  | Err err => ret (Err ("could not get all of the files from the server: " ++ err))
  | Ok allFiles =>
      match regexp_Compile w pattern with
      | Err err => ret (Err ("failed to compile the regular expression: " ++ err))
      | Ok compiledFilter =>
          c <- range allFiles (RmRxFiles_body compiledFilter dryRun) ;;
          match c with
          | Return r => ret r
          | Next => ret (Ok tt)
          end
      end
  end.

Definition RmFileByID (fileID : Z) : M (result unit) :=
  let target := file_target fileID in
  x <- RunAuthRequest w s target "DELETE" (AuthToken s) NilBody ;;
  match x with
  | Err err =>
      ret (Err ("Failed to remove the file by file ID (" ++ fmt_d fileID ++ "): " ++ err))
  | Ok _ =>
      Printf ("Removed file by ID: " ++ fmt_d fileID ++ String "010" "") ;;;
      ret (Ok tt)
  end.

Definition GetFileVersions (filename : string) : M (result (list FileVersionInfo)) :=
  r <- GetFileInfoByFilename filename ;;
  match r with
  | Err err => ret (Err err)
  | Ok fi =>
      let target := versions_target (FileID fi) in
      x <- RunAuthRequest w s target "GET" (AuthToken s) NilBody ;;
      match x with
      | Err err =>
          ret (Err ("Failed to get the file versions for " ++ target ++ ": " ++ err))
      | Ok body =>
          match json_Unmarshal_Versions w body with
          | Err err => ret (Err ("Failed to get the file versions: " ++ err))
          | Ok versions => ret (Ok versions)
          end
      end
  end.

Definition InvalidRange_msg : string :=
  "the maxiumum version number cannot be equal or greater than the current version number".

Definition FailedStatus_msg : string :=
  "an unknown error caused a failed status to be returned while deleting file versions".

Definition RmFileVersions (filename : string) (minVersion maxVersion : Z)
                          (dryRun : bool) : M (result unit) :=
  r <- GetFileInfoByFilename filename ;;
  match r with
  | Err err => ret (Err err)
  | Ok fi =>
      let putReq := mkFileDeleteVersionsRequest minVersion maxVersion in
      if maxVersion >=? VersionNumber (CurrentVersion fi) then
        ret (Err InvalidRange_msg)
      else if negb dryRun then
        let target := versions_target (FileID fi) in
        x <- RunAuthRequest w s target "DELETE" (AuthToken s) (Object putReq) ;;
        match x with
        | Err err =>
            ret (Err ("Failed to delete the file versions for " ++ target ++ ": " ++ err))
        | Ok body =>
            match json_Unmarshal_Status w body with
            | Err err => ret (Err ("Failed to delete the file versions: " ++ err))
            | Ok status =>
                if negb status then ret (Err FailedStatus_msg) else ret (Ok tt)
            end
        end
      else ret (Ok tt)
  end.

(** The per-file maximum of [RmRxFileVersions]: the sentinel or a number. *)
Definition resolveMaxVersion (maxVersionStr : string) (fi : FileInfo) : M Z :=
  if (maxVersionStr =? "H~")%string then
    ret (int_sub (VersionNumber (CurrentVersion fi)) 1)
  else
    match strconv_Atoi w maxVersionStr with
    | Err err =>
        log_Fatalf ("Failed to parse the supplied max version as a number: " ++ err)
    | Ok n => ret n
    end.

Definition RmRxFileVersions_body (compiledFilter : string -> bool) (minVersion : Z)
                                 (maxVersionStr : string) (dryRun : bool)
                                 (fi : FileInfo) : M (Ctl (result unit)) :=
  match DecryptString w (FileName fi) with
  | Err err => ret (Return (Err ("failed to decrypt one of the file names: " ++ err)))
  | Ok plaintextFilename =>
      if compiledFilter plaintextFilename then
        maxVersion <- resolveMaxVersion maxVersionStr fi ;;
        (* silently ignore any file where the max version is >= the current version *)
        if maxVersion >=? VersionNumber (CurrentVersion fi) then ret Next
        else
          (* only attempt to actually delete when not on a dryRun *)
          d <- (if negb dryRun then
                  let putReq := mkFileDeleteVersionsRequest minVersion maxVersion in
                  let target := versions_target (FileID fi) in
                  x <- RunAuthRequest w s target "DELETE" (AuthToken s) (Object putReq) ;;
                  match x with
                  | Err err =>
                      ret (Return (Err ("Failed to delete the file versions for "
                                        ++ plaintextFilename ++ ": " ++ err)))
                  | Ok body =>
                      match json_Unmarshal_Status w body with
                      | Err err =>
                          ret (Return (Err ("Failed to delete the file versions for "
                                            ++ plaintextFilename ++ ": " ++ err)))
                      | Ok status =>
                          if negb status then ret (Return (Err FailedStatus_msg))
                          else ret Next
                      end
                  end
                else ret Next) ;;
          match d with
          | Return e => ret (Return e)
          | Next =>
              Printf (plaintextFilename ++ " -- successfully removed versions "
                      ++ fmt_d minVersion ++ " to " ++ fmt_d maxVersion
                      ++ "." ++ String "010" "") ;;;
              ret Next
          end
      else ret Next
  end.

Definition RmRxFileVersions (pattern : string) (minVersion : Z)
                            (maxVersionStr : string) (dryRun : bool) : M (result unit) :=
  a <- GetAllFileHashes ;;
  match a with
  | Err err => ret (Err ("could not get all of the files from the server: " ++ err))
  | Ok allFiles =>
      match regexp_Compile w pattern with
      | Err err => ret (Err ("failed to compile the regular expression: " ++ err))
      | Ok compiledFilter =>
          c <- range allFiles
                     (RmRxFileVersions_body compiledFilter minVersion maxVersionStr dryRun) ;;
          match c with
          | Return r => ret r
          | Next => ret (Ok tt)
          end
      end
  end.

Definition GetMissingChunksForFile (fileID : Z) : M (result (list Z)) :=
  let target := file_target fileID in
  x <- RunAuthRequest w s target "GET" (AuthToken s) NilBody ;;
  match x with
  | Err err => ret (Err ("Failed to get the file's missing chunk list: " ++ err))
  | Ok body =>
      match json_Unmarshal_MissingChunks w body with
      | Err err => ret (Err ("Failed to get the file's missing chunk list: " ++ err))
      | Ok chunks => ret (Ok chunks)
      end
  end.

End FileCommands.

(* ================================================================== *)
(** ** forEachChunk *)

Module ChunkStream.

Import Stdlib.Strings.Byte.

(** An open file: the bytes still to be read, and how the device answers
    once they are used up: a clean end of file ([None]) or a read fault. *)
Record File : Type := mkFile {
  bytes : list byte;
  fault : option string
}.

Inductive ReadErr : Type :=
| io_EOF
| io_ErrUnexpectedEOF
| io_Fault (msg : string).

Definition ReadErr_Error (e : ReadErr) : string :=
  match e with
  | io_EOF => "EOF"
  | io_ErrUnexpectedEOF => "unexpected EOF"
  | io_Fault msg => msg
  end.

(** [io.ReadAtLeast(f, buffer, min)] with [len(buffer) = min]: reads until
    [min] bytes are in the buffer or the reader fails; an end of file
    after no byte is [io.EOF], after some bytes [io.ErrUnexpectedEOF]. *)
Definition io_ReadAtLeast (f : File) (min : nat)
  : list byte * option ReadErr * File :=
  let got := firstn min (bytes f) in
  let f' := mkFile (skipn min (bytes f)) (fault f) in
  if (List.length got <? min)%nat then
    match fault f with
    | Some msg => (got, Some (io_Fault msg), f')
    | None =>
        if (0 <? List.length got)%nat
        then (got, Some io_ErrUnexpectedEOF, f')
        else (got, Some io_EOF, f')
    end
  else (got, None, f').

(** One call of the visitor: [(chunkNumber, chunk)]. *)
Definition Chunk : Type := (Z * list byte)%type.

Section Visitor.

(** The state the visitor closes over. *)
Variable S : Type.

(** [eachChunkFunc], returning [(bool, error)]. *)
Definition eachChunkFunc : Type :=
  Z -> list byte -> S -> (bool * option string) * S.

(** What a run leaves: the returned error, the visitor's state and the
    chunks handed to the visitor, in order. *)
Record Run : Type := mkRun {
  run_result : result unit;
  run_state : S;
  run_chunks : list Chunk
}.

Definition truncated_msg (filename : string) : string :=
  "nexpeced EOF while reading the file " ++ filename.

Definition read_error_msg (readCount : nat) (filename : string) (err : ReadErr) : string :=
  "an error occured while reading " ++ fmt_d (Z.of_nat readCount)
  ++ " bytes from the file " ++ filename ++ ": " ++ ReadErr_Error err.

(** The loop [for i := 0; i < localChunkCount; i++], entered with
    [todo] iterations left ([todo = localChunkCount - i]). *)
Fixpoint chunkLoop (todo : nat) (i : Z) (chunkSize : nat) (filename : string)
                   (localChunkCount : Z) (eachFunc : eachChunkFunc)
                   (f : File) (st : S) (seen : list Chunk) : Run :=
  match todo with
  | O => mkRun (Ok tt) st seen
  | Datatypes.S todo' =>
      let '(buffer, err, f') := io_ReadAtLeast f chunkSize in
      let readCount := List.length buffer in
      let visit :=
        let clampedBuffer := buffer in
        (* call the supplied callback and break the loop if false is returned *)
        match eachFunc i clampedBuffer st with
        | (_, Some e, st') => mkRun (Err e) st' (seen ++ [(i, clampedBuffer)])%list
        | (contLoop, None, st') =>
            if negb contLoop
            then mkRun (Ok tt) st' (seen ++ [(i, clampedBuffer)])%list
            else chunkLoop todo' (i + 1) chunkSize filename localChunkCount
                           eachFunc f' st' (seen ++ [(i, clampedBuffer)])%list
        end in
      match err with
      | Some io_ErrUnexpectedEOF =>
          (* if we don't fill the buffer and we're not on the last chunk,
             the files are different *)
          if negb (i + 1 =? localChunkCount)
          then mkRun (Err (truncated_msg filename)) st seen
          else visit
      | Some e => mkRun (Err (read_error_msg readCount filename e)) st seen
      | None => visit
      end
  end.

(** [forEachChunk]; [os_Open] is the file system. A negative
    [chunkSize] makes [make([]byte, chunkSize)] panic. *)
Definition forEachChunk (os_Open : string -> result File)
                        (chunkSize : Z) (filename : string) (localChunkCount : Z)
                        (eachFunc : eachChunkFunc) (st : S) : Outcome Run :=
  if chunkSize <? 0 then Panic "makeslice: len out of range"
  else
    match os_Open filename with
    | Err err =>
        Done (mkRun (Err ("Failed to open the file " ++ filename ++ ": " ++ err)) st [])
    | Ok f =>
        Done (chunkLoop (Z.to_nat localChunkCount) 0 (Z.to_nat chunkSize) filename
                        localChunkCount eachFunc f st [])
    end.

End Visitor.

Arguments mkRun {S}.
Arguments run_result {S}.
Arguments run_state {S}.
Arguments run_chunks {S}.
Arguments chunkLoop {S}.
Arguments forEachChunk {S}.

(** [ceil(N / C)]. *)
Definition ceil_div (N C : Z) : Z := (N + C - 1) / C.

(** A file system holding one regular file. *)
Definition one_file (name : string) (content : list byte) : string -> result File :=
  fun n => if (n =? name)%string then Ok (mkFile content None)
           else Err ("open " ++ n ++ ": no such file or directory").

(** A visitor that always continues and counts its calls. *)
Definition counting : eachChunkFunc nat :=
  fun _ _ n => ((true, None), Datatypes.S n).

End ChunkStream.

(* ================================================================== *)
(** ** Concrete worlds *)

Module Demo.

Definition dquote : string := String (ascii_of_nat 34) "".

(** Stored names of the form [enc:<name>] decrypt to [<name>]; anything
    else is a corrupt entry. *)
Definition decrypt (c : string) : result string :=
  if prefix "enc:" c then Ok (substring 4 (String.length c - 4) c)
  else Err "cipher: message authentication failed".

(** Only the pattern [.*] is known to this world; it matches every name. *)
Definition compile (pattern : string) : result (string -> bool) :=
  if (pattern =? ".*")%string then Ok (fun _ => true)
  else Err "error parsing regexp".

Fixpoint digits (str : string) (acc : Z) : option Z :=
  match str with
  | EmptyString => Some acc
  | String c rest =>
      let d := Z.of_nat (nat_of_ascii c) - 48 in
      if (0 <=? d) && (d <=? 9) then digits rest (acc * 10 + d) else None
  end.

(** Decimal integers with an optional sign, within the range of [int]. *)
Definition atoi (str : string) : result Z :=
  let bad := Err ("strconv.Atoi: parsing " ++ dquote ++ str ++ dquote ++ ": invalid syntax") in
  match str with
  | EmptyString => bad
  | String c rest =>
      let neg := Ascii.eqb c "-" in
      let body := if neg || Ascii.eqb c "+" then rest else str in
      match body with
      | EmptyString => bad
      | _ =>
          match digits body 0 with
          | None => bad
          | Some n =>
              let v := if neg then - n else n in
              if (int_min <=? v) && (v <=? int_max) then Ok v
              else Err ("strconv.Atoi: parsing " ++ dquote ++ str ++ dquote
                        ++ ": value out of range")
          end
      end
  end.

Definition range_payload (minVersion maxVersion : Z) : string :=
  "{" ++ dquote ++ "MinVersion" ++ dquote ++ ":" ++ fmt_d minVersion ++ ","
  ++ dquote ++ "MaxVersion" ++ dquote ++ ":" ++ fmt_d maxVersion ++ "}".

Definition marshal (v : FileDeleteVersionsRequest) : result string :=
  Ok (range_payload (MinVersion v) (MaxVersion v)).

Definition status_true : string := "{" ++ dquote ++ "Status" ++ dquote ++ ":true}".
Definition status_false : string := "{" ++ dquote ++ "Status" ++ dquote ++ ":false}".

Definition unmarshal_status (body : string) : result bool :=
  if (body =? status_true)%string then Ok true
  else if (body =? status_false)%string then Ok false
  else Err "invalid character looking for beginning of value".

(** A world over a catalog and a server. *)
Definition world (catalog : list FileInfo) (server : Trace -> Request -> DoResult) : World :=
  {| AllFileHashes := Ok catalog;
     DecryptString := decrypt;
     regexp_Compile := compile;
     strconv_Atoi := atoi;
     json_Marshal := marshal;
     json_Unmarshal_Status := unmarshal_status;
     json_Unmarshal_Versions := fun _ => Ok [];
     json_Unmarshal_MissingChunks := fun _ => Ok [];
     tls_LoadX509KeyPair := fun _ _ => Ok tt;
     ioutil_ReadFile := fun _ => Ok "";
     AppendCertsFromPEM := fun _ => true;
     http_NewRequest := fun _ _ => true;
     client_Do := server |}.

Definition session : State :=
  {| HostURI := "http://localhost:8080"; AuthToken := "t0k3n"; TLSCrt := ""; TLSKey := "" |}.

(** Servers that give every request the same answer. *)
Definition accepts : Trace -> Request -> DoResult :=
  fun _ _ => DoOk (mkResponse "200 OK" 200 (Ok status_true)).

Definition rejects : Trace -> Request -> DoResult :=
  fun _ _ => DoOk (mkResponse "200 OK" 200 (Ok status_false)).


Definition unreachable : Trace -> Request -> DoResult :=
  fun _ _ => DoErr None "dial tcp: connection refused".

Definition file (id : Z) (name : string) (version : Z) : FileInfo :=
  mkFileInfo id ("enc:" ++ name) (mkFileVersionInfo (100 + id) version).

Definition corrupt (id : Z) : FileInfo :=
  mkFileInfo id "garbage" (mkFileVersionInfo (100 + id) 1).

(** A catalog whose second entry is corrupt, and the same two entries
    the other way round. *)
Definition corrupt_last : list FileInfo := [file 1 "a.txt" 3; corrupt 2].
Definition corrupt_first : list FileInfo := [corrupt 2; file 1 "a.txt" 3].

(** Two files with prunable history, and a file at version 0. *)
Definition two_files : list FileInfo := [file 1 "a.txt" 3; file 2 "b.txt" 3].
Definition fresh_file : list FileInfo := [file 1 "a.txt" 0].

Definition not_found : Response := mkResponse "404 Not Found" 404 (Ok "no such file").

Definition missing : Trace -> Request -> DoResult := fun _ _ => DoOk not_found.

End Demo.

(* ================================================================== *)
(** ** Vocabulary of the statements *)

(** The request [RunAuthRequest] sends for a serialized object. *)
Definition json_request (method target token body : string) : Request :=
  mkRequest method target (Some body)
            [("Authorization", "Bearer " ++ token); ("Content-Type", "application/json")].

(** What [RunAuthRequest] makes of the result of [client.Do]. *)
Definition answer (method target : string) (d : DoResult) : Outcome (result string) :=
  match d with
  | DoErr None _ => Panic nil_deref
  | DoErr (Some resp) err =>
      Done (Err ("Failed to make the HTTP " ++ method ++ " request to " ++ target
                 ++ " (status: " ++ Status resp ++ "): " ++ err))
  | DoOk resp =>
      match resp_Body resp with
      | Err err =>
          Done (Err ("Failed to read the response body from " ++ target ++ ": " ++ err))
      | Ok body =>
          if StatusCode resp =? 200 then Done (Ok body)
          else Done (Err ("Failed to make the HTTP " ++ method ++ " request to " ++ target
                          ++ " (status: " ++ Status resp ++ "): " ++ body))
      end
  end.

(** The ranged-delete request for the versions [[minVersion, maxVersion]] of
    a file, with [payload] the serialized range. *)
Definition delete_versions_request (s : State) (fi : FileInfo) (payload : string) : Request :=
  json_request "DELETE" (versions_target s (FileID fi)) (AuthToken s) payload.

(** The client can be built and the ranged delete for [fi] can be sent,
    with [payload] the serialized range. *)
Definition can_send_delete (w : World) (s : State) (fi : FileInfo)
                           (minVersion maxVersion : Z) (payload : string) : Prop :=
  getHTTPClient w s = Ok tt /\
  http_NewRequest w "DELETE" (versions_target s (FileID fi)) = true /\
  json_Marshal w (mkFileDeleteVersionsRequest minVersion maxVersion) = Ok payload.


(** The stored name decrypts to a name the filter accepts. *)
Definition matched (w : World) (compiledFilter : string -> bool) (fi : FileInfo) : Prop :=
  exists name, DecryptString w (FileName fi) = Ok name /\ compiledFilter name = true.

(** The stored name decrypts to a name other than [filename]. *)
Definition other_name (w : World) (filename : string) (fi : FileInfo) : Prop :=
  exists name, DecryptString w (FileName fi) = Ok name /\ name <> filename.

(** The stored name decrypts to a name the filter refuses. *)
Definition unmatched (w : World) (compiledFilter : string -> bool) (fi : FileInfo) : Prop :=
  exists name, DecryptString w (FileName fi) = Ok name /\ compiledFilter name = false.

(** [client.Do] never fails without a response, and [http.NewRequest]
    accepts every method and target. *)
Definition well_behaved_transport (w : World) : Prop :=
  (forall tr req err, client_Do w tr req <> DoErr None err) /\
  (forall method target, http_NewRequest w method target = true).




Module ChunkSpec.

Import ChunkStream.
Import Stdlib.Strings.Byte.

(** The first [count] pieces of [chunkSize] bytes of [content], numbered
    from [i]; the last piece may be short. *)
Fixpoint chunks_of (count : nat) (i : Z) (chunkSize : nat) (content : list byte)
  : list Chunk :=
  match count with
  | O => []
  | S count' =>
      (i, firstn chunkSize content)
        :: chunks_of count' (i + 1) chunkSize (skipn chunkSize content)
  end.

(** The state of a visitor after it has seen [chunks], when it never
    stops. *)
Fixpoint visit_all {S} (eachFunc : eachChunkFunc S) (chunks : list Chunk) (st : S) : S :=
  match chunks with
  | [] => st
  | (i, b) :: rest => visit_all eachFunc rest (snd (eachFunc i b st))
  end.

(** The number of short chunks at the end of a file of some full chunks
    and [r] more bytes, [r] below the chunk size. *)
Definition tail_count (r : nat) : nat := if (r =? 0)%nat then 0%nat else 1%nat.

(** The visitor never stops and never fails. *)
Definition always_continues {S} (eachFunc : eachChunkFunc S) : Prop :=
  forall i b st, fst (eachFunc i b st) = (true, None).

End ChunkSpec.

(* ================================================================== *)
(** ** Authenticate *)

(** [models.UserLoginResponse]. *)
Record UserLoginResponse : Type := mkUserLoginResponse {
  Token : string;
  login_CryptoHash : string;
  Capabilities : string
}.

(** The command state as [Authenticate] sees it: the fields above, and the
    two more that a login sets. *)
Record Login : Type := mkLogin {
  login_State : State;
  CryptoHash : string;
  ServerCapabilities : string
}.

Section Authentication.

Variable w : World.

(** [client.PostForm(target, {user, password})]. *)
Variable client_PostForm : string -> string -> string -> DoResult.

(** json.Unmarshal into UserLoginResponse. *)
Variable json_Unmarshal_UserLogin : string -> result UserLoginResponse.

Definition login_target (hostURI : string) : string := hostURI ++ "/api/users/login".

(** [Authenticate]: the returned error and the state it leaves. *)
Definition Authenticate (l : Login) (hostURI username password : string)
  : result unit * Login :=
  let s := login_State l in
  (* get the http client to use for the connection *)
  match getHTTPClient w s with
  | Err err => (Err err, l)
  | Ok _ =>
      (* Build and perform the request *)
      let target := login_target hostURI in
      match client_PostForm target username password with
      | DoErr (Some resp) err =>
          (Err ("Failed to make the HTTP POST request to " ++ target
                ++ " (status: " ++ Status resp ++ "): " ++ err), l)
      | DoErr None err =>
          (Err ("Failed to make the HTTP POST request to " ++ target ++ ": " ++ err), l)
      | DoOk resp =>
          match resp_Body resp with
          | Err err =>
              (Err ("Failed to read the response body from " ++ target ++ ": " ++ err), l)
          | Ok body =>
              (* check the status code to ensure the success of the call *)
              if negb (StatusCode resp =? 200) then
                (Err ("Failed to make the HTTP POST request to " ++ target
                      ++ " (status: " ++ Status resp ++ "): " ++ body), l)
              else
                (* get the response by deserializing the JSON *)
                match json_Unmarshal_UserLogin body with
                | Err err =>
                    (Err ("Poorly formatted response to " ++ target ++ ": " ++ err), l)
                | Ok userLogin =>
                    (* authentication was successful so update the command state *)
                    (Ok tt,
                     mkLogin (mkState hostURI (Token userLogin) (TLSCrt s) (TLSKey s))
                             (login_CryptoHash userLogin) (Capabilities userLogin))
                end
          end
      end
  end.

End Authentication.

(* ================================================================== *)
(** ** More vocabulary *)

(** The request [RunAuthRequest] sends without a body, and with a byte
    slice. *)
Definition bare_request (method target token : string) : Request :=
  mkRequest method target None [("Authorization", "Bearer " ++ token)].

Definition bytes_request (method target token body : string) : Request :=
  mkRequest method target (Some body) [("Authorization", "Bearer " ++ token)].

(** The request a call of [RunAuthRequest] sends for each kind of body,
    when it sends one. *)
Definition request_for (w : World) (method target token : string) (reqBody : ReqBody)
  : Request :=
  match reqBody with
  | NilBody | ByteSlice None => bare_request method target token
  | ByteSlice (Some b) => bytes_request method target token b
  | Object v =>
      match json_Marshal w v with
      | Ok b => json_request method target token b
      | Err _ => bare_request method target token
      end
  end.

(** Whether the body of a request can be serialized. *)
Definition serializes (w : World) (reqBody : ReqBody) : bool :=
  match reqBody with
  | Object v => is_ok (json_Marshal w v)
  | _ => true
  end.

(** The whole-file delete of a catalog entry. *)
Definition delete_file_request (s : State) (fi : FileInfo) : Request :=
  bare_request "DELETE" (file_target s (FileID fi)) (AuthToken s).

(** The lines printed in a trace, and its catalog fetches. *)
Fixpoint prints (tr : Trace) : list string :=
  match tr with
  | [] => []
  | EvPrintf line :: tr' => line :: prints tr'
  | _ :: tr' => prints tr'
  end.

Fixpoint catalog_fetches (tr : Trace) : nat :=
  match tr with
  | [] => O
  | EvGetAllFileHashes :: tr' => S (catalog_fetches tr')
  | _ :: tr' => catalog_fetches tr'
  end.

(** The stored name decrypts to [filename]. *)
Definition decrypts_to (w : World) (filename : string) (fi : FileInfo) : Prop :=
  DecryptString w (FileName fi) = Ok filename.

(** The plaintext name of an entry (empty when it does not decrypt), and
    whether the filter selects the entry. *)
Definition plain_name (w : World) (fi : FileInfo) : string :=
  match DecryptString w (FileName fi) with
  | Ok name => name
  | Err _ => ""
  end.

Definition selected (w : World) (compiledFilter : string -> bool) (fi : FileInfo) : bool :=
  match DecryptString w (FileName fi) with
  | Ok name => compiledFilter name
  | Err _ => false
  end.

(** Every stored name of the catalog decrypts. *)
Definition all_decrypt (w : World) (catalog : list FileInfo) : Prop :=
  Forall (fun fi => is_ok (DecryptString w (FileName fi)) = true) catalog.

(** The client can be built, every request can be built, and the server
    answers every request with status code 200 and a readable body. *)
Definition server_answers_200 (w : World) (s : State) : Prop :=
  getHTTPClient w s = Ok tt /\
  (forall method target, http_NewRequest w method target = true) /\
  (forall tr req, exists resp body,
      client_Do w tr req = DoOk resp /\ StatusCode resp = 200 /\ resp_Body resp = Ok body).

(** Moreover ranges serialize, through [enc], and every answer decodes to
    a true status flag. *)
Definition server_accepts_prunes (w : World) (s : State)
                                 (enc : FileDeleteVersionsRequest -> string) : Prop :=
  getHTTPClient w s = Ok tt /\
  (forall method target, http_NewRequest w method target = true) /\
  (forall v, json_Marshal w v = Ok (enc v)) /\
  (forall tr req, exists resp body,
      client_Do w tr req = DoOk resp /\ StatusCode resp = 200 /\
      resp_Body resp = Ok body /\ json_Unmarshal_Status w body = Ok true).

(** The line a removal prints for a file. *)
Definition removed_line (name : string) : string :=
  "Removed file: " ++ name ++ String "010" "".

(** The line the batch prune prints for a file. *)
Definition pruned_line (name : string) (minVersion maxVersion : Z) : string :=
  name ++ " -- successfully removed versions "
  ++ fmt_d minVersion ++ " to " ++ fmt_d maxVersion ++ "." ++ String "010" "".

(** The maximum the batch prune resolves for a file: the sentinel, or the
    number [n] the string parses to. *)
Definition max_for (maxVersionStr : string) (n : Z) (fi : FileInfo) : Z :=
  if (maxVersionStr =? "H~")%string
  then int_sub (VersionNumber (CurrentVersion fi)) 1
  else n.

(** The matched files the batch prune does not skip. *)
Definition prunable (w : World) (compiledFilter : string -> bool)
                    (maxVersionStr : string) (n : Z) (fi : FileInfo) : bool :=
  selected w compiledFilter fi
  && (max_for maxVersionStr n fi <? VersionNumber (CurrentVersion fi)).

(** What a run of the chunk loop has handed to the visitor: at most
    [todo] pieces numbered from [i], of at most [C] bytes each, that put
    end to end are the beginning of [content]. *)
Definition handed (C todo : nat) (i : Z) (content : list Byte.byte)
                  (new : list ChunkStream.Chunk) : Prop :=
  map fst new = map (fun k => i + Z.of_nat k) (seq 0 (List.length new)) /\
  (List.length new <= todo)%nat /\
  (exists rest, content = (List.concat (map snd new) ++ rest)%list) /\
  Forall (fun ch => (List.length (snd ch) <= C)%nat) new.















Module Fixtures.

Import ChunkStream.

(** A server for the login form: one account. *)
Definition login_server (target user password : string) : DoResult :=
  if ((user =? "ada") && (password =? "s3cret"))%string
  then DoOk (mkResponse "200 OK" 200 (Ok "ada-session"))
  else DoOk (mkResponse "401 Unauthorized" 401 (Ok "bad credentials")).

Definition no_network (target user password : string) : DoResult :=
  DoErr None "dial tcp: connection refused".

Definition unmarshal_login (body : string) : result UserLoginResponse :=
  if (body =? "ada-session")%string
  then Ok (mkUserLoginResponse "jwt-ada" "hash-ada" "caps")
  else Err "invalid character".

Definition logged_out : Login := mkLogin Demo.session "" "".

(** A world whose client cannot be built: the certificate does not load. *)
Definition bad_tls_world (catalog : list FileInfo) : World :=
  {| AllFileHashes := Ok catalog;
     DecryptString := Demo.decrypt;
     regexp_Compile := Demo.compile;
     strconv_Atoi := Demo.atoi;
     json_Marshal := Demo.marshal;
     json_Unmarshal_Status := Demo.unmarshal_status;
     json_Unmarshal_Versions := fun _ => Ok [];
     json_Unmarshal_MissingChunks := fun _ => Ok [];
     tls_LoadX509KeyPair := fun _ _ => Err "open client.crt: no such file or directory";
     ioutil_ReadFile := fun _ => Ok "";
     AppendCertsFromPEM := fun _ => true;
     http_NewRequest := fun _ _ => true;
     client_Do := Demo.accepts |}.

Definition tls_session : State :=
  {| HostURI := "https://localhost:8443"; AuthToken := "t0k3n";
     TLSCrt := "client.crt"; TLSKey := "client.key" |}.

(** A world whose filter accepts the names ending in [.txt]. *)
Definition ends_in_txt (name : string) : bool :=
  (substring (String.length name - 4) 4 name =? ".txt")%string.

Definition txt_world (catalog : list FileInfo) (server : Trace -> Request -> DoResult)
  : World :=
  {| AllFileHashes := Ok catalog;
     DecryptString := Demo.decrypt;
     regexp_Compile := fun _ => Ok ends_in_txt;
     strconv_Atoi := Demo.atoi;
     json_Marshal := Demo.marshal;
     json_Unmarshal_Status := Demo.unmarshal_status;
     json_Unmarshal_Versions := fun _ => Ok [];
     json_Unmarshal_MissingChunks := fun _ => Ok [];
     tls_LoadX509KeyPair := fun _ _ => Ok tt;
     ioutil_ReadFile := fun _ => Ok "";
     AppendCertsFromPEM := fun _ => true;
     http_NewRequest := fun _ _ => true;
     client_Do := server |}.

Definition mixed : list FileInfo :=
  [Demo.file 1 "a.txt" 3; Demo.file 2 "b.jpg" 5; Demo.file 3 "c.txt" 1;
   Demo.file 4 "d.txt" 7].

Definition enc (v : FileDeleteVersionsRequest) : string :=
  Demo.range_payload (MinVersion v) (MaxVersion v).

Definition five : list Byte.byte :=
  [Byte.x01; Byte.x02; Byte.x03; Byte.x04; Byte.x05].

(** A file system whose one file ends in a read fault. *)
Definition faulty_file (name : string) (content : list Byte.byte) : string -> result File :=
  fun n => if (n =? name)%string then Ok (mkFile content (Some "input/output error"))
           else Err ("open " ++ n ++ ": no such file or directory").

(** A visitor that stops at chunk [k], and one that fails there. *)
Definition stop_at (k : Z) : eachChunkFunc nat :=
  fun i _ n => ((negb (i =? k), None), Datatypes.S n).

Definition fail_at (k : Z) : eachChunkFunc nat :=
  fun i _ n => ((true, if i =? k then Some "disk full" else None), Datatypes.S n).

End Fixtures.

(* ================================================================== *)
(** ** Strings and traces *)

Lemma append_assoc (a b c : string) : ((a ++ b) ++ c = a ++ (b ++ c))%string.
Proof. induction a as [|x a IH]; simpl; [reflexivity | now rewrite IH]. Qed.

Lemma append_empty_r (a : string) : (a ++ "" = a)%string.
Proof. induction a as [|x a IH]; simpl; [reflexivity | now rewrite IH]. Qed.

Lemma Contains_self (a : string) : Contains a a.
Proof. exists ""%string, ""%string. simpl. now rewrite append_empty_r. Qed.

Lemma Contains_head (a post : string) : Contains a (a ++ post).
Proof. now exists ""%string, post. Qed.

Lemma Contains_skip (a p t : string) : Contains a t -> Contains a (p ++ t).
Proof.
  intros (pre & post & ->). exists (p ++ pre)%string, post.
  now rewrite append_assoc.
Qed.

Create HintDb contains.
#[local] Hint Resolve Contains_self Contains_head Contains_skip : contains.

Lemma snoc_neq_self {A} (l : list A) (x : A) : (l ++ [x])%list <> l.
Proof.
  intros H. apply (f_equal (@List.length A)) in H.
  rewrite length_app in H. simpl in H. lia.
Qed.

Lemma snoc_inj {A} (l : list A) (x y : A) : (l ++ [x] = l ++ [y])%list -> x = y.
Proof. intros H. apply app_inv_head in H. now inversion H. Qed.

Lemma requests_app (a b : Trace) :
  requests (a ++ b)%list = (requests a ++ requests b)%list.
Proof.
  induction a as [|e a IH]; simpl; [reflexivity|].
  destruct e; simpl; now rewrite IH.
Qed.


(** Unfolding of the monad's operations. *)
Ltac run := cbv [bind ret emit history log_Fatalf panic] in *.

(* ================================================================== *)
(** ** The dispatcher *)

Section DispatcherFacts.

Variable w : World.
Variable s : State.

(** What [RunAuthRequest] does once the client and the request exist. *)
Lemma RunAuthRequest_Object target method token v payload tr :
  getHTTPClient w s = Ok tt ->
  http_NewRequest w method target = true ->
  json_Marshal w v = Ok payload ->
  RunAuthRequest w s target method token (Object v) tr =
    (answer method target (client_Do w tr (json_request method target token payload)),
     (tr ++ [EvHTTP (json_request method target token payload)])%list).
Proof.
  intros Hc Hn Hm. unfold RunAuthRequest, buildAuthRequest, answer.
  rewrite Hm, Hc, Hn. run. unfold json_request.
  destruct (client_Do w tr _) as [resp | [resp|] err]; try reflexivity.
  destruct (resp_Body resp); try reflexivity.
  destruct (StatusCode resp =? 200); reflexivity.
Qed.

(** A run of [RunAuthRequest] either stops before anything is sent, with
    an error or a panic, or sends one request and answers from what
    [client.Do] gives. *)
Lemma RunAuthRequest_cases target method token reqBody tr o tr' :
  RunAuthRequest w s target method token reqBody tr = (o, tr') ->
  (tr' = tr /\ ((exists e, o = Done (Err e)) \/ exists m, o = Panic m)) \/
  (exists req, tr' = (tr ++ [EvHTTP req])%list /\ req_method req = method /\
               o = answer method target (client_Do w tr req)).
Proof.
  unfold RunAuthRequest, buildAuthRequest.
  destruct reqBody as [|b|v]; [| |destruct (json_Marshal w v)];
    destruct (getHTTPClient w s); destruct (http_NewRequest w method target); run;
    try (intros H; inversion H; subst; left; split; [reflexivity|]; eauto; fail).
  all: try destruct b.
  all: match goal with
       | |- context [client_Do w ?t ?r] =>
           destruct (client_Do w t r) as [resp | [resp|] err] eqn:E;
           [destruct (resp_Body resp) eqn:Eb; [destruct (StatusCode resp =? 200) eqn:Es|]| |];
           cbv beta iota delta [negb]; intros [= <- <-]; right; exists r;
           unfold answer; rewrite E, ?Eb, ?Es; repeat split; reflexivity
       end.
Qed.

Lemma RunAuthRequest_trace target method token reqBody tr o tr' :
  RunAuthRequest w s target method token reqBody tr = (o, tr') ->
  tr' = tr \/ exists req, tr' = (tr ++ [EvHTTP req])%list /\ req_method req = method.
Proof.
  intros H. apply RunAuthRequest_cases in H as [[-> _] | (req & -> & Hm & _)];
    [now left | right; now exists req].
Qed.

(** [RunAuthRequest] comes back to its caller when the transport is well
    behaved. *)
Lemma RunAuthRequest_returns target method token reqBody tr :
  well_behaved_transport w ->
  exists x tr', RunAuthRequest w s target method token reqBody tr = (Done x, tr').
Proof.
  intros [Hdo Hnew]. unfold RunAuthRequest, buildAuthRequest.
  rewrite Hnew.
  destruct reqBody as [|b|v]; [| |destruct (json_Marshal w v)];
    destruct (getHTTPClient w s); run; try (eexists; eexists; reflexivity).
  all: try destruct b.
  all: match goal with
       | |- context [client_Do w ?t ?r] =>
           pose proof (Hdo t r) as Hr;
           destruct (client_Do w t r) as [resp | [resp|] err];
           [destruct (resp_Body resp); [destruct (StatusCode resp =? 200)|]| |];
           simpl; try (eexists; eexists; reflexivity)
       end.
  all: exfalso; eapply Hr; reflexivity.
Qed.

End DispatcherFacts.

(** C8. [RunAuthRequest] returns a body as success only from a response
    with status code 200, and then it is that response's body; once a
    response has been received and read in full, the call succeeds with the
    payload when the status code is 200, and for every other status code it
    returns an error whose text includes the status text and the
    payload. *)
Theorem RunAuthRequest_success_exactly_on_200
    (w : World) (s : State) (target method token : string) (reqBody : ReqBody)
    (tr tr' : Trace) (o : Outcome (result string)) :
  RunAuthRequest w s target method token reqBody tr = (o, tr') ->
  (forall body, o = Done (Ok body) ->
     exists req resp,
       tr' = (tr ++ [EvHTTP req])%list /\ client_Do w tr req = DoOk resp /\
       StatusCode resp = 200 /\ resp_Body resp = Ok body)
  /\
  (forall req resp payload,
     tr' = (tr ++ [EvHTTP req])%list ->
     client_Do w tr req = DoOk resp ->
     resp_Body resp = Ok payload ->
     (StatusCode resp = 200 -> o = Done (Ok payload)) /\
     (StatusCode resp <> 200 ->
        exists e, o = Done (Err e) /\ Contains (Status resp) e /\ Contains payload e)).
Proof.
  intros H. apply RunAuthRequest_cases in H.
  destruct H as [[-> Hstop] | (req & -> & _ & ->)]; split.
  - intros body ->. destruct Hstop as [[e He] | [m Hm]]; discriminate.
  - intros req resp payload Htr. symmetry in Htr. now apply snoc_neq_self in Htr.
  - intros body Hb. unfold answer in Hb.
    destruct (client_Do w tr req) as [resp | [resp|] err] eqn:E; try discriminate.
    destruct (resp_Body resp) as [b|] eqn:Eb; try discriminate.
    destruct (StatusCode resp =? 200) eqn:Es; try discriminate.
    injection Hb as ->. exists req, resp. apply Z.eqb_eq in Es. now repeat split.
  - intros req' resp payload Htr Hdo Hbody.
    apply snoc_inj in Htr. injection Htr as <-.
    unfold answer. rewrite Hdo, Hbody. split.
    + intros ->. reflexivity.
    + intros Hne. apply Z.eqb_neq in Hne. rewrite Hne.
      eexists. split; [reflexivity|]. split; auto 12 with contains.
Qed.

Lemma RunAuthRequest_success_exactly_on_200_witness :
  exists e,
    fst (RunAuthRequest (Demo.world [] Demo.missing) Demo.session
           "http://localhost:8080/api/file/7" "GET" "t0k3n" NilBody []) = Done (Err e)
    /\ Contains "404 Not Found" e /\ Contains "no such file" e.
Proof.
  pose proof (RunAuthRequest_success_exactly_on_200
                (Demo.world [] Demo.missing) Demo.session
                "http://localhost:8080/api/file/7" "GET" "t0k3n" NilBody [] _ _
                eq_refl) as [_ H].
  specialize (H _ Demo.not_found "no such file" eq_refl eq_refl eq_refl).
  destruct H as [_ H]. destruct H as (e & He & Hs & Hp).
  - simpl. lia.
  - exists e. split; [|split]; [|exact Hs|exact Hp].
    rewrite <- He. reflexivity.
Defined.

(* ================================================================== *)
(** ** Loops *)

Section RangeFacts.

Context {A R : Type}.
Variable body : A -> M (Ctl R).

(** A loop over [l1 ++ l2] is the loop over [l1], then, unless it
    returned, the loop over [l2]. *)
Lemma range_app (l1 l2 : list A) (tr : Trace) :
  range (l1 ++ l2)%list body tr =
    match range l1 body tr with
    | (Done Next, tr1) => range l2 body tr1
    | other => other
    end.
Proof.
  revert tr. induction l1 as [|x l1 IH]; intros tr; simpl; [reflexivity|].
  run. destruct (body x tr) as [[[|r]|m|m] tr1]; try reflexivity.
  apply IH.
Qed.

(** Elements whose body falls through without any effect are skipped. *)
Lemma range_skip (l1 l2 : list A) (tr : Trace) :
  Forall (fun x => forall t, body x t = (Done Next, t)) l1 ->
  range (l1 ++ l2)%list body tr = range l2 body tr.
Proof.
  induction 1 as [|x l1 Hx _ IH]; simpl; [reflexivity|].
  run. rewrite Hx. apply IH.
Qed.

(** A return in the body ends the loop there. *)
Lemma range_return (x : A) (l : list A) (r : R) (tr tr' : Trace) :
  body x tr = (Done (Return r), tr') ->
  range (x :: l) body tr = (Done (Return r), tr').
Proof. intros H. simpl. run. now rewrite H. Qed.

(** An invariant of the body is an invariant of the loop. *)
Lemma range_invariant (I : Trace -> Prop) (l : list A) :
  (forall x tr o tr', I tr -> body x tr = (o, tr') -> I tr') ->
  forall tr o tr', I tr -> range l body tr = (o, tr') -> I tr'.
Proof.
  intros Hbody. induction l as [|x l IH]; intros tr o tr' Hi; simpl; run.
  - now intros [= _ <-].
  - destruct (body x tr) as [[[|r]|m|m] tr1] eqn:E; intros H;
      pose proof (Hbody _ _ _ _ Hi E) as Hi1.
    + eapply IH; eauto.
    + now injection H as _ <-.
    + now injection H as _ <-.
    + now injection H as _ <-.
Qed.

(** A body that always comes back makes a loop that always comes back. *)
Lemma range_returns (l : list A) :
  (forall x tr, exists c tr', body x tr = (Done c, tr')) ->
  forall tr, exists c tr', range l body tr = (Done c, tr').
Proof.
  intros Hbody. induction l as [|x l IH]; intros tr; simpl; run.
  - now exists Next, tr.
  - destruct (Hbody x tr) as ([|r] & tr1 & ->).
    + apply IH.
    + now exists (Return r), tr1.
Qed.

End RangeFacts.

(* ================================================================== *)
(** ** File lookup *)

Section ResolverFacts.

Variable w : World.

Lemma GetFileInfoByFilename_body_pure filename fi tr :
  exists c, GetFileInfoByFilename_body w filename fi tr = (Done c, tr).
Proof.
  unfold GetFileInfoByFilename_body.
  destruct (DecryptString w (FileName fi)) as [n|e]; run; eauto.
  destruct (n =? filename)%string; eauto.
Qed.

Lemma GetFileInfoByFilename_range_pure filename l tr :
  exists c, range l (GetFileInfoByFilename_body w filename) tr = (Done c, tr).
Proof.
  induction l as [|fi l IH]; simpl; run; eauto.
  destruct (GetFileInfoByFilename_body_pure filename fi tr) as [[|r] ->]; eauto.
Qed.

(** File lookup always comes back, and its only effect is the catalog
    fetch. *)
Lemma GetFileInfoByFilename_total filename tr :
  exists r, GetFileInfoByFilename w filename tr
            = (Done r, (tr ++ [EvGetAllFileHashes])%list).
Proof.
  unfold GetFileInfoByFilename, GetAllFileHashes. run.
  destruct (AllFileHashes w) as [l|e]; eauto.
  destruct (GetFileInfoByFilename_range_pure filename l (tr ++ [EvGetAllFileHashes])%list)
    as [[|r] ->]; eauto.
Qed.

Lemma GetFileInfoByFilename_trace filename tr o tr' :
  GetFileInfoByFilename w filename tr = (o, tr') ->
  tr' = (tr ++ [EvGetAllFileHashes])%list.
Proof.
  destruct (GetFileInfoByFilename_total filename tr) as [r ->]. now intros [= _ <-].
Qed.

Lemma other_name_skipped filename fi :
  other_name w filename fi ->
  forall t, GetFileInfoByFilename_body w filename fi t = (Done Next, t).
Proof.
  intros (n & Hd & Hn) t. unfold GetFileInfoByFilename_body. rewrite Hd.
  apply String.eqb_neq in Hn. now rewrite Hn.
Qed.

End ResolverFacts.

(** C9 (as stated, refuted). A catalog with a corrupt entry after the
    sought file: the lookup succeeds although one entry fails to
    decrypt. *)
Lemma lookup_succeeds_before_corrupt_entry :
  In (Demo.corrupt 2) Demo.corrupt_last /\
  DecryptString (Demo.world Demo.corrupt_last Demo.accepts) (FileName (Demo.corrupt 2))
    = Err "cipher: message authentication failed" /\
  GetFileInfoByFilename (Demo.world Demo.corrupt_last Demo.accepts) "a.txt" []
    = (Done (Ok (Demo.file 1 "a.txt" 3)), [EvGetAllFileHashes]).
Proof.
  split; [right; left; reflexivity|]. split; reflexivity.
Qed.

(** C9 (amended). When an entry whose stored name fails to decrypt comes
    in catalog order before every entry that decrypts to the sought name,
    the lookup fails with that decryption error, whatever follows the
    corrupt entry. *)
Theorem GetFileInfoByFilename_corrupt_entry_first
    (w : World) (filename : string) (pre post : list FileInfo) (bad : FileInfo)
    (e : string) (tr : Trace) :
  AllFileHashes w = Ok (pre ++ bad :: post)%list ->
  Forall (other_name w filename) pre ->
  DecryptString w (FileName bad) = Err e ->
  GetFileInfoByFilename w filename tr = (Done (Err e), (tr ++ [EvGetAllFileHashes])%list).
Proof.
  intros Hcat Hpre Hbad. unfold GetFileInfoByFilename, GetAllFileHashes. run.
  rewrite Hcat. rewrite range_skip.
  - erewrite range_return; [reflexivity|].
    unfold GetFileInfoByFilename_body. now rewrite Hbad.
  - eapply Forall_impl; [|exact Hpre]. intros fi. apply other_name_skipped.
Qed.

Lemma GetFileInfoByFilename_corrupt_entry_first_witness :
  GetFileInfoByFilename (Demo.world Demo.corrupt_first Demo.accepts) "a.txt" []
    = (Done (Err "cipher: message authentication failed"), [EvGetAllFileHashes]).
Proof.
  apply (GetFileInfoByFilename_corrupt_entry_first
           (Demo.world Demo.corrupt_first Demo.accepts) "a.txt"
           [] [Demo.file 1 "a.txt" 3] (Demo.corrupt 2)).
  - reflexivity.
  - constructor.
  - reflexivity.
Defined.

(* ================================================================== *)
(** ** Single-file version prune *)

Section PruneFacts.

Variable w : World.
Variable s : State.

Lemma geb_true (a b : Z) : a >= b -> (a >=? b) = true.
Proof. intros H. apply Z.geb_le. lia. Qed.

Lemma geb_false (a b : Z) : a < b -> (a >=? b) = false.
Proof.
  intros H. destruct (a >=? b) eqn:E; [|reflexivity].
  apply Z.geb_le in E. lia.
Qed.

(** [RmFileVersions] once the file is found: the range check, then, off
    dry run, one ranged delete and the reading of its answer. *)
Lemma RmFileVersions_found filename minVersion maxVersion dryRun fi tr tr1 :
  GetFileInfoByFilename w filename tr = (Done (Ok fi), tr1) ->
  RmFileVersions w s filename minVersion maxVersion dryRun tr =
    if maxVersion >=? VersionNumber (CurrentVersion fi) then
      (Done (Err InvalidRange_msg), tr1)
    else if dryRun then (Done (Ok tt), tr1)
    else
      match RunAuthRequest w s (versions_target s (FileID fi)) "DELETE" (AuthToken s)
              (Object (mkFileDeleteVersionsRequest minVersion maxVersion)) tr1 with
      | (Done (Err err), tr2) =>
          (Done (Err ("Failed to delete the file versions for "
                      ++ versions_target s (FileID fi) ++ ": " ++ err)), tr2)
      | (Done (Ok body), tr2) =>
          match json_Unmarshal_Status w body with
          | Err err => (Done (Err ("Failed to delete the file versions: " ++ err)), tr2)
          | Ok status =>
              if status then (Done (Ok tt), tr2) else (Done (Err FailedStatus_msg), tr2)
          end
      | (Exit m, tr2) => (Exit m, tr2)
      | (Panic m, tr2) => (Panic m, tr2)
      end.
Proof.
  intros Hfi. unfold RmFileVersions. run. rewrite Hfi.
  destruct (maxVersion >=? VersionNumber (CurrentVersion fi)); [reflexivity|].
  destruct dryRun; cbv [negb]; [reflexivity|].
  destruct (RunAuthRequest _ _ _ _ _ _ _) as [[[body|err]|m|m] tr2]; try reflexivity.
  destruct (json_Unmarshal_Status w body) as [[|]|err]; reflexivity.
Qed.

(** The ranged delete answered with status code 200 and a readable
    body. *)
Lemma delete_answered_200 fi minVersion maxVersion payload resp body tr :
  can_send_delete w s fi minVersion maxVersion payload ->
  client_Do w tr (delete_versions_request s fi payload) = DoOk resp ->
  StatusCode resp = 200 ->
  resp_Body resp = Ok body ->
  RunAuthRequest w s (versions_target s (FileID fi)) "DELETE" (AuthToken s)
    (Object (mkFileDeleteVersionsRequest minVersion maxVersion)) tr
  = (Done (Ok body), (tr ++ [EvHTTP (delete_versions_request s fi payload)])%list).
Proof.
  intros (Hc & Hn & Hm) Hdo Hcode Hbody.
  rewrite (RunAuthRequest_Object w s _ _ _ _ payload tr Hc Hn Hm).
  unfold delete_versions_request in Hdo. unfold answer.
  rewrite Hdo, Hbody, Hcode. reflexivity.
Qed.

End PruneFacts.

(** C5. Once the file record is resolved, a single-file prune with
    [maxVersion >= currentVersion.versionNumber] fails with the
    invalid-range error, in dry run or not, and has issued no request; with
    [maxVersion = currentVersion.versionNumber - 1] and a 200 answer whose
    status flag is true it succeeds; a 200 answer whose status flag is
    false fails with the server-rejected error. *)
Theorem RmFileVersions_range_and_status
    (w : World) (s : State) (filename : string) (minVersion maxVersion : Z)
    (fi : FileInfo) (tr tr1 : Trace) :
  GetFileInfoByFilename w filename tr = (Done (Ok fi), tr1) ->
  (maxVersion >= VersionNumber (CurrentVersion fi) ->
     forall dryRun,
       RmFileVersions w s filename minVersion maxVersion dryRun tr
         = (Done (Err InvalidRange_msg), tr1)
       /\ requests tr1 = requests tr)
  /\
  (forall payload resp body,
     can_send_delete w s fi minVersion maxVersion payload ->
     client_Do w tr1 (delete_versions_request s fi payload) = DoOk resp ->
     StatusCode resp = 200 ->
     resp_Body resp = Ok body ->
     (maxVersion = VersionNumber (CurrentVersion fi) - 1 ->
      json_Unmarshal_Status w body = Ok true ->
      RmFileVersions w s filename minVersion maxVersion false tr
        = (Done (Ok tt), (tr1 ++ [EvHTTP (delete_versions_request s fi payload)])%list))
     /\
     (maxVersion < VersionNumber (CurrentVersion fi) ->
      json_Unmarshal_Status w body = Ok false ->
      RmFileVersions w s filename minVersion maxVersion false tr
        = (Done (Err FailedStatus_msg),
           (tr1 ++ [EvHTTP (delete_versions_request s fi payload)])%list))).
Proof.
  intros Hfi. split.
  - intros Hge dryRun. rewrite (RmFileVersions_found w s _ _ _ _ fi tr tr1 Hfi).
    rewrite geb_true by exact Hge. split; [reflexivity|].
    apply GetFileInfoByFilename_trace in Hfi. subst tr1.
    rewrite requests_app. simpl. now rewrite app_nil_r.
  - intros payload resp body Hsend Hdo Hcode Hbody.
    pose proof (delete_answered_200 w s fi _ _ payload resp body tr1
                  Hsend Hdo Hcode Hbody) as Hrun.
    split; intros Hlt Hst;
      rewrite (RmFileVersions_found w s _ _ _ _ fi tr tr1 Hfi);
      rewrite geb_false by lia; rewrite Hrun, Hst; reflexivity.
Qed.

Lemma RmFileVersions_range_and_status_witness :
  RmFileVersions (Demo.world Demo.two_files Demo.accepts) Demo.session "a.txt" 0 3 true []
    = (Done (Err InvalidRange_msg), [EvGetAllFileHashes])
  /\
  RmFileVersions (Demo.world Demo.two_files Demo.accepts) Demo.session "a.txt" 0 2 false []
    = (Done (Ok tt),
       [EvGetAllFileHashes;
        EvHTTP (delete_versions_request Demo.session (Demo.file 1 "a.txt" 3)
                                        (Demo.range_payload 0 2))])
  /\
  RmFileVersions (Demo.world Demo.two_files Demo.rejects) Demo.session "a.txt" 0 2 false []
    = (Done (Err FailedStatus_msg),
       [EvGetAllFileHashes;
        EvHTTP (delete_versions_request Demo.session (Demo.file 1 "a.txt" 3)
                                        (Demo.range_payload 0 2))]).
Proof.
  pose proof (RmFileVersions_range_and_status
                (Demo.world Demo.two_files Demo.accepts) Demo.session "a.txt" 0 3
                (Demo.file 1 "a.txt" 3) [] [EvGetAllFileHashes] eq_refl) as [Hrange _].
  pose proof (RmFileVersions_range_and_status
                (Demo.world Demo.two_files Demo.accepts) Demo.session "a.txt" 0 2
                (Demo.file 1 "a.txt" 3) [] [EvGetAllFileHashes] eq_refl) as [_ Hacc].
  pose proof (RmFileVersions_range_and_status
                (Demo.world Demo.two_files Demo.rejects) Demo.session "a.txt" 0 2
                (Demo.file 1 "a.txt" 3) [] [EvGetAllFileHashes] eq_refl) as [_ Hrej].
  split; [|split].
  - apply Hrange. simpl. lia.
  - apply (Hacc (Demo.range_payload 0 2)
                (mkResponse "200 OK" 200 (Ok Demo.status_true)) Demo.status_true);
      try reflexivity.
    repeat split.
  - apply (Hrej (Demo.range_payload 0 2)
                (mkResponse "200 OK" 200 (Ok Demo.status_false)) Demo.status_false);
      try reflexivity.
    repeat split.
Defined.

(** C10. Single-file prune does not look at [minVersion]: whatever its
    value, once the file is resolved, [maxVersion] is below the current
    version and the request can be built, the run off dry run sends exactly
    one request, the ranged delete carrying the serialized pair
    [(minVersion, maxVersion)], and it succeeds when the server answers 200
    with a true status flag. *)
Theorem RmFileVersions_minVersion_unchecked
    (w : World) (s : State) (filename : string) (minVersion maxVersion : Z)
    (fi : FileInfo) (payload : string) (tr tr1 : Trace) :
  GetFileInfoByFilename w filename tr = (Done (Ok fi), tr1) ->
  maxVersion < VersionNumber (CurrentVersion fi) ->
  can_send_delete w s fi minVersion maxVersion payload ->
  snd (RmFileVersions w s filename minVersion maxVersion false tr)
    = (tr1 ++ [EvHTTP (delete_versions_request s fi payload)])%list
  /\
  (forall resp body,
     client_Do w tr1 (delete_versions_request s fi payload) = DoOk resp ->
     StatusCode resp = 200 ->
     resp_Body resp = Ok body ->
     json_Unmarshal_Status w body = Ok true ->
     fst (RmFileVersions w s filename minVersion maxVersion false tr) = Done (Ok tt)).
Proof.
  intros Hfi Hlt Hsend. rewrite (RmFileVersions_found w s _ _ _ _ fi tr tr1 Hfi).
  rewrite geb_false by exact Hlt. split.
  - destruct Hsend as (Hc & Hn & Hm).
    rewrite (RunAuthRequest_Object w s _ _ _ _ payload tr1 Hc Hn Hm).
    fold (delete_versions_request s fi payload).
    destruct (answer _ _ _) as [[body|err]|m|m]; try reflexivity.
    destruct (json_Unmarshal_Status w body) as [[|]|err]; reflexivity.
  - intros resp body Hdo Hcode Hbody Hst.
    rewrite (delete_answered_200 w s fi _ _ payload resp body tr1 Hsend Hdo Hcode Hbody).
    now rewrite Hst.
Qed.

Lemma RmFileVersions_minVersion_unchecked_witness :
  snd (RmFileVersions (Demo.world Demo.two_files Demo.accepts) Demo.session
         "a.txt" (-5) (-9) false [])
    = [EvGetAllFileHashes;
       EvHTTP (delete_versions_request Demo.session (Demo.file 1 "a.txt" 3)
                                       (Demo.range_payload (-5) (-9)))]
  /\
  fst (RmFileVersions (Demo.world Demo.two_files Demo.accepts) Demo.session
         "a.txt" (-5) (-9) false []) = Done (Ok tt).
Proof.
  destruct (RmFileVersions_minVersion_unchecked
              (Demo.world Demo.two_files Demo.accepts) Demo.session "a.txt" (-5) (-9)
              (Demo.file 1 "a.txt" 3) (Demo.range_payload (-5) (-9))
              [] [EvGetAllFileHashes] eq_refl) as [Htr Hok].
  - simpl. lia.
  - repeat split.
  - split; [exact Htr|].
    apply (Hok (mkResponse "200 OK" 200 (Ok Demo.status_true)) Demo.status_true);
      reflexivity.
Defined.

(* ================================================================== *)
(** ** Regex-batch version prune *)

Section BatchFacts.

Variable w : World.
Variable s : State.

Lemma resolveMaxVersion_sentinel fi tr :
  resolveMaxVersion w "H~" fi tr
    = (Done (int_sub (VersionNumber (CurrentVersion fi)) 1), tr).
Proof. reflexivity. Qed.

(** The body of the batch loop on a matched file that is not skipped,
    off dry run: one ranged delete, whose failure returns from the whole
    function. *)
Lemma RmRxFileVersions_body_delete compiledFilter minVersion maxVersionStr
      fi name maxVersion tr :
  DecryptString w (FileName fi) = Ok name ->
  compiledFilter name = true ->
  resolveMaxVersion w maxVersionStr fi tr = (Done maxVersion, tr) ->
  maxVersion < VersionNumber (CurrentVersion fi) ->
  RmRxFileVersions_body w s compiledFilter minVersion maxVersionStr false fi tr =
    match RunAuthRequest w s (versions_target s (FileID fi)) "DELETE" (AuthToken s)
            (Object (mkFileDeleteVersionsRequest minVersion maxVersion)) tr with
    | (Done (Err err), tr2) =>
        (Done (Return (Err ("Failed to delete the file versions for "
                            ++ name ++ ": " ++ err))), tr2)
    | (Done (Ok body), tr2) =>
        match json_Unmarshal_Status w body with
        | Err err =>
            (Done (Return (Err ("Failed to delete the file versions for "
                                ++ name ++ ": " ++ err))), tr2)
        | Ok status =>
            if status then
              (Done Next,
               (tr2 ++ [EvPrintf (name ++ " -- successfully removed versions "
                                  ++ fmt_d minVersion ++ " to " ++ fmt_d maxVersion
                                  ++ "." ++ String "010" "")])%list)
            else (Done (Return (Err FailedStatus_msg)), tr2)
        end
    | (Exit m, tr2) => (Exit m, tr2)
    | (Panic m, tr2) => (Panic m, tr2)
    end.
Proof.
  intros Hd Hm Hmax Hlt. unfold RmRxFileVersions_body, Printf.
  rewrite Hd, Hm. run. rewrite Hmax.
  rewrite geb_false by exact Hlt. cbv [negb].
  destruct (RunAuthRequest _ _ _ _ _ _ _) as [[[body|err]|m|m] tr2]; try reflexivity.
  destruct (json_Unmarshal_Status w body) as [[|]|err]; reflexivity.
Qed.

(** An unmatched file leaves no trace. *)
Lemma unmatched_skipped compiledFilter minVersion maxVersionStr dryRun fi :
  unmatched w compiledFilter fi ->
  forall t, RmRxFileVersions_body w s compiledFilter minVersion maxVersionStr dryRun fi t
            = (Done Next, t).
Proof.
  intros (n & Hd & Hn) t. unfold RmRxFileVersions_body. now rewrite Hd, Hn.
Qed.



End BatchFacts.




(** C2 (the code at the failing input). In the regex-batch prune off dry
    run with the sentinel [H~], a matched file whose current version
    number is 0 is not skipped: the sentinel resolves to [-1], which is
    below 0, and the ranged delete carrying [(minVersion, -1)] is sent. *)
Theorem sentinel_at_version_zero_is_not_skipped
    (w : World) (s : State) (compiledFilter : string -> bool) (minVersion : Z)
    (fi : FileInfo) (payload : string) (tr : Trace) :
  matched w compiledFilter fi ->
  VersionNumber (CurrentVersion fi) = 0 ->
  can_send_delete w s fi minVersion (-1) payload ->
  resolveMaxVersion w "H~" fi tr = (Done (-1), tr) /\
  requests (snd (RmRxFileVersions_body w s compiledFilter minVersion "H~" false fi tr))
    = (requests tr ++ [delete_versions_request s fi payload])%list.
Proof.
  intros (name & Hd & Hm) Hv (Hc & Hn & Hj).
  assert (Hmax : resolveMaxVersion w "H~" fi tr = (Done (-1), tr)).
  { rewrite resolveMaxVersion_sentinel, Hv. reflexivity. }
  split; [exact Hmax|].
  rewrite (RmRxFileVersions_body_delete w s _ _ _ _ name (-1) tr Hd Hm Hmax)
    by (rewrite Hv; lia).
  rewrite (RunAuthRequest_Object w s _ _ _ _ payload tr Hc Hn Hj).
  fold (delete_versions_request s fi payload).
  assert (Hreq : forall rest : Trace,
             requests rest = [] ->
             requests ((tr ++ [EvHTTP (delete_versions_request s fi payload)]) ++ rest)%list
             = (requests tr ++ [delete_versions_request s fi payload])%list).
  { intros rest Hrest. rewrite !requests_app, Hrest. simpl. now rewrite app_nil_r. }
  destruct (answer _ _ _) as [[body|err]|m|m]; simpl;
    try (rewrite <- (app_nil_r (tr ++ _)%list); now apply Hreq).
  destruct (json_Unmarshal_Status w body) as [[|]|err]; simpl;
    try (rewrite <- (app_nil_r (tr ++ _)%list); now apply Hreq).
  now apply Hreq.
Qed.

Lemma sentinel_at_version_zero_is_not_skipped_witness :
  RmRxFileVersions (Demo.world Demo.fresh_file Demo.accepts) Demo.session ".*" 0 "H~" false []
    = (Done (Ok tt),
       [EvGetAllFileHashes;
        EvHTTP (delete_versions_request Demo.session (Demo.file 1 "a.txt" 0)
                                        (Demo.range_payload 0 (-1)));
        EvPrintf ("a.txt -- successfully removed versions 0 to -1." ++ String "010" "")])
  /\
  requests (snd (RmRxFileVersions_body (Demo.world Demo.fresh_file Demo.accepts) Demo.session
                   (fun _ => true) 0 "H~" false (Demo.file 1 "a.txt" 0) []))
    = [delete_versions_request Demo.session (Demo.file 1 "a.txt" 0)
                               (Demo.range_payload 0 (-1))].
Proof.
  split; [reflexivity|].
  apply (sentinel_at_version_zero_is_not_skipped
           (Demo.world Demo.fresh_file Demo.accepts) Demo.session (fun _ => true) 0
           (Demo.file 1 "a.txt" 0) (Demo.range_payload 0 (-1)) []).
  - exists "a.txt"%string. split; reflexivity.
  - reflexivity.
  - repeat split.
Defined.

(* ================================================================== *)
(** ** Dry run *)

Section DryRunFacts.

Variable w : World.
Variable s : State.









End DryRunFacts.


(* ================================================================== *)
(** ** Errors come back to the caller *)

Section ReturnFacts.

Variable w : World.
Variable s : State.
Hypothesis transport : well_behaved_transport w.

(** Case analysis on a call of [RunAuthRequest]. *)
Ltac call_RunAuthRequest :=
  match goal with
  | |- context [RunAuthRequest w s ?t ?m ?k ?b ?tr] =>
      let x := fresh "x" in
      let tr' := fresh "tr" in
      let E := fresh "E" in
      destruct (RunAuthRequest_returns w s t m k b tr transport) as (x & tr' & E);
      rewrite E; destruct x
  end.

(** Case analysis on a call of [GetFileInfoByFilename]. *)
Ltac call_GetFileInfoByFilename :=
  match goal with
  | |- context [GetFileInfoByFilename w ?f ?tr] =>
      let r := fresh "r" in
      let E := fresh "E" in
      destruct (GetFileInfoByFilename_total w f tr) as [r E]; rewrite E; destruct r
  end.

Ltac done := unfold returns; simpl; eauto.

Lemma RmFile_returns filename dryRun tr : returns (RmFile w s filename dryRun tr).
Proof.
  unfold RmFile, Printf. run. call_GetFileInfoByFilename; [|done].
  destruct dryRun; cbv [negb]; [done|]. call_RunAuthRequest; done.
Qed.

Lemma RmFileByID_returns fileID tr : returns (RmFileByID w s fileID tr).
Proof. unfold RmFileByID, Printf. run. call_RunAuthRequest; done. Qed.

Lemma GetFileVersions_returns filename tr : returns (GetFileVersions w s filename tr).
Proof.
  unfold GetFileVersions. run. call_GetFileInfoByFilename; [|done].
  call_RunAuthRequest; [|done].
  destruct (json_Unmarshal_Versions w _); done.
Qed.

Lemma RmFileVersions_returns filename minVersion maxVersion dryRun tr :
  returns (RmFileVersions w s filename minVersion maxVersion dryRun tr).
Proof.
  unfold RmFileVersions. run. call_GetFileInfoByFilename; [|done].
  destruct (_ >=? _); [done|]. destruct dryRun; cbv [negb]; [done|].
  call_RunAuthRequest; [|done].
  destruct (json_Unmarshal_Status w _) as [[|]|]; done.
Qed.

Lemma GetMissingChunksForFile_returns fileID tr :
  returns (GetMissingChunksForFile w s fileID tr).
Proof.
  unfold GetMissingChunksForFile. run. call_RunAuthRequest; [|done].
  destruct (json_Unmarshal_MissingChunks w _); done.
Qed.

Lemma RmRxFiles_body_returns compiledFilter dryRun fi tr :
  exists c tr', RmRxFiles_body w s compiledFilter dryRun fi tr = (Done c, tr').
Proof.
  unfold RmRxFiles_body, Printf.
  destruct (DecryptString w (FileName fi)) as [n|e]; run; [|eauto].
  destruct (compiledFilter n); [|eauto].
  destruct dryRun; cbv [negb]; [eauto|]. call_RunAuthRequest; eauto.
Qed.

Lemma RmRxFiles_returns pattern dryRun tr : returns (RmRxFiles w s pattern dryRun tr).
Proof.
  unfold RmRxFiles, GetAllFileHashes. run.
  destruct (AllFileHashes w) as [l|e]; [|done].
  destruct (regexp_Compile w pattern) as [f|e]; [|done].
  destruct (range_returns (RmRxFiles_body w s f dryRun) l
              (RmRxFiles_body_returns f dryRun) (tr ++ [EvGetAllFileHashes])%list)
    as ([|r] & tr' & ->); done.
Qed.

Lemma RmRxFileVersions_body_returns compiledFilter minVersion maxVersionStr dryRun fi tr :
  maxVersionStr = "H~"%string \/ is_ok (strconv_Atoi w maxVersionStr) = true ->
  exists c tr',
    RmRxFileVersions_body w s compiledFilter minVersion maxVersionStr dryRun fi tr
    = (Done c, tr').
Proof.
  intros Hmax. unfold RmRxFileVersions_body, Printf.
  destruct (DecryptString w (FileName fi)) as [n|e]; run; [|eauto].
  destruct (compiledFilter n); [|eauto].
  assert (Hres : exists mv, resolveMaxVersion w maxVersionStr fi tr = (Done mv, tr)).
  { unfold resolveMaxVersion. destruct (maxVersionStr =? "H~")%string eqn:Es; [run; eauto|].
    destruct Hmax as [-> | Hok]; [discriminate|].
    destruct (strconv_Atoi w maxVersionStr); [run; eauto | discriminate]. }
  destruct Hres as [mv ->].
  destruct (_ >=? _); [eauto|].
  destruct dryRun; cbv [negb]; [eauto|]. call_RunAuthRequest; [|eauto].
  destruct (json_Unmarshal_Status w _) as [[|]|]; cbv [negb]; eauto.
Qed.

Lemma RmRxFileVersions_returns pattern minVersion maxVersionStr dryRun tr :
  maxVersionStr = "H~"%string \/ is_ok (strconv_Atoi w maxVersionStr) = true ->
  returns (RmRxFileVersions w s pattern minVersion maxVersionStr dryRun tr).
Proof.
  intros Hmax. unfold RmRxFileVersions, GetAllFileHashes. run.
  destruct (AllFileHashes w) as [l|e]; [|done].
  destruct (regexp_Compile w pattern) as [f|e]; [|done].
  destruct (range_returns (RmRxFileVersions_body w s f minVersion maxVersionStr dryRun) l
              (fun fi t => RmRxFileVersions_body_returns f minVersion maxVersionStr
                             dryRun fi t Hmax)
              (tr ++ [EvGetAllFileHashes])%list)
    as ([|r] & tr' & ->); done.
Qed.

End ReturnFacts.


(* ================================================================== *)
(** ** The chunk stream *)

Section ChunkFacts.

Import ChunkStream ChunkSpec.
Import Stdlib.Strings.Byte.

Local Open Scope nat_scope.
Local Open Scope list_scope.

(** The three answers of [io.ReadAtLeast] on a file without read fault. *)
Lemma io_ReadAtLeast_full (f : File) (C : nat) :
  C <= List.length (bytes f) ->
  io_ReadAtLeast f C = (firstn C (bytes f), None, mkFile (skipn C (bytes f)) (fault f)).
Proof.
  intros H. unfold io_ReadAtLeast.
  rewrite length_firstn, Nat.min_l by exact H. now rewrite Nat.ltb_irrefl.
Qed.

Lemma io_ReadAtLeast_short (f : File) (C : nat) :
  fault f = None ->
  0 < List.length (bytes f) < C ->
  io_ReadAtLeast f C
    = (firstn C (bytes f), Some io_ErrUnexpectedEOF, mkFile (skipn C (bytes f)) None).
Proof.
  intros Hf [Hpos Hlt]. unfold io_ReadAtLeast.
  rewrite length_firstn, Nat.min_r by lia. rewrite Hf.
  destruct (Nat.ltb_spec (List.length (bytes f)) C); [|lia].
  destruct (Nat.ltb_spec 0 (List.length (bytes f))); [reflexivity|lia].
Qed.

Lemma io_ReadAtLeast_eof (f : File) (C : nat) :
  fault f = None ->
  List.length (bytes f) = 0 ->
  0 < C ->
  io_ReadAtLeast f C = ([], Some io_EOF, mkFile (skipn C (bytes f)) None).
Proof.
  intros Hf Hlen Hc. unfold io_ReadAtLeast. rewrite Hf.
  destruct (bytes f) as [|b l]; [|discriminate]. rewrite firstn_nil. simpl.
  destruct (Nat.ltb_spec 0 C); [reflexivity|lia].
Qed.

Variable S : Type.
Variable eachFunc : eachChunkFunc S.
Variable filename : string.
Variable C : nat.
Variable localChunkCount : Z.
Hypothesis C_pos : 0 < C.
Hypothesis continues : always_continues eachFunc.

(** One iteration that reads a full chunk. *)
Lemma chunkLoop_full (todo : nat) (i : Z) (f : File) (st : S) (seen : list Chunk) :
  C <= List.length (bytes f) ->
  chunkLoop (Datatypes.S todo) i C filename localChunkCount eachFunc f st seen
  = chunkLoop todo (i + 1)%Z C filename localChunkCount eachFunc
              (mkFile (skipn C (bytes f)) (fault f))
              (snd (eachFunc i (firstn C (bytes f)) st))
              (seen ++ [(i, firstn C (bytes f))]).
Proof.
  intros H. simpl. rewrite io_ReadAtLeast_full by exact H.
  pose proof (continues i (firstn C (bytes f)) st) as Hc.
  destruct (eachFunc i (firstn C (bytes f)) st) as [[b oe] st'].
  simpl in Hc. injection Hc as -> ->. reflexivity.
Qed.

(** A short read on a chunk that is not the last expected one. *)
Lemma chunkLoop_short_not_last (todo : nat) (i : Z) (f : File) (st : S)
      (seen : list Chunk) :
  fault f = None ->
  0 < List.length (bytes f) < C ->
  (i + 1)%Z <> localChunkCount ->
  chunkLoop (Datatypes.S todo) i C filename localChunkCount eachFunc f st seen
  = mkRun (Err (truncated_msg filename)) st seen.
Proof.
  intros Hf Hlen Hi. simpl. rewrite io_ReadAtLeast_short by assumption.
  apply Z.eqb_neq in Hi. now rewrite Hi.
Qed.

(** A short read on the last expected chunk. *)
Lemma chunkLoop_short_last (i : Z) (f : File) (st : S) (seen : list Chunk) :
  fault f = None ->
  0 < List.length (bytes f) < C ->
  (i + 1)%Z = localChunkCount ->
  chunkLoop 1 i C filename localChunkCount eachFunc f st seen
  = mkRun (Ok tt) (snd (eachFunc i (firstn C (bytes f)) st))
          (seen ++ [(i, firstn C (bytes f))]).
Proof.
  intros Hf Hlen Hi. simpl. rewrite io_ReadAtLeast_short by assumption.
  apply Z.eqb_eq in Hi. rewrite Hi. cbv [negb].
  pose proof (continues i (firstn C (bytes f)) st) as Hc.
  destruct (eachFunc i (firstn C (bytes f)) st) as [[b oe] st'].
  simpl in Hc. injection Hc as -> ->. reflexivity.
Qed.

(** A read at the end of the file, last expected chunk or not. *)
Lemma chunkLoop_eof (todo : nat) (i : Z) (f : File) (st : S) (seen : list Chunk) :
  fault f = None ->
  List.length (bytes f) = 0 ->
  chunkLoop (Datatypes.S todo) i C filename localChunkCount eachFunc f st seen
  = mkRun (Err (read_error_msg 0 filename io_EOF)) st seen.
Proof.
  intros Hf Hlen. simpl. now rewrite io_ReadAtLeast_eof by assumption.
Qed.

(** With exactly as many iterations as the file has chunks, the loop hands
    every chunk to the visitor and ends without error. *)
Lemma chunkLoop_exact (q r : nat) :
  r < C ->
  forall (i : Z) (f : File) (st : S) (seen : list Chunk),
    fault f = None ->
    List.length (bytes f) = q * C + r ->
    localChunkCount = (i + Z.of_nat (q + tail_count r))%Z ->
    chunkLoop (q + tail_count r) i C filename localChunkCount eachFunc f st seen
    = mkRun (Ok tt)
            (visit_all eachFunc (chunks_of (q + tail_count r) i C (bytes f)) st)
            (seen ++ chunks_of (q + tail_count r) i C (bytes f)).
Proof.
  intros Hr. induction q as [|q IH]; intros i f st seen Hf Hlen Hcount.
  - simpl Nat.add in *. unfold tail_count in *.
    destruct (Nat.eqb_spec r 0) as [Hz|Hnz].
    + simpl. now rewrite app_nil_r.
    + rewrite chunkLoop_short_last; [reflexivity | exact Hf | simpl in Hlen; lia | lia].
  - change (Datatypes.S q + tail_count r) with (Datatypes.S (q + tail_count r)) in *.
    rewrite chunkLoop_full by (rewrite Hlen; simpl; lia).
    rewrite IH.
    + simpl chunks_of. simpl visit_all. now rewrite <- app_assoc.
    + exact Hf.
    + simpl bytes. rewrite length_skipn, Hlen. simpl. lia.
    + lia.
Qed.

(** With more iterations than the file has chunks, the loop hands the full
    chunks to the visitor and fails at the tail: on the short chunk when
    there is one, else on the read at the end of the file. *)
Lemma chunkLoop_overrun (q r : nat) :
  r < C ->
  forall (todo : nat) (i : Z) (f : File) (st : S) (seen : list Chunk),
    fault f = None ->
    List.length (bytes f) = q * C + r ->
    localChunkCount = (i + Z.of_nat todo)%Z ->
    q + tail_count r < todo ->
    chunkLoop todo i C filename localChunkCount eachFunc f st seen
    = mkRun (Err (if r =? 0 then read_error_msg 0 filename io_EOF
                  else truncated_msg filename))
            (visit_all eachFunc (chunks_of q i C (bytes f)) st)
            (seen ++ chunks_of q i C (bytes f)).
Proof.
  intros Hr. induction q as [|q IH]; intros todo i f st seen Hf Hlen Hcount Hmore;
    (destruct todo as [|todo]; [lia|]).
  - simpl chunks_of. simpl visit_all. rewrite app_nil_r.
    unfold tail_count in Hmore. destruct (Nat.eqb_spec r 0) as [Hz|Hnz].
    + apply chunkLoop_eof; [exact Hf | simpl in Hlen; lia].
    + apply chunkLoop_short_not_last; [exact Hf | simpl in Hlen; lia | lia].
  - rewrite chunkLoop_full by (rewrite Hlen; simpl; lia).
    rewrite (IH todo).
    + simpl chunks_of. simpl visit_all. now rewrite <- app_assoc.
    + exact Hf.
    + simpl bytes. rewrite length_skipn, Hlen. simpl. lia.
    + lia.
    + simpl in Hmore. lia.
Qed.

End ChunkFacts.

Section ChunkSpecFacts.

Import ChunkStream ChunkSpec.
Import Stdlib.Strings.Byte.

Local Open Scope nat_scope.
Local Open Scope list_scope.

Lemma firstn_add_split {A} (a b : nat) (l : list A) :
  firstn (a + b) l = firstn a l ++ firstn b (skipn a l).
Proof.
  revert l. induction a as [|a IH]; intros l; [reflexivity|].
  destruct l as [|x l]; simpl.
  - now rewrite firstn_nil.
  - now rewrite IH.
Qed.

Lemma chunks_of_length (n : nat) (i : Z) (C : nat) (l : list byte) :
  List.length (chunks_of n i C l) = n.
Proof. revert i l. induction n as [|n IH]; intros i l; simpl; [reflexivity | now rewrite IH]. Qed.

(** The chunk numbers are [i], [i + 1], ... *)
Lemma chunks_of_numbers (n : nat) (i : Z) (C : nat) (l : list byte) :
  map fst (chunks_of n i C l) = map (fun k => (i + Z.of_nat k)%Z) (seq 0 n).
Proof.
  revert i l. induction n as [|n IH]; intros i l; [reflexivity|].
  simpl. rewrite IH, <- seq_shift, map_map. f_equal; [f_equal; lia|].
  apply map_ext. intros k. lia.
Qed.

(** The chunks, put end to end, are the first [n * C] bytes. *)
Lemma chunks_of_concat (n : nat) (i : Z) (C : nat) (l : list byte) :
  List.concat (map snd (chunks_of n i C l)) = firstn (n * C) l.
Proof.
  revert i l. induction n as [|n IH]; intros i l; [reflexivity|].
  simpl. now rewrite IH, firstn_add_split.
Qed.

(** The last chunk of a file of [q] full chunks and [r] more bytes. *)
Lemma chunks_of_last (C q r : nat) :
  0 < C -> r < C ->
  forall (i : Z) (l : list byte) (init : list Chunk) (k : Z) (b : list byte),
    List.length l = q * C + r ->
    chunks_of (q + tail_count r) i C l = init ++ [(k, b)] ->
    List.length b = if r =? 0 then C else r.
Proof.
  intros HC Hr. induction q as [|q IH]; intros i l init k b Hlen Hch.
  - simpl in Hlen. unfold tail_count in *. destruct (Nat.eqb_spec r 0) as [Hz|Hnz].
    + simpl in Hch. now destruct init.
    + simpl in Hch. destruct init as [|x init].
      * injection Hch as _ <-. rewrite length_firstn. lia.
      * injection Hch as _ Hnil. now destruct init.
  - change (Datatypes.S q + tail_count r) with (Datatypes.S (q + tail_count r)) in Hch.
    simpl in Hch. destruct init as [|x init].
    + injection Hch as _ Hb Hrest.
      apply (f_equal (@List.length _)) in Hrest. rewrite chunks_of_length in Hrest.
      simpl in Hrest. unfold tail_count in Hrest.
      destruct (Nat.eqb_spec r 0) as [Hz|Hnz]; [|lia].
      subst b. rewrite length_firstn, Hlen. simpl. lia.
    + injection Hch as _ Hrest.
      eapply IH; [|exact Hrest].
      rewrite length_skipn, Hlen. simpl. lia.
Qed.

(** A length as full chunks and a rest. *)
Lemma length_split (len C : nat) :
  0 < C -> len = (len / C) * C + len mod C /\ len mod C < C.
Proof.
  intros HC. split.
  - rewrite Nat.mul_comm. apply Nat.div_mod_eq.
  - apply Nat.mod_upper_bound. lia.
Qed.

Lemma ceil_div_split (C q r : nat) :
  0 < C -> r < C ->
  ceil_div (Z.of_nat (q * C + r)) (Z.of_nat C) = Z.of_nat (q + tail_count r).
Proof.
  intros HC Hr. unfold ceil_div, tail_count. symmetry.
  destruct (Nat.eqb_spec r 0) as [Hz|Hnz].
  - apply Z.div_unique_pos with (r := (Z.of_nat C - 1)%Z); [lia|].
    rewrite !Nat2Z.inj_add, Nat2Z.inj_mul. subst r. simpl Z.of_nat. ring.
  - apply Z.div_unique_pos with (r := (Z.of_nat r - 1)%Z); [lia|].
    rewrite !Nat2Z.inj_add, Nat2Z.inj_mul. simpl Z.of_nat. ring.
Qed.

End ChunkSpecFacts.

(** C7. For a file of [N] bytes, a chunk size [C > 0], an expected chunk
    count of exactly [ceil(N / C)] and a visitor that always continues,
    [forEachChunk] ends without error; the chunk numbers handed to the
    visitor are 0, 1, 2, ... in this order; the chunks put end to end are
    the file's bytes; and the last chunk has [N mod C] bytes, or [C] when
    [N mod C = 0]. *)
Theorem forEachChunk_exact_count
    (S : Type) (os_Open : string -> result ChunkStream.File)
    (content : list Byte.byte) (chunkSize : Z) (filename : string)
    (eachFunc : ChunkStream.eachChunkFunc S) (st : S) :
  0 < chunkSize ->
  os_Open filename = Ok (ChunkStream.mkFile content None) ->
  ChunkSpec.always_continues eachFunc ->
  exists run,
    ChunkStream.forEachChunk os_Open chunkSize filename
      (ChunkStream.ceil_div (Z.of_nat (List.length content)) chunkSize) eachFunc st
    = Done run /\
    ChunkStream.run_result run = Ok tt /\
    map fst (ChunkStream.run_chunks run)
    = map Z.of_nat
          (seq 0 (Z.to_nat (ChunkStream.ceil_div (Z.of_nat (List.length content))
                                                 chunkSize))) /\
    List.concat (map snd (ChunkStream.run_chunks run)) = content /\
    (forall init k b,
        ChunkStream.run_chunks run = (init ++ [(k, b)])%list ->
        Z.of_nat (List.length b)
        = if Z.of_nat (List.length content) mod chunkSize =? 0 then chunkSize
          else Z.of_nat (List.length content) mod chunkSize) /\
    ChunkStream.run_state run
    = ChunkSpec.visit_all eachFunc (ChunkStream.run_chunks run) st.
Proof.
  intros Hpos Hopen Hcont.
  set (C := Z.to_nat chunkSize).
  assert (HC : (0 < C)%nat) by (unfold C; lia).
  assert (HCz : chunkSize = Z.of_nat C) by (unfold C; lia).
  destruct (length_split (List.length content) C HC) as [Hlen Hr].
  set (q := (List.length content / C)%nat) in *.
  set (r := (List.length content mod C)%nat) in *.
  assert (Hceil : ChunkStream.ceil_div (Z.of_nat (List.length content)) chunkSize
                  = Z.of_nat (q + ChunkSpec.tail_count r)).
  { rewrite HCz, Hlen at 1. now apply ceil_div_split. }
  assert (Hmod : Z.of_nat (List.length content) mod chunkSize = Z.of_nat r).
  { unfold r. now rewrite Nat2Z.inj_mod, <- HCz. }
  unfold ChunkStream.forEachChunk.
  destruct (Z.ltb_spec chunkSize 0) as [Hneg|_]; [lia|].
  rewrite Hopen, Hceil, Nat2Z.id. fold C.
  rewrite (chunkLoop_exact S eachFunc filename C _ HC Hcont q r Hr);
    [| reflexivity | exact Hlen | simpl; lia].
  eexists. split; [reflexivity|]. simpl.
  split; [reflexivity|]. split; [|split; [|split; [|reflexivity]]].
  - rewrite chunks_of_numbers. apply map_ext. intros k. lia.
  - rewrite chunks_of_concat. apply firstn_all2.
    rewrite Hlen at 1. unfold ChunkSpec.tail_count.
    destruct (r =? 0)%nat eqn:Er; [apply Nat.eqb_eq in Er|]; nia.
  - intros init k b Hch. rewrite Hmod.
    rewrite (chunks_of_last C q r HC Hr _ _ _ _ _ Hlen Hch).
    destruct (Nat.eqb_spec r 0) as [Hz|Hnz].
    + rewrite Hz. simpl. lia.
    + destruct (Z.eqb_spec (Z.of_nat r) 0); [lia|reflexivity].
Qed.

Lemma forEachChunk_exact_count_witness :
  exists run,
    ChunkStream.forEachChunk
      (ChunkStream.one_file "f" [Byte.x01; Byte.x02; Byte.x03; Byte.x04; Byte.x05])
      2 "f" 3 ChunkStream.counting 0%nat = Done run /\
    ChunkStream.run_result run = Ok tt /\
    map fst (ChunkStream.run_chunks run) = [0; 1; 2] /\
    List.concat (map snd (ChunkStream.run_chunks run))
    = [Byte.x01; Byte.x02; Byte.x03; Byte.x04; Byte.x05].
Proof.
  destruct (forEachChunk_exact_count nat
              (ChunkStream.one_file "f" [Byte.x01; Byte.x02; Byte.x03; Byte.x04; Byte.x05])
              [Byte.x01; Byte.x02; Byte.x03; Byte.x04; Byte.x05] 2 "f"
              ChunkStream.counting 0%nat)
    as (run & Hrun & Hres & Hnum & Hcat & _).
  - lia.
  - reflexivity.
  - intros i b n. reflexivity.
  - exists run. repeat split; assumption.
Defined.

(** C4 (as stated, refuted). A file of 4 bytes read in chunks of 2 with 3
    chunks expected: the third read finds the file exhausted, and the
    stream fails with the generic read error, not with the truncated-file
    error. *)
Lemma overrun_at_chunk_boundary_is_a_read_error :
  ChunkStream.ceil_div 4 2 < 3 /\
  ChunkStream.forEachChunk
    (ChunkStream.one_file "f" [Byte.x01; Byte.x02; Byte.x03; Byte.x04])
    2 "f" 3 ChunkStream.counting 0%nat
  = Done (ChunkStream.mkRun
            (Err "an error occured while reading 0 bytes from the file f: EOF")
            2%nat
            [(0, [Byte.x01; Byte.x02]); (1, [Byte.x03; Byte.x04])]) /\
  "an error occured while reading 0 bytes from the file f: EOF"%string
  <> ChunkStream.truncated_msg "f".
Proof.
  split; [reflexivity|]. split; [reflexivity|]. discriminate.
Qed.

(** C4 (amended). For a file of [N] bytes, a chunk size [C > 0], a visitor
    that always continues and an expected chunk count strictly greater
    than [ceil(N / C)], the stream fails after the [N / C] full chunks:
    with the truncated-file error when [N mod C <> 0], raised on the short
    chunk, and with the generic read error (EOF after 0 bytes) when
    [N mod C = 0]. In general a read of at least one byte but fewer than
    [C] on a chunk that is not the last expected one fails with the
    truncated-file error, and a read of no byte at the end of the file
    fails with the generic read error on any chunk. *)
Theorem forEachChunk_overrun
    (S : Type) (os_Open : string -> result ChunkStream.File)
    (content : list Byte.byte) (chunkSize : Z) (filename : string)
    (localChunkCount : Z) (eachFunc : ChunkStream.eachChunkFunc S) (st : S) :
  0 < chunkSize ->
  ChunkSpec.always_continues eachFunc ->
  (os_Open filename = Ok (ChunkStream.mkFile content None) ->
   ChunkStream.ceil_div (Z.of_nat (List.length content)) chunkSize < localChunkCount ->
   ChunkStream.forEachChunk os_Open chunkSize filename localChunkCount eachFunc st
   = Done (ChunkStream.mkRun
             (Err (if Z.of_nat (List.length content) mod chunkSize =? 0
                   then ChunkStream.read_error_msg 0 filename ChunkStream.io_EOF
                   else ChunkStream.truncated_msg filename))
             (ChunkSpec.visit_all eachFunc
                (ChunkSpec.chunks_of (Z.to_nat (Z.of_nat (List.length content) / chunkSize))
                                     0 (Z.to_nat chunkSize) content) st)
             (ChunkSpec.chunks_of (Z.to_nat (Z.of_nat (List.length content) / chunkSize))
                                  0 (Z.to_nat chunkSize) content)))
  /\
  (forall todo i f st' seen,
      ChunkStream.fault f = None ->
      (0 < List.length (ChunkStream.bytes f) < Z.to_nat chunkSize)%nat ->
      i + 1 <> localChunkCount ->
      ChunkStream.chunkLoop (Datatypes.S todo) i (Z.to_nat chunkSize) filename
                            localChunkCount eachFunc f st' seen
      = ChunkStream.mkRun (Err (ChunkStream.truncated_msg filename)) st' seen)
  /\
  (forall todo i f st' seen,
      ChunkStream.fault f = None ->
      ChunkStream.bytes f = [] ->
      ChunkStream.chunkLoop (Datatypes.S todo) i (Z.to_nat chunkSize) filename
                            localChunkCount eachFunc f st' seen
      = ChunkStream.mkRun
          (Err (ChunkStream.read_error_msg 0 filename ChunkStream.io_EOF)) st' seen).
Proof.
  intros Hpos Hcont.
  set (C := Z.to_nat chunkSize).
  assert (HC : (0 < C)%nat) by (unfold C; lia).
  assert (HCz : chunkSize = Z.of_nat C) by (unfold C; lia).
  split; [|split].
  - intros Hopen Hmore.
    destruct (length_split (List.length content) C HC) as [Hlen Hr].
    set (q := (List.length content / C)%nat) in *.
    set (r := (List.length content mod C)%nat) in *.
    assert (Hceil : ChunkStream.ceil_div (Z.of_nat (List.length content)) chunkSize
                    = Z.of_nat (q + ChunkSpec.tail_count r)).
    { rewrite HCz, Hlen at 1. now apply ceil_div_split. }
    assert (Hmod : Z.of_nat (List.length content) mod chunkSize = Z.of_nat r).
    { unfold r. now rewrite Nat2Z.inj_mod, <- HCz. }
    assert (Hdiv : Z.to_nat (Z.of_nat (List.length content) / chunkSize) = q).
    { unfold q. now rewrite HCz, <- Nat2Z.inj_div, Nat2Z.id. }
    unfold ChunkStream.forEachChunk.
    destruct (Z.ltb_spec chunkSize 0) as [Hneg|_]; [lia|].
    rewrite Hopen, Hmod, Hdiv. fold C.
    rewrite (chunkLoop_overrun S eachFunc filename C localChunkCount HC Hcont q r Hr);
      [| reflexivity | exact Hlen | lia | lia].
    simpl. destruct (Nat.eqb_spec r 0) as [Hz|Hnz].
    + rewrite Hz. reflexivity.
    + destruct (Z.eqb_spec (Z.of_nat r) 0); [lia|reflexivity].
  - intros todo i f st' seen Hf Hlen Hi.
    now apply chunkLoop_short_not_last.
  - intros todo i f st' seen Hf Hb.
    apply chunkLoop_eof; [exact HC | exact Hf | now rewrite Hb].
Qed.

Lemma forEachChunk_overrun_witness :
  ChunkStream.forEachChunk
    (ChunkStream.one_file "f" [Byte.x01; Byte.x02; Byte.x03; Byte.x04; Byte.x05])
    2 "f" 4 ChunkStream.counting 0%nat
  = Done (ChunkStream.mkRun (Err (ChunkStream.truncated_msg "f")) 2%nat
            [(0, [Byte.x01; Byte.x02]); (1, [Byte.x03; Byte.x04])]).
Proof.
  destruct (forEachChunk_overrun nat
              (ChunkStream.one_file "f" [Byte.x01; Byte.x02; Byte.x03; Byte.x04; Byte.x05])
              [Byte.x01; Byte.x02; Byte.x03; Byte.x04; Byte.x05] 2 "f" 4
              ChunkStream.counting 0%nat) as [H _].
  - lia.
  - intros i b n. reflexivity.
  - apply H; reflexivity.
Defined.


(** A transport failure that leaves no response makes [RunAuthRequest]
    panic on [resp.Status]. *)
Example transport_failure_without_response_panics :
  RmFileByID (Demo.world [] Demo.unreachable) Demo.session 7 []
  = (Panic nil_deref,
     [EvHTTP (mkRequest "DELETE" "http://localhost:8080/api/file/7" None
                        [("Authorization", "Bearer t0k3n")])]).
Proof. reflexivity. Qed.


(* ================================================================== *)
(** ** More on the file lookup *)

Lemma decrypts_to_returns (w : World) (filename : string) (fi : FileInfo) (t : Trace) :
  decrypts_to w filename fi ->
  GetFileInfoByFilename_body w filename fi t = (Done (Return (Ok fi)), t).
Proof.
  intros Hd. unfold GetFileInfoByFilename_body. rewrite Hd.
  now rewrite String.eqb_refl.
Qed.

(** X1. The lookup returns the first catalog entry that decrypts to the
    sought name, whatever follows it in the catalog: later entries with
    the same name, or entries that do not decrypt, are never looked at. *)
Theorem GetFileInfoByFilename_first_match
    (w : World) (filename : string) (pre post : list FileInfo) (fi : FileInfo)
    (tr : Trace) :
  AllFileHashes w = Ok (pre ++ fi :: post)%list ->
  Forall (other_name w filename) pre ->
  decrypts_to w filename fi ->
  GetFileInfoByFilename w filename tr = (Done (Ok fi), (tr ++ [EvGetAllFileHashes])%list).
Proof.
  intros Hcat Hpre Hfi. unfold GetFileInfoByFilename, GetAllFileHashes. run.
  rewrite Hcat, range_skip.
  - erewrite range_return; [reflexivity|]. now apply decrypts_to_returns.
  - eapply Forall_impl; [|exact Hpre]. intros x. apply other_name_skipped.
Qed.

Lemma GetFileInfoByFilename_first_match_witness :
  GetFileInfoByFilename
    (Demo.world [Demo.file 2 "b.txt" 1; Demo.file 1 "a.txt" 3; Demo.corrupt 9;
                 Demo.file 5 "a.txt" 8] Demo.accepts) "a.txt" []
  = (Done (Ok (Demo.file 1 "a.txt" 3)), [EvGetAllFileHashes]).
Proof.
  apply (GetFileInfoByFilename_first_match
           (Demo.world [Demo.file 2 "b.txt" 1; Demo.file 1 "a.txt" 3; Demo.corrupt 9;
                        Demo.file 5 "a.txt" 8] Demo.accepts)
           "a.txt" [Demo.file 2 "b.txt" 1] [Demo.corrupt 9; Demo.file 5 "a.txt" 8]
           (Demo.file 1 "a.txt" 3) []).
  - reflexivity.
  - constructor; [|constructor]. exists "b.txt"%string. split; [reflexivity|discriminate].
  - reflexivity.
Defined.

(** X2. When every catalog entry decrypts to a name other than the sought
    one, and so for the empty catalog, the lookup fails with the not-found
    error naming the file. *)
Theorem GetFileInfoByFilename_not_found
    (w : World) (filename : string) (catalog : list FileInfo) (tr : Trace) :
  AllFileHashes w = Ok catalog ->
  Forall (other_name w filename) catalog ->
  GetFileInfoByFilename w filename tr
  = (Done (Err ("could not find the file: " ++ filename)),
     (tr ++ [EvGetAllFileHashes])%list).
Proof.
  intros Hcat Hall. unfold GetFileInfoByFilename, GetAllFileHashes. run.
  rewrite Hcat. rewrite <- (app_nil_r catalog), range_skip; [reflexivity|].
  eapply Forall_impl; [|exact Hall]. intros x. apply other_name_skipped.
Qed.

Lemma GetFileInfoByFilename_not_found_witness :
  GetFileInfoByFilename (Demo.world [] Demo.accepts) "a.txt" []
  = (Done (Err "could not find the file: a.txt"), [EvGetAllFileHashes])
  /\
  GetFileInfoByFilename (Demo.world Demo.two_files Demo.accepts) "z.txt" []
  = (Done (Err "could not find the file: z.txt"), [EvGetAllFileHashes]).
Proof.
  split.
  - apply (GetFileInfoByFilename_not_found (Demo.world [] Demo.accepts) "a.txt" [] []);
      [reflexivity | constructor].
  - apply (GetFileInfoByFilename_not_found
             (Demo.world Demo.two_files Demo.accepts) "z.txt" Demo.two_files []);
      [reflexivity|].
    repeat constructor.
    + exists "a.txt"%string. split; [reflexivity|discriminate].
    + exists "b.txt"%string. split; [reflexivity|discriminate].
Defined.

Lemma lookup_loop_found (w : World) (filename : string) (l : list FileInfo)
      (fi : FileInfo) (tr tr' : Trace) :
  range l (GetFileInfoByFilename_body w filename) tr = (Done (Return (Ok fi)), tr') ->
  exists pre post,
    l = (pre ++ fi :: post)%list /\ Forall (other_name w filename) pre /\
    decrypts_to w filename fi.
Proof.
  revert tr. induction l as [|x l IH]; intros tr; simpl; run; [discriminate|].
  unfold GetFileInfoByFilename_body at 1.
  destruct (DecryptString w (FileName x)) as [n|e] eqn:Hd; [|discriminate].
  destruct (n =? filename)%string eqn:Hn.
  - intros [= <- _]. apply String.eqb_eq in Hn. subst n.
    exists [], l. now repeat split.
  - intros H. destruct (IH _ H) as (pre & post & -> & Hpre & Hfi).
    exists (x :: pre), post. repeat split; [|exact Hfi].
    constructor; [|exact Hpre]. exists n. split; [exact Hd|].
    now apply String.eqb_neq.
Qed.

(** X3. Whenever the lookup succeeds, the record it returns is an entry of
    the catalog whose stored name decrypts to the sought name, and every
    entry before it decrypts to another name. *)
Theorem GetFileInfoByFilename_sound
    (w : World) (filename : string) (fi : FileInfo) (tr tr' : Trace) :
  GetFileInfoByFilename w filename tr = (Done (Ok fi), tr') ->
  exists pre post,
    AllFileHashes w = Ok (pre ++ fi :: post)%list /\
    Forall (other_name w filename) pre /\
    decrypts_to w filename fi.
Proof.
  unfold GetFileInfoByFilename, GetAllFileHashes. run.
  destruct (AllFileHashes w) as [l|e]; [|discriminate].
  destruct (range l _ _) as [[[|r]|m|m] t] eqn:E; try discriminate.
  intros [= -> _]. destruct (lookup_loop_found _ _ _ _ _ _ E) as (pre & post & -> & H).
  now exists pre, post.
Qed.

Lemma GetFileInfoByFilename_sound_witness :
  exists pre post,
    Demo.two_files = (pre ++ Demo.file 2 "b.txt" 3 :: post)%list /\
    Forall (other_name (Demo.world Demo.two_files Demo.accepts) "b.txt") pre /\
    decrypts_to (Demo.world Demo.two_files Demo.accepts) "b.txt" (Demo.file 2 "b.txt" 3).
Proof.
  destruct (GetFileInfoByFilename_sound
              (Demo.world Demo.two_files Demo.accepts) "b.txt" (Demo.file 2 "b.txt" 3)
              [] [EvGetAllFileHashes] eq_refl) as (pre & post & Hcat & H).
  exists pre, post. split; [|exact H]. now injection Hcat.
Defined.

(* ================================================================== *)
(** ** More on the dispatcher *)

Section DispatcherShape.

Variable w : World.
Variable s : State.

(** The run of [RunAuthRequest], step by step. *)
Lemma RunAuthRequest_unfold target method token reqBody tr :
  RunAuthRequest w s target method token reqBody tr =
    if negb (serializes w reqBody) then
      (Done (Err ("Failed to JSON serialize the data object passed in: "
                  ++ match reqBody with
                     | Object v => match json_Marshal w v with Err e => e | Ok _ => "" end
                     | _ => ""
                     end)), tr)
    else
      match getHTTPClient w s with
      | Err e => (Done (Err e), tr)
      | Ok _ =>
          if http_NewRequest w method target then
            (answer method target
                    (client_Do w tr (request_for w method target token reqBody)),
             (tr ++ [EvHTTP (request_for w method target token reqBody)])%list)
          else (Panic nil_deref, tr)
      end.
Proof.
  unfold RunAuthRequest, buildAuthRequest, serializes, request_for, answer.
  destruct reqBody as [|[b|]|v]; [| | |destruct (json_Marshal w v) as [b|e]];
    cbv [is_ok negb]; try reflexivity;
    destruct (getHTTPClient w s); try reflexivity;
    destruct (http_NewRequest w method target); try reflexivity; run;
    unfold json_request, bare_request, bytes_request;
    cbv [negb req_method req_target req_body req_headers List.app];
    match goal with
    | |- context [client_Do w ?t ?r] =>
        destruct (client_Do w t r) as [resp | [resp|] err];
        [destruct (resp_Body resp); [destruct (StatusCode resp =? 200)|] | |];
        reflexivity
    end.
Qed.

End DispatcherShape.

(** X4. A call of [RunAuthRequest] makes a single attempt: it leaves the
    trace as it was or adds exactly one request, with the given method and
    target and the bearer token in the Authorization header; a byte slice
    is sent as it is with no content type, any other value is sent as its
    JSON serialization with content type application/json, and a nil body
    or nil slice sends no body. *)
Theorem RunAuthRequest_sends_at_most_one_request
    (w : World) (s : State) (target method token : string) (reqBody : ReqBody)
    (tr : Trace) :
  snd (RunAuthRequest w s target method token reqBody tr) = tr \/
  snd (RunAuthRequest w s target method token reqBody tr)
  = (tr ++ [EvHTTP (request_for w method target token reqBody)])%list.
Proof.
  rewrite RunAuthRequest_unfold.
  destruct (negb (serializes w reqBody)); [now left|].
  destruct (getHTTPClient w s); [|now left].
  destruct (http_NewRequest w method target); [now right | now left].
Qed.

(** X5. [RunAuthRequest] never ends the process through a fatal exit, and
    it panics in exactly two cases, both after the body was serialized and
    the client built: [http.NewRequest] refused the method or target, or
    [client.Do] failed without a response. *)
Theorem RunAuthRequest_panics_exactly_when
    (w : World) (s : State) (target method token : string) (reqBody : ReqBody)
    (tr : Trace) :
  (forall m, fst (RunAuthRequest w s target method token reqBody tr) <> Exit m) /\
  ((exists m, fst (RunAuthRequest w s target method token reqBody tr) = Panic m) <->
   serializes w reqBody = true /\ getHTTPClient w s = Ok tt /\
   (http_NewRequest w method target = false \/
    exists err, client_Do w tr (request_for w method target token reqBody)
                = DoErr None err)).
Proof.
  rewrite RunAuthRequest_unfold.
  destruct (serializes w reqBody); cbv [negb].
  2:{ split; [discriminate|]. split; [intros [m H]; discriminate | now intros [H _]]. }
  destruct (getHTTPClient w s) as [[]|e].
  2:{ split; [discriminate|]. split; [intros [m H]; discriminate|].
      intros (_ & H & _). discriminate. }
  destruct (http_NewRequest w method target).
  2:{ split; [discriminate|]. split; [|intros _; now exists nil_deref].
      intros _. repeat split. now left. }
  unfold answer.
  destruct (client_Do w tr _) as [resp | [resp|] err].
  - destruct (resp_Body resp); [destruct (StatusCode resp =? 200)|]; simpl;
      (split; [discriminate|]; split; [intros [m H]; discriminate|];
       intros (_ & _ & [H | [err H]]); discriminate).
  - simpl. split; [discriminate|]. split; [intros [m H]; discriminate|].
    intros (_ & _ & [H | [err' H]]); discriminate.
  - simpl. split; [discriminate|]. split; [|intros _; now exists nil_deref].
    intros _. repeat split. right. now exists err.
Qed.

Section BodyShape.

Variable w : World.
Variable s : State.

(** The body of the [RmRxFiles] loop, case by case. *)
Lemma RmRxFiles_body_unfold compiledFilter dryRun fi tr :
  RmRxFiles_body w s compiledFilter dryRun fi tr =
    match DecryptString w (FileName fi) with
    | Err err => (Done (Return (Err ("failed to decrypt one of the file names: " ++ err))), tr)
    | Ok name =>
        if compiledFilter name then
          if dryRun then
            (Done Next, (tr ++ [EvPrintf ("Removed file: " ++ name ++ String "010" "")])%list)
          else
            match RunAuthRequest w s (file_target s (FileID fi)) "DELETE" (AuthToken s)
                    NilBody tr with
            | (Done (Ok _), tr2) =>
                (Done Next,
                 (tr2 ++ [EvPrintf ("Removed file: " ++ name ++ String "010" "")])%list)
            | (Done (Err err), tr2) =>
                (Done (Return (Err ("Failed to remove the file " ++ name ++ ": " ++ err))), tr2)
            | (Exit m, tr2) => (Exit m, tr2)
            | (Panic m, tr2) => (Panic m, tr2)
            end
        else (Done Next, tr)
    end.
Proof.
  unfold RmRxFiles_body, Printf.
  destruct (DecryptString w (FileName fi)) as [n|e]; [|reflexivity].
  destruct (compiledFilter n); [|reflexivity].
  destruct dryRun; run; cbv [negb]; [reflexivity|].
  destruct (RunAuthRequest _ _ _ _ _ _ _) as [[[b|e]|m|m] tr2]; reflexivity.
Qed.

(** The maximum is resolved without any effect. *)
Lemma resolveMaxVersion_trace maxVersionStr fi tr :
  snd (resolveMaxVersion w maxVersionStr fi tr) = tr.
Proof.
  unfold resolveMaxVersion. destruct (maxVersionStr =? "H~")%string; [reflexivity|].
  destruct (strconv_Atoi w maxVersionStr); reflexivity.
Qed.

(** The body of the [RmRxFileVersions] loop, case by case. *)
Lemma RmRxFileVersions_body_unfold compiledFilter minVersion maxVersionStr dryRun fi tr :
  RmRxFileVersions_body w s compiledFilter minVersion maxVersionStr dryRun fi tr =
    match DecryptString w (FileName fi) with
    | Err err => (Done (Return (Err ("failed to decrypt one of the file names: " ++ err))), tr)
    | Ok name =>
        if compiledFilter name then
          match fst (resolveMaxVersion w maxVersionStr fi tr) with
          | Done maxVersion =>
              if maxVersion >=? VersionNumber (CurrentVersion fi) then (Done Next, tr)
              else if dryRun then
                (Done Next, (tr ++ [EvPrintf (pruned_line name minVersion maxVersion)])%list)
              else
                match RunAuthRequest w s (versions_target s (FileID fi)) "DELETE"
                        (AuthToken s)
                        (Object (mkFileDeleteVersionsRequest minVersion maxVersion)) tr with
                | (Done (Ok body), tr2) =>
                    match json_Unmarshal_Status w body with
                    | Ok true =>
                        (Done Next,
                         (tr2 ++ [EvPrintf (pruned_line name minVersion maxVersion)])%list)
                    | Ok false => (Done (Return (Err FailedStatus_msg)), tr2)
                    | Err err =>
                        (Done (Return (Err ("Failed to delete the file versions for "
                                            ++ name ++ ": " ++ err))), tr2)
                    end
                | (Done (Err err), tr2) =>
                    (Done (Return (Err ("Failed to delete the file versions for "
                                        ++ name ++ ": " ++ err))), tr2)
                | (Exit m, tr2) => (Exit m, tr2)
                | (Panic m, tr2) => (Panic m, tr2)
                end
          | Exit m => (Exit m, tr)
          | Panic m => (Panic m, tr)
          end
        else (Done Next, tr)
    end.
Proof.
  unfold RmRxFileVersions_body, Printf, pruned_line.
  destruct (DecryptString w (FileName fi)) as [n|e]; [|reflexivity].
  destruct (compiledFilter n); [|reflexivity].
  pose proof (resolveMaxVersion_trace maxVersionStr fi tr) as Ht. run.
  destruct (resolveMaxVersion w maxVersionStr fi tr) as [[mv|m|m] t];
    simpl in Ht; subst t; simpl; try reflexivity.
  destruct (mv >=? _); [reflexivity|].
  destruct dryRun; cbv [negb]; [reflexivity|].
  destruct (RunAuthRequest _ _ _ _ _ _ _) as [[[b|e]|m|m] tr2]; try reflexivity.
  destruct (json_Unmarshal_Status w b) as [[|]|e]; reflexivity.
Qed.

End BodyShape.

Lemma prints_app (a b : Trace) : prints (a ++ b)%list = (prints a ++ prints b)%list.
Proof.
  induction a as [|e a IH]; simpl; [reflexivity|].
  destruct e; simpl; now rewrite IH.
Qed.

Lemma catalog_fetches_app (a b : Trace) :
  catalog_fetches (a ++ b)%list = (catalog_fetches a + catalog_fetches b)%nat.
Proof.
  induction a as [|e a IH]; simpl; [reflexivity|].
  destruct e; simpl; now rewrite IH.
Qed.

(* ================================================================== *)
(** ** When the client cannot be built *)

Section NoClient.

Variable w : World.
Variable s : State.
Variable e : string.
Hypothesis no_client : getHTTPClient w s = Err e.

Lemma RunAuthRequest_no_client target method token reqBody tr :
  exists e', RunAuthRequest w s target method token reqBody tr = (Done (Err e'), tr).
Proof.
  rewrite RunAuthRequest_unfold, no_client.
  destruct (negb (serializes w reqBody)); eauto.
Qed.

Ltac no_client_call :=
  match goal with
  | |- context [RunAuthRequest w s ?t ?m ?k ?b ?tr] =>
      let e' := fresh "e" in
      let E := fresh "E" in
      destruct (RunAuthRequest_no_client t m k b tr) as [e' E]; rewrite E
  end.

Ltac same_requests :=
  simpl; rewrite ?requests_app; simpl; rewrite ?app_nil_r; try reflexivity.

Lemma RmRxFiles_body_no_client compiledFilter dryRun fi tr :
  requests (snd (RmRxFiles_body w s compiledFilter dryRun fi tr)) = requests tr.
Proof.
  rewrite RmRxFiles_body_unfold.
  destruct (DecryptString w (FileName fi)) as [n|e0]; [|reflexivity].
  destruct (compiledFilter n); [|reflexivity].
  destruct dryRun; [same_requests|]. no_client_call. reflexivity.
Qed.

Lemma RmRxFileVersions_body_no_client compiledFilter minVersion maxVersionStr dryRun fi tr :
  requests (snd (RmRxFileVersions_body w s compiledFilter minVersion maxVersionStr
                                       dryRun fi tr)) = requests tr.
Proof.
  rewrite RmRxFileVersions_body_unfold.
  destruct (DecryptString w (FileName fi)) as [n|e0]; [|reflexivity].
  destruct (compiledFilter n); [|reflexivity].
  destruct (fst (resolveMaxVersion w maxVersionStr fi tr)) as [mv|m|m]; try reflexivity.
  destruct (mv >=? _); [reflexivity|].
  destruct dryRun; [same_requests|]. no_client_call. reflexivity.
Qed.

Lemma range_no_client {A} (body : A -> M (Ctl (result unit))) (l : list A) (tr : Trace) :
  (forall x t, requests (snd (body x t)) = requests t) ->
  requests (snd (range l body tr)) = requests tr.
Proof.
  intros Hbody.
  destruct (range l body tr) as [o t] eqn:E. simpl.
  apply (range_invariant body (fun t => requests t = requests tr) l) with (3 := E);
    [|reflexivity].
  intros x t0 o0 t1 Hi Hb. pose proof (Hbody x t0) as H. rewrite Hb in H.
  simpl in H. congruence.
Qed.

Lemma fetch_requests tr : requests (tr ++ [EvGetAllFileHashes])%list = requests tr.
Proof. rewrite requests_app. simpl. apply app_nil_r. Qed.

Lemma RmFile_no_client filename dryRun tr :
  requests (snd (RmFile w s filename dryRun tr)) = requests tr.
Proof.
  unfold RmFile, Printf. run.
  destruct (GetFileInfoByFilename_total w filename tr) as [[fi|e0] ->];
    [|apply fetch_requests].
  destruct dryRun; cbv [negb].
  - same_requests.
  - no_client_call. apply fetch_requests.
Qed.

Lemma GetFileVersions_no_client filename tr :
  requests (snd (GetFileVersions w s filename tr)) = requests tr.
Proof.
  unfold GetFileVersions. run.
  destruct (GetFileInfoByFilename_total w filename tr) as [[fi|e0] ->];
    [|apply fetch_requests].
  no_client_call. apply fetch_requests.
Qed.

Lemma RmFileVersions_no_client filename minVersion maxVersion dryRun tr :
  requests (snd (RmFileVersions w s filename minVersion maxVersion dryRun tr))
  = requests tr.
Proof.
  destruct (GetFileInfoByFilename_total w filename tr) as [[fi|e0] H].
  - rewrite (RmFileVersions_found w s _ _ _ _ fi tr _ H).
    destruct (_ >=? _); [apply fetch_requests|].
    destruct dryRun; [apply fetch_requests|].
    no_client_call. apply fetch_requests.
  - unfold RmFileVersions. run. rewrite H. apply fetch_requests.
Qed.

Lemma RmRxFiles_no_client pattern dryRun tr :
  requests (snd (RmRxFiles w s pattern dryRun tr)) = requests tr.
Proof.
  unfold RmRxFiles, GetAllFileHashes. run.
  destruct (AllFileHashes w) as [l|e0]; [|apply fetch_requests].
  destruct (regexp_Compile w pattern) as [f|e0]; [|apply fetch_requests].
  pose proof (range_no_client (RmRxFiles_body w s f dryRun) l
                (tr ++ [EvGetAllFileHashes])%list
                (RmRxFiles_body_no_client f dryRun)) as H.
  rewrite fetch_requests in H.
  destruct (range l _ _) as [[[|r]|m|m] t]; exact H.
Qed.

Lemma RmRxFileVersions_no_client pattern minVersion maxVersionStr dryRun tr :
  requests (snd (RmRxFileVersions w s pattern minVersion maxVersionStr dryRun tr))
  = requests tr.
Proof.
  unfold RmRxFileVersions, GetAllFileHashes. run.
  destruct (AllFileHashes w) as [l|e0]; [|apply fetch_requests].
  destruct (regexp_Compile w pattern) as [f|e0]; [|apply fetch_requests].
  pose proof (range_no_client
                (RmRxFileVersions_body w s f minVersion maxVersionStr dryRun) l
                (tr ++ [EvGetAllFileHashes])%list
                (RmRxFileVersions_body_no_client f minVersion maxVersionStr dryRun)) as H.
  rewrite fetch_requests in H.
  destruct (range l _ _) as [[[|r]|m|m] t]; exact H.
Qed.

Lemma RmFileByID_no_client fileID tr :
  exists e', RmFileByID w s fileID tr = (Done (Err e'), tr).
Proof. unfold RmFileByID. run. no_client_call. eauto. Qed.

Lemma GetMissingChunksForFile_no_client fileID tr :
  exists e', GetMissingChunksForFile w s fileID tr = (Done (Err e'), tr).
Proof. unfold GetMissingChunksForFile. run. no_client_call. eauto. Qed.

End NoClient.

(** X6. When the HTTP client cannot be built (the certificate, the key or
    the PEM data does not load), no operation sends any request: the
    by-id operations return an error with the trace untouched, and the
    name and regex operations leave the requests of the trace as they
    were. *)
Theorem no_client_no_request (w : World) (s : State) (e : string) :
  getHTTPClient w s = Err e ->
  (forall fileID tr, exists e', RmFileByID w s fileID tr = (Done (Err e'), tr)) /\
  (forall fileID tr, exists e', GetMissingChunksForFile w s fileID tr = (Done (Err e'), tr)) /\
  (forall filename dryRun tr,
      requests (snd (RmFile w s filename dryRun tr)) = requests tr) /\
  (forall pattern dryRun tr,
      requests (snd (RmRxFiles w s pattern dryRun tr)) = requests tr) /\
  (forall filename tr,
      requests (snd (GetFileVersions w s filename tr)) = requests tr) /\
  (forall filename minVersion maxVersion dryRun tr,
      requests (snd (RmFileVersions w s filename minVersion maxVersion dryRun tr))
      = requests tr) /\
  (forall pattern minVersion maxVersionStr dryRun tr,
      requests (snd (RmRxFileVersions w s pattern minVersion maxVersionStr dryRun tr))
      = requests tr).
Proof.
  intros H. split; [|split; [|split; [|split; [|split; [|split]]]]]; intros.
  - eapply RmFileByID_no_client; eassumption.
  - eapply GetMissingChunksForFile_no_client; eassumption.
  - eapply RmFile_no_client; eassumption.
  - eapply RmRxFiles_no_client; eassumption.
  - eapply GetFileVersions_no_client; eassumption.
  - eapply RmFileVersions_no_client; eassumption.
  - eapply RmRxFileVersions_no_client; eassumption.
Qed.

Lemma no_client_no_request_witness :
  (exists e', RmFileByID (Fixtures.bad_tls_world Demo.two_files) Fixtures.tls_session 7 []
              = (Done (Err e'), [])) /\
  requests (snd (RmRxFiles (Fixtures.bad_tls_world Demo.two_files) Fixtures.tls_session
                   ".*" false [])) = [].
Proof.
  destruct (no_client_no_request (Fixtures.bad_tls_world Demo.two_files) Fixtures.tls_session
              "unable to load cert: open client.crt: no such file or directory" eq_refl)
    as (Hid & _ & _ & Hrx & _).
  split; [apply Hid | apply Hrx].
Defined.

(* ================================================================== *)
(** ** Catalog fetches and read-only operations *)

Section Fetches.

Variable w : World.
Variable s : State.

Local Open Scope nat_scope.

Lemma RunAuthRequest_fetches target method token reqBody tr :
  catalog_fetches (snd (RunAuthRequest w s target method token reqBody tr))
  = catalog_fetches tr.
Proof.
  destruct (RunAuthRequest w s target method token reqBody tr) as [o t] eqn:E.
  apply RunAuthRequest_trace in E as [-> | (req & -> & _)]; simpl; [reflexivity|].
  rewrite catalog_fetches_app. simpl. lia.
Qed.

(** Case analysis on a call of [RunAuthRequest], keeping its fetch count. *)
Ltac call_keeping_fetches :=
  match goal with
  | |- context [RunAuthRequest w s ?t ?m ?k ?b ?tr] =>
      let H := fresh "H" in
      pose proof (RunAuthRequest_fetches t m k b tr) as H;
      destruct (RunAuthRequest w s t m k b tr) as [[[?|?]|?|?] ?]; simpl in H
  end.

Ltac count := simpl; rewrite ?catalog_fetches_app; simpl; lia.

Lemma lookup_fetches filename tr :
  catalog_fetches (snd (GetFileInfoByFilename w filename tr)) = Datatypes.S (catalog_fetches tr).
Proof. destruct (GetFileInfoByFilename_total w filename tr) as [r ->]. count. Qed.

Lemma RmRxFiles_body_fetches compiledFilter dryRun fi tr :
  catalog_fetches (snd (RmRxFiles_body w s compiledFilter dryRun fi tr))
  = catalog_fetches tr.
Proof.
  rewrite RmRxFiles_body_unfold.
  destruct (DecryptString w (FileName fi)) as [n|e0]; [|reflexivity].
  destruct (compiledFilter n); [|reflexivity].
  destruct dryRun; [count|]. call_keeping_fetches; count.
Qed.

Lemma RmRxFileVersions_body_fetches compiledFilter minVersion maxVersionStr dryRun fi tr :
  catalog_fetches (snd (RmRxFileVersions_body w s compiledFilter minVersion maxVersionStr
                                              dryRun fi tr)) = catalog_fetches tr.
Proof.
  rewrite RmRxFileVersions_body_unfold.
  destruct (DecryptString w (FileName fi)) as [n|e0]; [|reflexivity].
  destruct (compiledFilter n); [|reflexivity].
  destruct (fst (resolveMaxVersion w maxVersionStr fi tr)) as [mv|m|m]; try reflexivity.
  destruct (mv >=? _)%Z; [reflexivity|].
  destruct dryRun; [count|]. call_keeping_fetches; try count.
  destruct (json_Unmarshal_Status w _) as [[|]|]; count.
Qed.

Lemma range_fetches {A} (body : A -> M (Ctl (result unit))) (l : list A) (tr : Trace) :
  (forall x t, catalog_fetches (snd (body x t)) = catalog_fetches t) ->
  catalog_fetches (snd (range l body tr)) = catalog_fetches tr.
Proof.
  intros Hbody.
  destruct (range l body tr) as [o t] eqn:E. simpl.
  apply (range_invariant body (fun t => catalog_fetches t = catalog_fetches tr) l)
    with (3 := E); [|reflexivity].
  intros x t0 o0 t1 Hi Hb. pose proof (Hbody x t0) as H. rewrite Hb in H.
  simpl in H. congruence.
Qed.

Lemma RmFile_fetches filename dryRun tr :
  catalog_fetches (snd (RmFile w s filename dryRun tr)) = Datatypes.S (catalog_fetches tr).
Proof.
  unfold RmFile, Printf. run.
  destruct (GetFileInfoByFilename_total w filename tr) as [[fi|e0] ->]; [|count].
  destruct dryRun; cbv [negb]; [count|]. call_keeping_fetches; rewrite ?catalog_fetches_app in *;
    simpl in *; count.
Qed.

Lemma GetFileVersions_fetches filename tr :
  catalog_fetches (snd (GetFileVersions w s filename tr)) = Datatypes.S (catalog_fetches tr).
Proof.
  unfold GetFileVersions. run.
  destruct (GetFileInfoByFilename_total w filename tr) as [[fi|e0] ->]; [|count].
  call_keeping_fetches; rewrite ?catalog_fetches_app in *; simpl in *; try count.
  destruct (json_Unmarshal_Versions w _); count.
Qed.

Lemma RmFileVersions_fetches filename minVersion maxVersion dryRun tr :
  catalog_fetches (snd (RmFileVersions w s filename minVersion maxVersion dryRun tr))
  = Datatypes.S (catalog_fetches tr).
Proof.
  destruct (GetFileInfoByFilename_total w filename tr) as [[fi|e0] H].
  - rewrite (RmFileVersions_found w s _ _ _ _ fi tr _ H).
    destruct (_ >=? _)%Z; [count|]. destruct dryRun; [count|].
    call_keeping_fetches; rewrite ?catalog_fetches_app in *; simpl in *; try count.
    destruct (json_Unmarshal_Status w _) as [[|]|]; count.
  - unfold RmFileVersions. run. rewrite H. count.
Qed.

Lemma RmRxFiles_fetches pattern dryRun tr :
  catalog_fetches (snd (RmRxFiles w s pattern dryRun tr)) = Datatypes.S (catalog_fetches tr).
Proof.
  unfold RmRxFiles, GetAllFileHashes. run.
  destruct (AllFileHashes w) as [l|e0]; [|count].
  destruct (regexp_Compile w pattern) as [f|e0]; [|count].
  pose proof (range_fetches (RmRxFiles_body w s f dryRun) l
                (tr ++ [EvGetAllFileHashes])%list
                (RmRxFiles_body_fetches f dryRun)) as H.
  rewrite catalog_fetches_app in H. simpl in H.
  destruct (range l _ _) as [[[|r]|m|m] t]; simpl in *; lia.
Qed.

Lemma RmRxFileVersions_fetches pattern minVersion maxVersionStr dryRun tr :
  catalog_fetches (snd (RmRxFileVersions w s pattern minVersion maxVersionStr dryRun tr))
  = Datatypes.S (catalog_fetches tr).
Proof.
  unfold RmRxFileVersions, GetAllFileHashes. run.
  destruct (AllFileHashes w) as [l|e0]; [|count].
  destruct (regexp_Compile w pattern) as [f|e0]; [|count].
  pose proof (range_fetches
                (RmRxFileVersions_body w s f minVersion maxVersionStr dryRun) l
                (tr ++ [EvGetAllFileHashes])%list
                (RmRxFileVersions_body_fetches f minVersion maxVersionStr dryRun)) as H.
  rewrite catalog_fetches_app in H. simpl in H.
  destruct (range l _ _) as [[[|r]|m|m] t]; simpl in *; lia.
Qed.

Lemma RmFileByID_fetches fileID tr :
  catalog_fetches (snd (RmFileByID w s fileID tr)) = catalog_fetches tr.
Proof. unfold RmFileByID, Printf. run. call_keeping_fetches; count. Qed.

Lemma GetMissingChunksForFile_fetches fileID tr :
  catalog_fetches (snd (GetMissingChunksForFile w s fileID tr)) = catalog_fetches tr.
Proof.
  unfold GetMissingChunksForFile. run. call_keeping_fetches; try count.
  destruct (json_Unmarshal_MissingChunks w _); count.
Qed.

End Fetches.

(** X7. Nothing is cached between calls: every operation that works from a
    name or a pattern fetches the whole catalog exactly once per call,
    whatever its outcome, and the two operations that work from a file id
    never fetch it. *)
Theorem one_catalog_fetch_per_call (w : World) (s : State) (tr : Trace) :
  (forall filename,
      catalog_fetches (snd (GetFileInfoByFilename w filename tr)) = S (catalog_fetches tr)) /\
  (forall filename dryRun,
      catalog_fetches (snd (RmFile w s filename dryRun tr)) = S (catalog_fetches tr)) /\
  (forall pattern dryRun,
      catalog_fetches (snd (RmRxFiles w s pattern dryRun tr)) = S (catalog_fetches tr)) /\
  (forall filename,
      catalog_fetches (snd (GetFileVersions w s filename tr)) = S (catalog_fetches tr)) /\
  (forall filename minVersion maxVersion dryRun,
      catalog_fetches (snd (RmFileVersions w s filename minVersion maxVersion dryRun tr))
      = S (catalog_fetches tr)) /\
  (forall pattern minVersion maxVersionStr dryRun,
      catalog_fetches (snd (RmRxFileVersions w s pattern minVersion maxVersionStr dryRun tr))
      = S (catalog_fetches tr)) /\
  (forall fileID, catalog_fetches (snd (RmFileByID w s fileID tr)) = catalog_fetches tr) /\
  (forall fileID,
      catalog_fetches (snd (GetMissingChunksForFile w s fileID tr)) = catalog_fetches tr).
Proof.
  split; [|split; [|split; [|split; [|split; [|split; [|split]]]]]]; intros.
  - apply lookup_fetches.
  - apply RmFile_fetches.
  - apply RmRxFiles_fetches.
  - apply GetFileVersions_fetches.
  - apply RmFileVersions_fetches.
  - apply RmRxFileVersions_fetches.
  - apply RmFileByID_fetches.
  - apply GetMissingChunksForFile_fetches.
Qed.

Section ReadOnly.

Variable w : World.
Variable s : State.





End ReadOnly.


(* ================================================================== *)
(** ** Whole-file removal *)

Section Removal.

Variable w : World.
Variable s : State.

(** A bodiless request that gets a response with a readable body. *)
Lemma RunAuthRequest_NilBody_answered target method token resp body tr :
  getHTTPClient w s = Ok tt ->
  http_NewRequest w method target = true ->
  client_Do w tr (bare_request method target token) = DoOk resp ->
  resp_Body resp = Ok body ->
  RunAuthRequest w s target method token NilBody tr
  = (if StatusCode resp =? 200 then Done (Ok body)
     else Done (Err ("Failed to make the HTTP " ++ method ++ " request to " ++ target
                     ++ " (status: " ++ Status resp ++ "): " ++ body)),
     (tr ++ [EvHTTP (bare_request method target token)])%list).
Proof.
  intros Hc Hn Hdo Hb. rewrite RunAuthRequest_unfold. simpl serializes. cbv [negb].
  rewrite Hc, Hn. simpl request_for. rewrite Hdo. unfold answer. rewrite Hb.
  destruct (StatusCode resp =? 200); reflexivity.
Qed.

End Removal.

(** X9. Remove-by-name off dry run, once the name is resolved and the
    server answers the request: exactly one DELETE goes to
    [<host>/api/file/<id>], without a body; on status code 200 the removal
    line is printed and the call succeeds; on any other status code
    nothing is printed and the returned error names the file, the status
    text and the response payload. *)
Theorem RmFile_deletes_the_resolved_file
    (w : World) (s : State) (filename : string) (fi : FileInfo)
    (resp : Response) (body : string) (tr tr1 : Trace) :
  GetFileInfoByFilename w filename tr = (Done (Ok fi), tr1) ->
  getHTTPClient w s = Ok tt ->
  http_NewRequest w "DELETE" (file_target s (FileID fi)) = true ->
  client_Do w tr1 (delete_file_request s fi) = DoOk resp ->
  resp_Body resp = Ok body ->
  (StatusCode resp = 200 ->
   RmFile w s filename false tr
   = (Done (Ok tt),
      (tr1 ++ [EvHTTP (delete_file_request s fi);
               EvPrintf ("Removed file: " ++ filename ++ String "010" "")])%list))
  /\
  (StatusCode resp <> 200 ->
   exists e,
     RmFile w s filename false tr
     = (Done (Err e), (tr1 ++ [EvHTTP (delete_file_request s fi)])%list) /\
     Contains filename e /\ Contains (Status resp) e /\ Contains body e).
Proof.
  intros Hfi Hc Hn Hdo Hb.
  pose proof (RunAuthRequest_NilBody_answered w s _ _ _ resp body tr1 Hc Hn Hdo Hb) as Hrun.
  split; intros Hcode; unfold RmFile, Printf; run; rewrite Hfi; cbv [negb];
    rewrite Hrun.
  - rewrite Hcode. simpl. now rewrite <- app_assoc.
  - apply Z.eqb_neq in Hcode. rewrite Hcode. eexists. split; [reflexivity|].
    split; [|split]; auto 14 with contains.
Qed.

Lemma RmFile_deletes_the_resolved_file_witness :
  RmFile (Demo.world Demo.two_files Demo.accepts) Demo.session "b.txt" false []
  = (Done (Ok tt),
     [EvGetAllFileHashes;
      EvHTTP (bare_request "DELETE" "http://localhost:8080/api/file/2" "t0k3n");
      EvPrintf ("Removed file: b.txt" ++ String "010" "")])
  /\
  exists e,
    RmFile (Demo.world Demo.two_files Demo.missing) Demo.session "b.txt" false []
    = (Done (Err e),
       [EvGetAllFileHashes;
        EvHTTP (bare_request "DELETE" "http://localhost:8080/api/file/2" "t0k3n")]) /\
    Contains "b.txt" e /\ Contains "404 Not Found" e /\ Contains "no such file" e.
Proof.
  split.
  - apply (RmFile_deletes_the_resolved_file
             (Demo.world Demo.two_files Demo.accepts) Demo.session "b.txt"
             (Demo.file 2 "b.txt" 3) (mkResponse "200 OK" 200 (Ok Demo.status_true))
             Demo.status_true [] [EvGetAllFileHashes]); reflexivity.
  - apply (RmFile_deletes_the_resolved_file
             (Demo.world Demo.two_files Demo.missing) Demo.session "b.txt"
             (Demo.file 2 "b.txt" 3) Demo.not_found "no such file"
             [] [EvGetAllFileHashes]); try reflexivity.
    simpl. lia.
Defined.

(* ================================================================== *)
(** ** Batches that go through *)

Section Batches.

Variable w : World.
Variable s : State.

Lemma selected_decrypted compiledFilter fi name :
  DecryptString w (FileName fi) = Ok name ->
  selected w compiledFilter fi = compiledFilter name /\ plain_name w fi = name.
Proof. intros H. unfold selected, plain_name. now rewrite H. Qed.

Lemma RmRxFiles_loop_all compiledFilter dryRun :
  server_answers_200 w s ->
  forall l tr,
    all_decrypt w l ->
    exists t,
      range l (RmRxFiles_body w s compiledFilter dryRun) tr = (Done Next, t) /\
      requests t
      = (requests tr
         ++ if dryRun then []
            else map (delete_file_request s) (filter (selected w compiledFilter) l))%list /\
      prints t
      = (prints tr
         ++ map (fun fi => removed_line (plain_name w fi))
                (filter (selected w compiledFilter) l))%list.
Proof.
  intros (Hc & Hn & Hdo). induction l as [|fi l IH]; intros tr Hall.
  - exists tr. simpl. destruct dryRun; now rewrite !app_nil_r.
  - inversion Hall as [|? ? Hfi Hl]; subst. simpl. run.
    rewrite RmRxFiles_body_unfold.
    destruct (DecryptString w (FileName fi)) as [n|e] eqn:Hd; [|discriminate].
    destruct (selected_decrypted compiledFilter fi n Hd) as [Hsel Hname].
    rewrite Hsel. destruct (compiledFilter n); cbn [map].
    + destruct dryRun.
      * destruct (IH (tr ++ [EvPrintf ("Removed file: " ++ n ++ String "010" "")])%list Hl)
          as (t & Hrun & Hreq & Hpr).
        exists t. split; [exact Hrun|]. split.
        -- rewrite Hreq, requests_app. simpl. now rewrite !app_nil_r.
        -- rewrite Hpr, prints_app, Hname. simpl. unfold removed_line.
           now rewrite <- app_assoc.
      * destruct (Hdo tr (bare_request "DELETE" (file_target s (FileID fi)) (AuthToken s)))
          as (resp & body & Hresp & Hcode & Hbody).
        rewrite (RunAuthRequest_NilBody_answered w s _ _ _ resp body tr Hc (Hn _ _)
                   Hresp Hbody).
        rewrite Hcode. simpl.
        destruct (IH ((tr ++ [EvHTTP (bare_request "DELETE" (file_target s (FileID fi))
                                                   (AuthToken s))])
                        ++ [EvPrintf ("Removed file: " ++ n ++ String "010" "")])%list Hl)
          as (t & Hrun & Hreq & Hpr).
        exists t. split; [exact Hrun|]. split.
        -- rewrite Hreq, !requests_app. simpl. rewrite !app_nil_r.
           unfold delete_file_request. now rewrite <- app_assoc.
        -- rewrite Hpr, !prints_app, Hname. simpl. rewrite !app_nil_r.
           unfold removed_line. now rewrite <- app_assoc.
    + destruct (IH tr Hl) as (t & Hrun & Hreq & Hpr). now exists t.
Qed.

Lemma geb_negb_ltb (a b : Z) : (a >=? b) = negb (a <? b).
Proof. rewrite Z.geb_leb. apply Z.leb_antisym. Qed.

Lemma resolveMaxVersion_max_for maxVersionStr n fi tr :
  maxVersionStr = "H~"%string \/ strconv_Atoi w maxVersionStr = Ok n ->
  resolveMaxVersion w maxVersionStr fi tr = (Done (max_for maxVersionStr n fi), tr).
Proof.
  intros H. unfold resolveMaxVersion, max_for.
  destruct (maxVersionStr =? "H~")%string eqn:E; [reflexivity|].
  destruct H as [-> | ->]; [discriminate | reflexivity].
Qed.

Lemma RmRxFileVersions_loop_all compiledFilter minVersion maxVersionStr n dryRun enc :
  server_accepts_prunes w s enc ->
  maxVersionStr = "H~"%string \/ strconv_Atoi w maxVersionStr = Ok n ->
  forall l tr,
    all_decrypt w l ->
    exists t,
      range l (RmRxFileVersions_body w s compiledFilter minVersion maxVersionStr dryRun) tr
      = (Done Next, t) /\
      requests t
      = (requests tr
         ++ if dryRun then []
            else map (fun fi =>
                        delete_versions_request s fi
                          (enc (mkFileDeleteVersionsRequest
                                  minVersion (max_for maxVersionStr n fi))))
                     (filter (prunable w compiledFilter maxVersionStr n) l))%list /\
      prints t
      = (prints tr
         ++ map (fun fi => pruned_line (plain_name w fi) minVersion
                                       (max_for maxVersionStr n fi))
                (filter (prunable w compiledFilter maxVersionStr n) l))%list.
Proof.
  intros (Hc & Hn & Henc & Hdo) Hmax. induction l as [|fi l IH]; intros tr Hall.
  - exists tr. simpl. destruct dryRun; now rewrite !app_nil_r.
  - inversion Hall as [|? ? Hfi Hl]; subst. simpl. run.
    rewrite RmRxFileVersions_body_unfold.
    destruct (DecryptString w (FileName fi)) as [name|e] eqn:Hd; [|discriminate].
    destruct (selected_decrypted compiledFilter fi name Hd) as [Hsel Hname].
    assert (Hp : prunable w compiledFilter maxVersionStr n fi
                 = compiledFilter name
                   && (max_for maxVersionStr n fi <? VersionNumber (CurrentVersion fi)))
      by (unfold prunable; now rewrite Hsel).
    rewrite !Hp.
    rewrite (resolveMaxVersion_max_for maxVersionStr n fi tr Hmax). cbn [fst].
    rewrite geb_negb_ltb.
    destruct (compiledFilter name); simpl andb;
      [|destruct (IH tr Hl) as (t & Hrun & Hreq & Hpr); now exists t].
    destruct (max_for maxVersionStr n fi <? VersionNumber (CurrentVersion fi)); cbv [negb];
      cbn [map];
      [|destruct (IH tr Hl) as (t & Hrun & Hreq & Hpr); now exists t].
    destruct dryRun.
    + destruct (IH (tr ++ [EvPrintf (pruned_line name minVersion
                                                 (max_for maxVersionStr n fi))])%list Hl)
        as (t & Hrun & Hreq & Hpr).
      exists t. split; [exact Hrun|]. split.
      * rewrite Hreq, requests_app. simpl. now rewrite !app_nil_r.
      * rewrite Hpr, prints_app, Hname. simpl. now rewrite <- app_assoc.
    + set (v := mkFileDeleteVersionsRequest minVersion (max_for maxVersionStr n fi)).
      rewrite (RunAuthRequest_Object w s _ _ _ v (enc v) tr Hc (Hn _ _) (Henc v)).
      fold (delete_versions_request s fi (enc v)).
      destruct (Hdo tr (delete_versions_request s fi (enc v)))
        as (resp & body & Hresp & Hcode & Hbody & Hst).
      unfold answer. rewrite Hresp, Hbody, Hcode. simpl. rewrite Hst.
      destruct (IH ((tr ++ [EvHTTP (delete_versions_request s fi (enc v))])
                      ++ [EvPrintf (pruned_line name minVersion
                                                (max_for maxVersionStr n fi))])%list Hl)
        as (t & Hrun & Hreq & Hpr).
      exists t. split; [exact Hrun|]. split.
      * rewrite Hreq, !requests_app. simpl. rewrite !app_nil_r.
        now rewrite <- app_assoc.
      * rewrite Hpr, !prints_app, Hname. simpl. rewrite !app_nil_r.
        now rewrite <- app_assoc.
Qed.

End Batches.

(** X10. Remove-by-regex, when every stored name decrypts and the server
    answers every request with status code 200: the call succeeds, it
    sends one whole-file DELETE per matched file, in catalog order, and
    none for the others, and it prints one removal line per matched file;
    a dry run prints the same lines and sends nothing. *)
Theorem RmRxFiles_removes_matches_in_order
    (w : World) (s : State) (pattern : string) (compiledFilter : string -> bool)
    (catalog : list FileInfo) (dryRun : bool) (tr : Trace) :
  server_answers_200 w s ->
  AllFileHashes w = Ok catalog ->
  regexp_Compile w pattern = Ok compiledFilter ->
  all_decrypt w catalog ->
  fst (RmRxFiles w s pattern dryRun tr) = Done (Ok tt) /\
  requests (snd (RmRxFiles w s pattern dryRun tr))
  = (requests tr
     ++ if dryRun then []
        else map (delete_file_request s) (filter (selected w compiledFilter) catalog))%list /\
  prints (snd (RmRxFiles w s pattern dryRun tr))
  = (prints tr
     ++ map (fun fi => removed_line (plain_name w fi))
            (filter (selected w compiledFilter) catalog))%list.
Proof.
  intros Hsrv Hcat Hre Hall. unfold RmRxFiles, GetAllFileHashes. run.
  rewrite Hcat, Hre.
  destruct (RmRxFiles_loop_all w s compiledFilter dryRun Hsrv catalog
              (tr ++ [EvGetAllFileHashes])%list Hall) as (t & -> & Hreq & Hpr).
  simpl. split; [reflexivity|]. split.
  - rewrite Hreq, requests_app. simpl. now rewrite app_nil_r.
  - rewrite Hpr, prints_app. simpl. now rewrite app_nil_r.
Qed.

Lemma RmRxFiles_removes_matches_in_order_witness :
  requests (snd (RmRxFiles (Fixtures.txt_world Fixtures.mixed Demo.accepts) Demo.session
                   "\.txt$" false []))
  = [bare_request "DELETE" "http://localhost:8080/api/file/1" "t0k3n";
     bare_request "DELETE" "http://localhost:8080/api/file/3" "t0k3n";
     bare_request "DELETE" "http://localhost:8080/api/file/4" "t0k3n"]
  /\
  requests (snd (RmRxFiles (Fixtures.txt_world Fixtures.mixed Demo.accepts) Demo.session
                   "\.txt$" true [])) = []
  /\
  prints (snd (RmRxFiles (Fixtures.txt_world Fixtures.mixed Demo.accepts) Demo.session
                 "\.txt$" true []))
  = prints (snd (RmRxFiles (Fixtures.txt_world Fixtures.mixed Demo.accepts) Demo.session
                   "\.txt$" false [])).
Proof.
  assert (Hsrv : server_answers_200 (Fixtures.txt_world Fixtures.mixed Demo.accepts)
                                    Demo.session).
  { split; [reflexivity|]. split; [reflexivity|]. intros tr req.
    eexists. eexists. repeat split. }
  assert (Hall : all_decrypt (Fixtures.txt_world Fixtures.mixed Demo.accepts) Fixtures.mixed)
    by (repeat constructor).
  destruct (RmRxFiles_removes_matches_in_order
              (Fixtures.txt_world Fixtures.mixed Demo.accepts) Demo.session "\.txt$"
              Fixtures.ends_in_txt Fixtures.mixed false [] Hsrv eq_refl eq_refl Hall)
    as (_ & Hreq & Hpr).
  destruct (RmRxFiles_removes_matches_in_order
              (Fixtures.txt_world Fixtures.mixed Demo.accepts) Demo.session "\.txt$"
              Fixtures.ends_in_txt Fixtures.mixed true [] Hsrv eq_refl eq_refl Hall)
    as (_ & Hreq' & Hpr').
  split; [exact Hreq|]. split; [exact Hreq'|]. now rewrite Hpr, Hpr'.
Defined.

(** X11. The regex-batch prune, when every stored name decrypts, the
    max-version string is the sentinel or a number, and the server accepts
    every ranged delete: the call succeeds; it sends one ranged delete per
    matched file whose resolved maximum is below its current version, in
    catalog order, each carrying [(minVersion, resolved maximum)]; matched
    files at or below the maximum and unmatched files get none; and a dry
    run prints exactly the lines of the real run while sending nothing. *)
Theorem RmRxFileVersions_prunes_matches_in_order
    (w : World) (s : State) (enc : FileDeleteVersionsRequest -> string)
    (pattern : string) (compiledFilter : string -> bool)
    (minVersion : Z) (maxVersionStr : string) (n : Z)
    (catalog : list FileInfo) (dryRun : bool) (tr : Trace) :
  server_accepts_prunes w s enc ->
  AllFileHashes w = Ok catalog ->
  regexp_Compile w pattern = Ok compiledFilter ->
  all_decrypt w catalog ->
  maxVersionStr = "H~"%string \/ strconv_Atoi w maxVersionStr = Ok n ->
  fst (RmRxFileVersions w s pattern minVersion maxVersionStr dryRun tr) = Done (Ok tt) /\
  requests (snd (RmRxFileVersions w s pattern minVersion maxVersionStr dryRun tr))
  = (requests tr
     ++ if dryRun then []
        else map (fun fi =>
                    delete_versions_request s fi
                      (enc (mkFileDeleteVersionsRequest
                              minVersion (max_for maxVersionStr n fi))))
                 (filter (prunable w compiledFilter maxVersionStr n) catalog))%list /\
  prints (snd (RmRxFileVersions w s pattern minVersion maxVersionStr dryRun tr))
  = (prints tr
     ++ map (fun fi => pruned_line (plain_name w fi) minVersion
                                   (max_for maxVersionStr n fi))
            (filter (prunable w compiledFilter maxVersionStr n) catalog))%list.
Proof.
  intros Hsrv Hcat Hre Hall Hmax. unfold RmRxFileVersions, GetAllFileHashes. run.
  rewrite Hcat, Hre.
  destruct (RmRxFileVersions_loop_all w s compiledFilter minVersion maxVersionStr n dryRun
              enc Hsrv Hmax catalog (tr ++ [EvGetAllFileHashes])%list Hall)
    as (t & -> & Hreq & Hpr).
  simpl. split; [reflexivity|]. split.
  - rewrite Hreq, requests_app. simpl. now rewrite app_nil_r.
  - rewrite Hpr, prints_app. simpl. now rewrite app_nil_r.
Qed.

Lemma RmRxFileVersions_prunes_matches_in_order_witness :
  requests (snd (RmRxFileVersions (Fixtures.txt_world Fixtures.mixed Demo.accepts)
                   Demo.session "\.txt$" 0 "2" false []))
  = [delete_versions_request Demo.session (Demo.file 1 "a.txt" 3) (Demo.range_payload 0 2);
     delete_versions_request Demo.session (Demo.file 4 "d.txt" 7) (Demo.range_payload 0 2)]
  /\
  prints (snd (RmRxFileVersions (Fixtures.txt_world Fixtures.mixed Demo.accepts)
                 Demo.session "\.txt$" 0 "2" true []))
  = [pruned_line "a.txt" 0 2; pruned_line "d.txt" 0 2].
Proof.
  assert (Hsrv : server_accepts_prunes (Fixtures.txt_world Fixtures.mixed Demo.accepts)
                                       Demo.session Fixtures.enc).
  { split; [reflexivity|]. split; [reflexivity|]. split; [reflexivity|]. intros tr req.
    eexists. eexists. repeat split. }
  assert (Hall : all_decrypt (Fixtures.txt_world Fixtures.mixed Demo.accepts) Fixtures.mixed)
    by (repeat constructor).
  destruct (RmRxFileVersions_prunes_matches_in_order
              (Fixtures.txt_world Fixtures.mixed Demo.accepts) Demo.session Fixtures.enc
              "\.txt$" Fixtures.ends_in_txt 0 "2" 2 Fixtures.mixed false []
              Hsrv eq_refl eq_refl Hall (or_intror eq_refl)) as (_ & Hreq & _).
  destruct (RmRxFileVersions_prunes_matches_in_order
              (Fixtures.txt_world Fixtures.mixed Demo.accepts) Demo.session Fixtures.enc
              "\.txt$" Fixtures.ends_in_txt 0 "2" 2 Fixtures.mixed true []
              Hsrv eq_refl eq_refl Hall (or_intror eq_refl)) as (_ & _ & Hpr).
  split; [exact Hreq | exact Hpr].
Defined.

(** X12. The batches are not atomic: when a catalog entry fails to decrypt
    after earlier entries were processed, remove-by-regex and the
    regex-batch prune return the decryption error, wrapped, and the trace
    keeps everything done for the earlier entries: requests already sent
    are not undone and the entries after the corrupt one are not
    visited. *)
Theorem batch_stops_at_corrupt_entry
    (w : World) (s : State) (pattern : string) (compiledFilter : string -> bool)
    (pre post : list FileInfo) (bad : FileInfo) (e : string) (dryRun : bool)
    (tr : Trace) :
  AllFileHashes w = Ok (pre ++ bad :: post)%list ->
  regexp_Compile w pattern = Ok compiledFilter ->
  DecryptString w (FileName bad) = Err e ->
  (forall tr1,
      range pre (RmRxFiles_body w s compiledFilter dryRun) (tr ++ [EvGetAllFileHashes])%list
      = (Done Next, tr1) ->
      RmRxFiles w s pattern dryRun tr
      = (Done (Err ("failed to decrypt one of the file names: " ++ e)), tr1))
  /\
  (forall minVersion maxVersionStr tr1,
      range pre (RmRxFileVersions_body w s compiledFilter minVersion maxVersionStr dryRun)
            (tr ++ [EvGetAllFileHashes])%list
      = (Done Next, tr1) ->
      RmRxFileVersions w s pattern minVersion maxVersionStr dryRun tr
      = (Done (Err ("failed to decrypt one of the file names: " ++ e)), tr1)).
Proof.
  intros Hcat Hre Hbad. split.
  - intros tr1 Hpre. unfold RmRxFiles, GetAllFileHashes. run. rewrite Hcat, Hre.
    rewrite range_app, Hpre. erewrite range_return; [reflexivity|].
    rewrite RmRxFiles_body_unfold. now rewrite Hbad.
  - intros minVersion maxVersionStr tr1 Hpre.
    unfold RmRxFileVersions, GetAllFileHashes. run. rewrite Hcat, Hre.
    rewrite range_app, Hpre. erewrite range_return; [reflexivity|].
    rewrite RmRxFileVersions_body_unfold. now rewrite Hbad.
Qed.

Lemma batch_stops_at_corrupt_entry_witness :
  RmRxFiles (Demo.world [Demo.file 1 "a.txt" 3; Demo.corrupt 2; Demo.file 3 "c.txt" 3]
                        Demo.accepts) Demo.session ".*" false []
  = (Done (Err "failed to decrypt one of the file names: cipher: message authentication failed"),
     [EvGetAllFileHashes;
      EvHTTP (bare_request "DELETE" "http://localhost:8080/api/file/1" "t0k3n");
      EvPrintf (removed_line "a.txt")]).
Proof.
  apply (batch_stops_at_corrupt_entry
           (Demo.world [Demo.file 1 "a.txt" 3; Demo.corrupt 2; Demo.file 3 "c.txt" 3]
                       Demo.accepts) Demo.session ".*" (fun _ => true)
           [Demo.file 1 "a.txt" 3] [Demo.file 3 "c.txt" 3] (Demo.corrupt 2)
           "cipher: message authentication failed" false []); reflexivity.
Defined.

(** X13. The max-version string of the regex-batch prune is parsed only
    when a file matches: if no catalog entry matches the pattern, and so
    for the empty catalog, the call succeeds without sending or printing
    anything, whatever the string is; and an invalid pattern is reported as
    an error, after the catalog was fetched, before the string is looked
    at. *)
Theorem max_version_parsed_only_on_a_match
    (w : World) (s : State) (pattern : string) (minVersion : Z)
    (maxVersionStr : string) (dryRun : bool) (catalog : list FileInfo) (tr : Trace) :
  AllFileHashes w = Ok catalog ->
  (forall compiledFilter,
      regexp_Compile w pattern = Ok compiledFilter ->
      Forall (unmatched w compiledFilter) catalog ->
      RmRxFileVersions w s pattern minVersion maxVersionStr dryRun tr
      = (Done (Ok tt), (tr ++ [EvGetAllFileHashes])%list))
  /\
  (forall e,
      regexp_Compile w pattern = Err e ->
      RmRxFileVersions w s pattern minVersion maxVersionStr dryRun tr
      = (Done (Err ("failed to compile the regular expression: " ++ e)),
         (tr ++ [EvGetAllFileHashes])%list)).
Proof.
  intros Hcat. split.
  - intros f Hre Hun. unfold RmRxFileVersions, GetAllFileHashes. run.
    rewrite Hcat, Hre. rewrite <- (app_nil_r catalog), range_skip; [reflexivity|].
    eapply Forall_impl; [|exact Hun]. intros x. apply unmatched_skipped.
  - intros e Hre. unfold RmRxFileVersions, GetAllFileHashes. run.
    now rewrite Hcat, Hre.
Qed.

Lemma max_version_parsed_only_on_a_match_witness :
  RmRxFileVersions
    (Fixtures.txt_world [Demo.file 2 "b.jpg" 5] Demo.accepts) Demo.session
    "\.txt$" 0 "not a number" false []
  = (Done (Ok tt), [EvGetAllFileHashes])
  /\
  RmRxFileVersions (Demo.world Demo.two_files Demo.accepts) Demo.session
    "([a-z" 0 "not a number" false []
  = (Done (Err "failed to compile the regular expression: error parsing regexp"),
     [EvGetAllFileHashes]).
Proof.
  destruct (max_version_parsed_only_on_a_match
              (Fixtures.txt_world [Demo.file 2 "b.jpg" 5] Demo.accepts) Demo.session
              "\.txt$" 0 "not a number" false [Demo.file 2 "b.jpg" 5] [] eq_refl)
    as [Hnone _].
  destruct (max_version_parsed_only_on_a_match
              (Demo.world Demo.two_files Demo.accepts) Demo.session
              "([a-z" 0 "not a number" false Demo.two_files [] eq_refl)
    as [_ Hbad].
  split.
  - apply (Hnone Fixtures.ends_in_txt eq_refl).
    repeat constructor. exists "b.jpg"%string. split; reflexivity.
  - apply Hbad. reflexivity.
Defined.

(** X14. Under the sentinel [H~] a matched file is never skipped, whatever
    its current version number above the least [int]: the resolved maximum
    is the version number minus one, and the dry run prints the line for
    the range up to it. Only at the least [int] does the subtraction wrap
    around to the greatest [int], and the file is skipped. *)
Theorem sentinel_skips_only_at_least_int
    (w : World) (s : State) (compiledFilter : string -> bool) (minVersion : Z)
    (fi : FileInfo) (name : string) (tr : Trace) :
  DecryptString w (FileName fi) = Ok name ->
  compiledFilter name = true ->
  (int_min < VersionNumber (CurrentVersion fi) <= int_max ->
   RmRxFileVersions_body w s compiledFilter minVersion "H~" true fi tr
   = (Done Next,
      (tr ++ [EvPrintf (pruned_line name minVersion
                                    (VersionNumber (CurrentVersion fi) - 1))])%list))
  /\
  (VersionNumber (CurrentVersion fi) = int_min ->
   resolveMaxVersion w "H~" fi tr = (Done int_max, tr) /\
   forall dryRun,
     RmRxFileVersions_body w s compiledFilter minVersion "H~" dryRun fi tr
     = (Done Next, tr)).
Proof.
  intros Hd Hm. split.
  - intros Hv. rewrite RmRxFileVersions_body_unfold, Hd, Hm.
    rewrite resolveMaxVersion_sentinel. cbn [fst].
    assert (Hsub : int_sub (VersionNumber (CurrentVersion fi)) 1
                   = VersionNumber (CurrentVersion fi) - 1).
    { unfold int_sub, int_wrap, int_min, int_max in *.
      rewrite Z.mod_small; lia. }
    rewrite Hsub, geb_false by lia. reflexivity.
  - intros Hv.
    assert (Hmax : resolveMaxVersion w "H~" fi tr = (Done int_max, tr)).
    { rewrite resolveMaxVersion_sentinel, Hv. reflexivity. }
    split; [exact Hmax|]. intros dryRun.
    rewrite RmRxFileVersions_body_unfold, Hd, Hm, Hmax. cbn [fst].
    rewrite Hv. reflexivity.
Qed.

Lemma sentinel_skips_only_at_least_int_witness :
  RmRxFileVersions_body (Demo.world [] Demo.accepts) Demo.session (fun _ => true) 0 "H~"
                        true (Demo.file 1 "a.txt" 1) []
  = (Done Next, [EvPrintf (pruned_line "a.txt" 0 0)])
  /\
  RmRxFileVersions_body (Demo.world [] Demo.accepts) Demo.session (fun _ => true) 0 "H~"
                        false (Demo.file 1 "a.txt" int_min) []
  = (Done Next, []).
Proof.
  split.
  - apply (sentinel_skips_only_at_least_int
             (Demo.world [] Demo.accepts) Demo.session (fun _ => true) 0
             (Demo.file 1 "a.txt" 1) "a.txt" [] eq_refl eq_refl).
    unfold int_min, int_max. simpl. lia.
  - apply (sentinel_skips_only_at_least_int
             (Demo.world [] Demo.accepts) Demo.session (fun _ => true) 0
             (Demo.file 1 "a.txt" int_min) "a.txt" [] eq_refl eq_refl).
    reflexivity.
Defined.

(* ================================================================== *)
(** ** More on the chunk stream *)

Section ChunkInvariant.

Import ChunkStream ChunkSpec.
Import Stdlib.Strings.Byte.

Local Open Scope nat_scope.
Local Open Scope list_scope.

(** A read always takes the next bytes of the file, at most [C] of them. *)
Lemma io_ReadAtLeast_shape (f : File) (C : nat) :
  exists err,
    io_ReadAtLeast f C
    = (firstn C (bytes f), err, mkFile (skipn C (bytes f)) (fault f)).
Proof.
  unfold io_ReadAtLeast.
  destruct (List.length (firstn C (bytes f)) <? C); [|eauto].
  destruct (fault f); [eauto|].
  destruct (0 <? List.length (firstn C (bytes f))); eauto.
Qed.

Variable S : Type.
Variable eachFunc : eachChunkFunc S.
Variable filename : string.
Variable C : nat.
Variable localChunkCount : Z.

Lemma handed_nil todo i content : handed C todo i content [].
Proof.
  repeat split; simpl; [lia | now exists content | constructor].
Qed.

Lemma handed_cons todo i content new :
  handed C todo (i + 1)%Z (skipn C content) new ->
  handed C (Datatypes.S todo) i content ((i, firstn C content) :: new).
Proof.
  intros (Hnum & Hlen & [rest Hrest] & Hall). repeat split.
  - simpl. rewrite Hnum, <- seq_shift, map_map. f_equal; [f_equal; lia|].
    apply map_ext. intros k. lia.
  - simpl. lia.
  - exists rest. simpl. rewrite <- app_assoc, <- Hrest. symmetry. apply firstn_skipn.
  - constructor; [|exact Hall]. simpl. rewrite length_firstn. apply Nat.le_min_l.
Qed.

Lemma chunkLoop_handed (todo : nat) :
  forall (i : Z) (f : File) (st : S) (seen : list Chunk),
  exists new,
    run_chunks (chunkLoop todo i C filename localChunkCount eachFunc f st seen)
    = seen ++ new /\
    handed C todo i (bytes f) new.
Proof.
  induction todo as [|todo IH]; intros i f st seen.
  - exists []. simpl. rewrite app_nil_r. split; [reflexivity | apply handed_nil].
  - assert (Hstop : exists new, seen = seen ++ new /\
                                handed C (Datatypes.S todo) i (bytes f) new).
    { exists []. rewrite app_nil_r. split; [reflexivity | apply handed_nil]. }
    assert (Hone : exists new, seen ++ [(i, firstn C (bytes f))] = seen ++ new /\
                               handed C (Datatypes.S todo) i (bytes f) new).
    { exists [(i, firstn C (bytes f))]. split; [reflexivity|].
      apply handed_cons, handed_nil. }
    assert (Hmore : forall st', exists new,
               run_chunks (chunkLoop todo (i + 1)%Z C filename localChunkCount eachFunc
                             (mkFile (skipn C (bytes f)) (fault f)) st'
                             (seen ++ [(i, firstn C (bytes f))]))
               = seen ++ new /\
               handed C (Datatypes.S todo) i (bytes f) new).
    { intros st'.
      destruct (IH (i + 1)%Z (mkFile (skipn C (bytes f)) (fault f)) st'
                   (seen ++ [(i, firstn C (bytes f))])) as (new & Hrun & Hh).
      exists ((i, firstn C (bytes f)) :: new). split.
      - rewrite Hrun, <- app_assoc. reflexivity.
      - now apply handed_cons. }
    simpl. destruct (io_ReadAtLeast_shape f C) as [err ->].
    destruct (eachFunc i (firstn C (bytes f)) st) as [[c oe] st'].
    destruct err as [[| |msg]|]; try exact Hstop;
      try destruct (negb (i + 1 =? localChunkCount)%Z); try exact Hstop;
      destruct oe; try exact Hone; destruct c; simpl; try exact Hone; apply Hmore.
Qed.

End ChunkInvariant.

(** X15. Whatever the visitor does and however the file ends, off the
    panic on a negative chunk size, the chunks handed to the visitor are
    numbered 0, 1, 2, ... without gap, there are at most
    [localChunkCount] of them, each has at most [chunkSize] bytes, and put
    end to end they are a prefix of the file: the visitor never sees a
    byte that is not in the file, nor a byte twice or out of order. *)
Theorem forEachChunk_hands_a_prefix
    (S : Type) (os_Open : string -> result ChunkStream.File)
    (content : list Byte.byte) (fault : option string)
    (chunkSize : Z) (filename : string) (localChunkCount : Z)
    (eachFunc : ChunkStream.eachChunkFunc S) (st : S) :
  0 <= chunkSize ->
  os_Open filename = Ok (ChunkStream.mkFile content fault) ->
  exists run,
    ChunkStream.forEachChunk os_Open chunkSize filename localChunkCount eachFunc st
    = Done run /\
    map fst (ChunkStream.run_chunks run)
    = map Z.of_nat (seq 0 (List.length (ChunkStream.run_chunks run))) /\
    Z.of_nat (List.length (ChunkStream.run_chunks run)) <= Z.max 0 localChunkCount /\
    (exists rest,
        content = (List.concat (map snd (ChunkStream.run_chunks run)) ++ rest)%list) /\
    Forall (fun ch => Z.of_nat (List.length (snd ch)) <= chunkSize)
           (ChunkStream.run_chunks run).
Proof.
  intros Hsize Hopen. unfold ChunkStream.forEachChunk.
  destruct (Z.ltb_spec chunkSize 0); [lia|]. rewrite Hopen.
  eexists. split; [reflexivity|].
  destruct (chunkLoop_handed S eachFunc filename (Z.to_nat chunkSize) localChunkCount
              (Z.to_nat localChunkCount) 0 (ChunkStream.mkFile content fault) st [])
    as (new & -> & Hnum & Hlen & Hpre & Hall).
  simpl. split; [|split; [|split]].
  - rewrite Hnum. apply map_ext. intros k. lia.
  - lia.
  - exact Hpre.
  - eapply Forall_impl; [|exact Hall]. intros ch Hch. simpl in Hch. lia.
Qed.

Lemma forEachChunk_hands_a_prefix_witness :
  exists run,
    ChunkStream.forEachChunk (Fixtures.faulty_file "f" Fixtures.five) 2 "f" 9
                             (Fixtures.stop_at 1) 0%nat = Done run /\
    map fst (ChunkStream.run_chunks run)
    = map Z.of_nat (seq 0 (List.length (ChunkStream.run_chunks run))) /\
    exists rest,
      Fixtures.five = (List.concat (map snd (ChunkStream.run_chunks run)) ++ rest)%list.
Proof.
  destruct (forEachChunk_hands_a_prefix nat (Fixtures.faulty_file "f" Fixtures.five)
              Fixtures.five (Some "input/output error"%string) 2 "f" 9
              (Fixtures.stop_at 1) 0%nat) as (run & Hrun & Hnum & _ & Hpre & _).
  - lia.
  - reflexivity.
  - exists run. split; [exact Hrun|]. split; [exact Hnum | exact Hpre].
Defined.

Section ChunkCases.

Import ChunkStream ChunkSpec.
Import Stdlib.Strings.Byte.

Local Open Scope nat_scope.
Local Open Scope list_scope.

Variable S : Type.
Variable eachFunc : eachChunkFunc S.
Variable filename : string.
Variable C : nat.
Variable localChunkCount : Z.

(** With no more iterations than the file has full chunks, every read is
    full and the loop never looks at the end of the file. *)
Lemma chunkLoop_under :
  always_continues eachFunc ->
  forall (todo : nat) (i : Z) (f : File) (st : S) (seen : list Chunk),
    todo * C <= List.length (bytes f) ->
    chunkLoop todo i C filename localChunkCount eachFunc f st seen
    = mkRun (Ok tt) (visit_all eachFunc (chunks_of todo i C (bytes f)) st)
            (seen ++ chunks_of todo i C (bytes f)).
Proof.
  intros Hcont. induction todo as [|todo IH]; intros i f st seen Hlen.
  - simpl. now rewrite app_nil_r.
  - rewrite (chunkLoop_full S eachFunc filename C localChunkCount Hcont)
      by (simpl in Hlen; lia).
    rewrite IH.
    + simpl chunks_of. simpl visit_all. now rewrite <- app_assoc.
    + simpl bytes. rewrite length_skipn. simpl in Hlen. lia.
Qed.

(** One iteration on a full chunk, for any visitor. *)
Lemma chunkLoop_step_full (todo : nat) (i : Z) (f : File) (st : S) (seen : list Chunk) :
  C <= List.length (bytes f) ->
  chunkLoop (Datatypes.S todo) i C filename localChunkCount eachFunc f st seen
  = match eachFunc i (firstn C (bytes f)) st with
    | (_, Some e, st') => mkRun (Err e) st' (seen ++ [(i, firstn C (bytes f))])
    | (contLoop, None, st') =>
        if negb contLoop
        then mkRun (Ok tt) st' (seen ++ [(i, firstn C (bytes f))])
        else chunkLoop todo (i + 1)%Z C filename localChunkCount eachFunc
                       (mkFile (skipn C (bytes f)) (fault f)) st'
                       (seen ++ [(i, firstn C (bytes f))])
    end.
Proof. intros H. simpl. now rewrite io_ReadAtLeast_full by exact H. Qed.

(** A visitor that continues below chunk [k] and gives a verdict other
    than "continue" at chunk [k]. *)
Lemma chunkLoop_until (k : Z) (contLoop : bool) (err : option string) :
  (forall i b st, (i < k)%Z -> fst (eachFunc i b st) = (true, None)) ->
  (forall b st, fst (eachFunc k b st) = (contLoop, err)) ->
  contLoop = false \/ err <> None ->
  forall (d : nat) (todo : nat) (i : Z) (f : File) (st : S) (seen : list Chunk),
    k = (i + Z.of_nat d)%Z ->
    d < todo ->
    (d + 1) * C <= List.length (bytes f) ->
    run_result (chunkLoop todo i C filename localChunkCount eachFunc f st seen)
    = match err with Some e => Err e | None => Ok tt end /\
    run_chunks (chunkLoop todo i C filename localChunkCount eachFunc f st seen)
    = seen ++ chunks_of (d + 1) i C (bytes f).
Proof.
  intros Hbelow Hat Hverdict. induction d as [|d IH]; intros todo i f st seen Hk Hd Hlen;
    (destruct todo as [|todo]; [lia|]); rewrite chunkLoop_step_full by (simpl in Hlen; lia).
  - assert (i = k) by lia. subst i.
    pose proof (Hat (firstn C (bytes f)) st) as Hv.
    destruct (eachFunc k (firstn C (bytes f)) st) as [[c oe] st']. simpl in Hv.
    injection Hv as -> ->. destruct err as [e|]; [now split|].
    destruct Hverdict as [-> | H]; [now split | congruence].
  - pose proof (Hbelow i (firstn C (bytes f)) st ltac:(lia)) as Hv.
    destruct (eachFunc i (firstn C (bytes f)) st) as [[c oe] st']. simpl in Hv.
    injection Hv as -> ->. cbv [negb].
    destruct (IH todo (i + 1)%Z (mkFile (skipn C (bytes f)) (fault f)) st'
                 (seen ++ [(i, firstn C (bytes f))])) as [Hres Hch].
    + lia.
    + lia.
    + simpl bytes. rewrite length_skipn. simpl in Hlen. lia.
    + split; [exact Hres|]. rewrite Hch. simpl chunks_of. now rewrite <- app_assoc.
Qed.

(** A file that ends in a read fault: the loop fails where the fault is
    met, last expected chunk or not. *)
Lemma chunkLoop_fault (msg : string) (q r : nat) :
  always_continues eachFunc ->
  r < C ->
  forall (todo : nat) (i : Z) (f : File) (st : S) (seen : list Chunk),
    fault f = Some msg ->
    List.length (bytes f) = q * C + r ->
    q < todo ->
    chunkLoop todo i C filename localChunkCount eachFunc f st seen
    = mkRun (Err (read_error_msg r filename (io_Fault msg)))
            (visit_all eachFunc (chunks_of q i C (bytes f)) st)
            (seen ++ chunks_of q i C (bytes f)).
Proof.
  intros Hcont Hr. induction q as [|q IH]; intros todo i f st seen Hf Hlen Hmore;
    (destruct todo as [|todo]; [lia|]).
  - simpl chunks_of. simpl visit_all. rewrite app_nil_r. simpl in Hlen.
    simpl. unfold io_ReadAtLeast. rewrite length_firstn, Nat.min_r by lia.
    destruct (Nat.ltb_spec (List.length (bytes f)) C); [|lia].
    rewrite Hf. simpl. rewrite length_firstn, Nat.min_r by lia. now rewrite Hlen.
  - rewrite (chunkLoop_full S eachFunc filename C localChunkCount Hcont)
      by (rewrite Hlen; simpl; lia).
    rewrite (IH todo).
    + simpl chunks_of. simpl visit_all. now rewrite <- app_assoc.
    + exact Hf.
    + simpl bytes. rewrite length_skipn, Hlen. simpl. lia.
    + lia.
Qed.

End ChunkCases.

(** X16. When the expected chunk count times the chunk size does not
    exceed the file size (and so for a chunk size of 0), the stream ends
    without error after handing exactly [localChunkCount] chunks of
    [chunkSize] bytes, the first [localChunkCount * chunkSize] bytes of
    the file; what follows in the file is never read, so a file longer
    than expected, or one that ends in a read fault later on, goes
    unnoticed. *)
Theorem forEachChunk_stops_at_expected_count
    (S : Type) (os_Open : string -> result ChunkStream.File)
    (content : list Byte.byte) (fault : option string)
    (chunkSize : Z) (filename : string) (localChunkCount : Z)
    (eachFunc : ChunkStream.eachChunkFunc S) (st : S) :
  0 <= chunkSize ->
  0 <= localChunkCount ->
  localChunkCount * chunkSize <= Z.of_nat (List.length content) ->
  os_Open filename = Ok (ChunkStream.mkFile content fault) ->
  ChunkSpec.always_continues eachFunc ->
  ChunkStream.forEachChunk os_Open chunkSize filename localChunkCount eachFunc st
  = Done (ChunkStream.mkRun
            (Ok tt)
            (ChunkSpec.visit_all eachFunc
               (ChunkSpec.chunks_of (Z.to_nat localChunkCount) 0 (Z.to_nat chunkSize)
                                    content) st)
            (ChunkSpec.chunks_of (Z.to_nat localChunkCount) 0 (Z.to_nat chunkSize)
                                 content))
  /\
  List.concat (map snd (ChunkSpec.chunks_of (Z.to_nat localChunkCount) 0
                                            (Z.to_nat chunkSize) content))
  = firstn (Z.to_nat (localChunkCount * chunkSize)) content.
Proof.
  intros Hsize Hcount Hfit Hopen Hcont. split.
  - unfold ChunkStream.forEachChunk.
    destruct (Z.ltb_spec chunkSize 0); [lia|]. rewrite Hopen.
    rewrite (chunkLoop_under S eachFunc filename (Z.to_nat chunkSize) localChunkCount Hcont);
      [reflexivity|].
    simpl. nia.
  - rewrite chunks_of_concat. f_equal. rewrite Z2Nat.inj_mul by lia. reflexivity.
Qed.

Lemma forEachChunk_stops_at_expected_count_witness :
  ChunkStream.forEachChunk (Fixtures.faulty_file "f" Fixtures.five) 2 "f" 1
                           ChunkStream.counting 0%nat
  = Done (ChunkStream.mkRun (Ok tt) 1%nat [(0, [Byte.x01; Byte.x02])])
  /\
  ChunkStream.forEachChunk (ChunkStream.one_file "f" Fixtures.five) 0 "f" 2
                           ChunkStream.counting 0%nat
  = Done (ChunkStream.mkRun (Ok tt) 2%nat [(0, []); (1, [])]).
Proof.
  split.
  - apply (forEachChunk_stops_at_expected_count nat
             (Fixtures.faulty_file "f" Fixtures.five) Fixtures.five
             (Some "input/output error"%string) 2 "f" 1 ChunkStream.counting 0%nat);
      try reflexivity; try (simpl; lia).
    intros i b n. reflexivity.
  - apply (forEachChunk_stops_at_expected_count nat
             (ChunkStream.one_file "f" Fixtures.five) Fixtures.five None
             0 "f" 2 ChunkStream.counting 0%nat);
      try reflexivity; try (simpl; lia).
    intros i b n. reflexivity.
Defined.

(** X17. A visitor that continues on the chunks before chunk [k] and at
    chunk [k] asks to stop or returns an error ends the iteration there,
    provided chunk [k] is expected and lies whole in the file: the chunks
    0 to [k] have been handed over and nothing after them; a stop ends the
    stream without error, and a visitor error is returned as it is. *)
Theorem forEachChunk_ends_at_visitor_verdict
    (S : Type) (os_Open : string -> result ChunkStream.File)
    (content : list Byte.byte) (fault : option string)
    (chunkSize : Z) (filename : string) (localChunkCount k : Z)
    (eachFunc : ChunkStream.eachChunkFunc S) (st : S)
    (contLoop : bool) (err : option string) :
  0 <= chunkSize ->
  0 <= k < localChunkCount ->
  (k + 1) * chunkSize <= Z.of_nat (List.length content) ->
  os_Open filename = Ok (ChunkStream.mkFile content fault) ->
  (forall i b st', i < k -> fst (eachFunc i b st') = (true, None)) ->
  (forall b st', fst (eachFunc k b st') = (contLoop, err)) ->
  contLoop = false \/ err <> None ->
  exists run,
    ChunkStream.forEachChunk os_Open chunkSize filename localChunkCount eachFunc st
    = Done run /\
    ChunkStream.run_result run = match err with Some e => Err e | None => Ok tt end /\
    ChunkStream.run_chunks run
    = ChunkSpec.chunks_of (Z.to_nat k + 1) 0 (Z.to_nat chunkSize) content.
Proof.
  intros Hsize Hk Hfit Hopen Hbelow Hat Hverdict. unfold ChunkStream.forEachChunk.
  destruct (Z.ltb_spec chunkSize 0); [lia|]. rewrite Hopen.
  eexists. split; [reflexivity|].
  destruct (chunkLoop_until S eachFunc filename (Z.to_nat chunkSize) localChunkCount
              k contLoop err Hbelow Hat Hverdict (Z.to_nat k) (Z.to_nat localChunkCount)
              0 (ChunkStream.mkFile content fault) st []) as [Hres Hch].
  - lia.
  - lia.
  - simpl. nia.
  - split; [exact Hres | exact Hch].
Qed.

Lemma forEachChunk_ends_at_visitor_verdict_witness :
  (exists run,
      ChunkStream.forEachChunk (ChunkStream.one_file "f" Fixtures.five) 2 "f" 3
                               (Fixtures.stop_at 1) 0%nat = Done run /\
      ChunkStream.run_result run = Ok tt /\
      ChunkStream.run_chunks run = [(0, [Byte.x01; Byte.x02]); (1, [Byte.x03; Byte.x04])])
  /\
  (exists run,
      ChunkStream.forEachChunk (ChunkStream.one_file "f" Fixtures.five) 2 "f" 3
                               (Fixtures.fail_at 1) 0%nat = Done run /\
      ChunkStream.run_result run = Err "disk full" /\
      ChunkStream.run_chunks run = [(0, [Byte.x01; Byte.x02]); (1, [Byte.x03; Byte.x04])]).
Proof.
  split.
  - apply (forEachChunk_ends_at_visitor_verdict nat
             (ChunkStream.one_file "f" Fixtures.five) Fixtures.five None 2 "f" 3 1
             (Fixtures.stop_at 1) 0%nat false None).
    + lia.
    + lia.
    + simpl. lia.
    + reflexivity.
    + intros i b n Hi. unfold Fixtures.stop_at. simpl.
      destruct (Z.eqb_spec i 1); [lia | reflexivity].
    + intros b n. reflexivity.
    + now left.
  - apply (forEachChunk_ends_at_visitor_verdict nat
             (ChunkStream.one_file "f" Fixtures.five) Fixtures.five None 2 "f" 3 1
             (Fixtures.fail_at 1) 0%nat true (Some "disk full"%string)).
    + lia.
    + lia.
    + simpl. lia.
    + reflexivity.
    + intros i b n Hi. unfold Fixtures.fail_at. simpl.
      destruct (Z.eqb_spec i 1); [lia | reflexivity].
    + intros b n. reflexivity.
    + right. discriminate.
Defined.

(** X18. On a file that ends in a read fault, with a chunk size above 0, a
    visitor that always continues and more chunks expected than the file
    has full ones, the stream hands over the full chunks and then fails
    with the generic read error, which tells the number of bytes read and
    the fault; this is so even when the chunk is the last expected one,
    where a clean end of file would have been accepted. *)
Theorem forEachChunk_read_fault
    (S : Type) (os_Open : string -> result ChunkStream.File)
    (content : list Byte.byte) (msg : string)
    (chunkSize : Z) (filename : string) (localChunkCount : Z)
    (eachFunc : ChunkStream.eachChunkFunc S) (st : S) :
  0 < chunkSize ->
  Z.of_nat (List.length content) / chunkSize < localChunkCount ->
  os_Open filename = Ok (ChunkStream.mkFile content (Some msg)) ->
  ChunkSpec.always_continues eachFunc ->
  ChunkStream.forEachChunk os_Open chunkSize filename localChunkCount eachFunc st
  = Done (ChunkStream.mkRun
            (Err (ChunkStream.read_error_msg
                    (Z.to_nat (Z.of_nat (List.length content) mod chunkSize))
                    filename (ChunkStream.io_Fault msg)))
            (ChunkSpec.visit_all eachFunc
               (ChunkSpec.chunks_of (Z.to_nat (Z.of_nat (List.length content) / chunkSize))
                                    0 (Z.to_nat chunkSize) content) st)
            (ChunkSpec.chunks_of (Z.to_nat (Z.of_nat (List.length content) / chunkSize))
                                 0 (Z.to_nat chunkSize) content)).
Proof.
  intros Hpos Hmore Hopen Hcont.
  set (C := Z.to_nat chunkSize).
  assert (HC : (0 < C)%nat) by (unfold C; lia).
  assert (HCz : chunkSize = Z.of_nat C) by (unfold C; lia).
  destruct (length_split (List.length content) C HC) as [Hlen Hr].
  set (q := (List.length content / C)%nat) in *.
  set (r := (List.length content mod C)%nat) in *.
  assert (Hmod : Z.to_nat (Z.of_nat (List.length content) mod chunkSize) = r).
  { unfold r. now rewrite HCz, <- Nat2Z.inj_mod, Nat2Z.id. }
  assert (Hdiv : Z.to_nat (Z.of_nat (List.length content) / chunkSize) = q).
  { unfold q. now rewrite HCz, <- Nat2Z.inj_div, Nat2Z.id. }
  unfold ChunkStream.forEachChunk.
  destruct (Z.ltb_spec chunkSize 0); [lia|].
  rewrite Hopen, Hmod, Hdiv. fold C.
  assert (Hq : (q < Z.to_nat localChunkCount)%nat).
  { pose proof (Z.div_pos (Z.of_nat (List.length content)) chunkSize
                          (Nat2Z.is_nonneg _) Hpos). lia. }
  rewrite (chunkLoop_fault S eachFunc filename C localChunkCount msg q r Hcont Hr);
    [reflexivity | reflexivity | exact Hlen | exact Hq].
Qed.

Lemma forEachChunk_read_fault_witness :
  ChunkStream.forEachChunk (Fixtures.faulty_file "f" Fixtures.five) 2 "f" 3
                           ChunkStream.counting 0%nat
  = Done (ChunkStream.mkRun
            (Err "an error occured while reading 1 bytes from the file f: input/output error")
            2%nat
            [(0, [Byte.x01; Byte.x02]); (1, [Byte.x03; Byte.x04])]).
Proof.
  apply (forEachChunk_read_fault nat (Fixtures.faulty_file "f" Fixtures.five)
           Fixtures.five "input/output error" 2 "f" 3 ChunkStream.counting 0%nat).
  - lia.
  - reflexivity.
  - reflexivity.
  - intros i b n. reflexivity.
Defined.

(* ================================================================== *)
(** ** Authenticate *)

Section LoginFacts.

Variable w : World.
Variable client_PostForm : string -> string -> string -> DoResult.
Variable json_Unmarshal_UserLogin : string -> result UserLoginResponse.

(** The client depends on the TLS settings only. *)
Lemma getHTTPClient_same_tls (s s' : State) :
  TLSCrt s' = TLSCrt s -> TLSKey s' = TLSKey s ->
  getHTTPClient w s' = getHTTPClient w s.
Proof. intros Hc Hk. unfold getHTTPClient. now rewrite Hc, Hk. Qed.

(** A login that goes through. *)
Lemma Authenticate_accepted l hostURI username password resp body userLogin :
  getHTTPClient w (login_State l) = Ok tt ->
  client_PostForm (login_target hostURI) username password = DoOk resp ->
  StatusCode resp = 200 ->
  resp_Body resp = Ok body ->
  json_Unmarshal_UserLogin body = Ok userLogin ->
  Authenticate w client_PostForm json_Unmarshal_UserLogin l hostURI username password
  = (Ok tt,
     mkLogin (mkState hostURI (Token userLogin)
                      (TLSCrt (login_State l)) (TLSKey (login_State l)))
             (login_CryptoHash userLogin) (Capabilities userLogin)).
Proof.
  intros Hc Hdo Hcode Hb Hu. unfold Authenticate.
  now rewrite Hc, Hdo, Hb, Hcode, Hu.
Qed.

End LoginFacts.

(** X19. [Authenticate] changes the command state only when the login
    succeeds: every failure (client construction, transport, unreadable
    body, a status code other than 200, a malformed answer) returns an
    error and leaves the state exactly as it was; a success comes only
    from a 200 answer that decodes, and then the host and the token,
    crypto hash and capabilities of the answer are stored, and the TLS
    settings are kept. *)
Theorem Authenticate_updates_state_only_on_success
    (w : World) (client_PostForm : string -> string -> string -> DoResult)
    (json_Unmarshal_UserLogin : string -> result UserLoginResponse)
    (l : Login) (hostURI username password : string) :
  (forall e,
      fst (Authenticate w client_PostForm json_Unmarshal_UserLogin l
                        hostURI username password) = Err e ->
      snd (Authenticate w client_PostForm json_Unmarshal_UserLogin l
                        hostURI username password) = l)
  /\
  (fst (Authenticate w client_PostForm json_Unmarshal_UserLogin l
                     hostURI username password) = Ok tt ->
   exists resp body userLogin,
     client_PostForm (login_target hostURI) username password = DoOk resp /\
     StatusCode resp = 200 /\ resp_Body resp = Ok body /\
     json_Unmarshal_UserLogin body = Ok userLogin /\
     snd (Authenticate w client_PostForm json_Unmarshal_UserLogin l
                       hostURI username password)
     = mkLogin (mkState hostURI (Token userLogin)
                        (TLSCrt (login_State l)) (TLSKey (login_State l)))
               (login_CryptoHash userLogin) (Capabilities userLogin)).
Proof.
  unfold Authenticate.
  destruct (getHTTPClient w (login_State l)); [|split; [reflexivity | discriminate]].
  destruct (client_PostForm (login_target hostURI) username password)
    as [resp | [resp|] err]; try (split; [reflexivity | discriminate]).
  destruct (resp_Body resp) as [body|e0] eqn:Hb; [|split; [reflexivity | discriminate]].
  destruct (StatusCode resp =? 200) eqn:Hcode; cbv [negb];
    [|split; [reflexivity | discriminate]].
  destruct (json_Unmarshal_UserLogin body) as [ul|e0] eqn:Hu;
    [|split; [reflexivity | discriminate]].
  split; [discriminate|]. intros _. exists resp, body, ul.
  apply Z.eqb_eq in Hcode. now repeat split.
Qed.

Lemma Authenticate_updates_state_only_on_success_witness :
  snd (Authenticate (Demo.world [] Demo.accepts) Fixtures.login_server
                    Fixtures.unmarshal_login Fixtures.logged_out
                    "https://vault.example" "ada" "wrong") = Fixtures.logged_out
  /\
  snd (Authenticate (Demo.world [] Demo.accepts) Fixtures.login_server
                    Fixtures.unmarshal_login Fixtures.logged_out
                    "https://vault.example" "ada" "s3cret")
  = mkLogin (mkState "https://vault.example" "jwt-ada" "" "") "hash-ada" "caps".
Proof.
  split.
  - destruct (Authenticate_updates_state_only_on_success
                (Demo.world [] Demo.accepts) Fixtures.login_server
                Fixtures.unmarshal_login Fixtures.logged_out
                "https://vault.example" "ada" "wrong") as [Hfail _].
    eapply Hfail. reflexivity.
  - destruct (Authenticate_updates_state_only_on_success
                (Demo.world [] Demo.accepts) Fixtures.login_server
                Fixtures.unmarshal_login Fixtures.logged_out
                "https://vault.example" "ada" "s3cret") as [_ Hok].
    destruct (Hok eq_refl) as (resp & body & ul & Hdo & _ & Hb & Hu & Hst).
    rewrite Hst. injection Hdo as <-. injection Hb as <-. injection Hu as <-.
    reflexivity.
Defined.

(** X20. When the login request fails in transport, [Authenticate] returns
    an error that names the login URL and carries the transport error,
    whether or not a response came with the failure, and it leaves the
    state as it was: the missing response is checked for before its status
    is read. *)
Theorem Authenticate_transport_failure
    (w : World) (client_PostForm : string -> string -> string -> DoResult)
    (json_Unmarshal_UserLogin : string -> result UserLoginResponse)
    (l : Login) (hostURI username password : string)
    (resp : option Response) (err : string) :
  getHTTPClient w (login_State l) = Ok tt ->
  client_PostForm (login_target hostURI) username password = DoErr resp err ->
  exists e,
    Authenticate w client_PostForm json_Unmarshal_UserLogin l hostURI username password
    = (Err e, l) /\
    Contains (login_target hostURI) e /\ Contains err e /\
    (forall r, resp = Some r -> Contains (Status r) e).
Proof.
  intros Hc Hdo. unfold Authenticate. rewrite Hc, Hdo.
  destruct resp as [r|]; eexists; (split; [reflexivity|]);
    (split; [|split]); auto 12 with contains.
  - intros r' [= <-]. auto 12 with contains.
  - intros r' H. discriminate.
Qed.

Lemma Authenticate_transport_failure_witness :
  Authenticate (Demo.world [] Demo.accepts) Fixtures.no_network Fixtures.unmarshal_login
               Fixtures.logged_out "https://vault.example" "ada" "s3cret"
  = (Err ("Failed to make the HTTP POST request to https://vault.example/api/users/login: "
          ++ "dial tcp: connection refused"),
     Fixtures.logged_out).
Proof.
  destruct (Authenticate_transport_failure
              (Demo.world [] Demo.accepts) Fixtures.no_network Fixtures.unmarshal_login
              Fixtures.logged_out "https://vault.example" "ada" "s3cret"
              None "dial tcp: connection refused" eq_refl eq_refl) as (e & He & _).
  rewrite He. f_equal. injection He as <-. reflexivity.
Defined.

(** X21. After a successful login, the requests of the session go to the
    host that was logged into and carry the token of the login answer:
    remove-by-id then sends one DELETE to [<host>/api/file/<id>] with the
    header [Authorization: Bearer <token>]. *)
Theorem login_then_RmFileByID
    (w : World) (client_PostForm : string -> string -> string -> DoResult)
    (json_Unmarshal_UserLogin : string -> result UserLoginResponse)
    (l : Login) (hostURI username password : string)
    (resp : Response) (body : string) (userLogin : UserLoginResponse)
    (fileID : Z) (tr : Trace) :
  getHTTPClient w (login_State l) = Ok tt ->
  (forall method target, http_NewRequest w method target = true) ->
  client_PostForm (login_target hostURI) username password = DoOk resp ->
  StatusCode resp = 200 ->
  resp_Body resp = Ok body ->
  json_Unmarshal_UserLogin body = Ok userLogin ->
  requests (snd (RmFileByID w
                   (login_State (snd (Authenticate w client_PostForm
                                        json_Unmarshal_UserLogin l
                                        hostURI username password)))
                   fileID tr))
  = (requests tr
     ++ [bare_request "DELETE" (hostURI ++ "/api/file/" ++ fmt_d fileID)
                      (Token userLogin)])%list.
Proof.
  intros Hc Hn Hdo Hcode Hb Hu.
  rewrite (Authenticate_accepted w _ _ l hostURI username password resp body userLogin
             Hc Hdo Hcode Hb Hu).
  cbn [snd login_State]. unfold RmFileByID, Printf. run.
  rewrite RunAuthRequest_unfold. cbn [serializes negb].
  rewrite (getHTTPClient_same_tls w (login_State l)) by reflexivity.
  rewrite Hc, Hn. cbn [request_for]. unfold file_target. cbn [HostURI AuthToken].
  destruct (answer _ _ _) as [[b|e]|m|m]; simpl;
    rewrite ?requests_app; simpl; rewrite ?app_nil_r; reflexivity.
Qed.

Lemma login_then_RmFileByID_witness :
  requests (snd (RmFileByID (Demo.world [] Demo.accepts)
                   (login_State (snd (Authenticate (Demo.world [] Demo.accepts)
                                        Fixtures.login_server Fixtures.unmarshal_login
                                        Fixtures.logged_out
                                        "https://vault.example" "ada" "s3cret")))
                   42 []))
  = [bare_request "DELETE" "https://vault.example/api/file/42" "jwt-ada"].
Proof.
  apply (login_then_RmFileByID
           (Demo.world [] Demo.accepts) Fixtures.login_server Fixtures.unmarshal_login
           Fixtures.logged_out "https://vault.example" "ada" "s3cret"
           (mkResponse "200 OK" 200 (Ok "ada-session")) "ada-session"
           (mkUserLoginResponse "jwt-ada" "hash-ada" "caps") 42 []); reflexivity.
Defined.

(* ================================================================== *)
(** ** Listings and propagation *)

(** X22. Listing the versions of a file by name, once the name is resolved
    and the server answers 200: one GET without a body goes to
    [<host>/api/file/<id>/versions] for the resolved id, and the call
    returns exactly what the answer decodes to, or the decoding error,
    wrapped. *)
Theorem GetFileVersions_returns_the_decoded_answer
    (w : World) (s : State) (filename : string) (fi : FileInfo)
    (resp : Response) (body : string) (tr tr1 : Trace) :
  GetFileInfoByFilename w filename tr = (Done (Ok fi), tr1) ->
  getHTTPClient w s = Ok tt ->
  http_NewRequest w "GET" (versions_target s (FileID fi)) = true ->
  client_Do w tr1 (bare_request "GET" (versions_target s (FileID fi)) (AuthToken s))
  = DoOk resp ->
  StatusCode resp = 200 ->
  resp_Body resp = Ok body ->
  GetFileVersions w s filename tr
  = (Done (match json_Unmarshal_Versions w body with
           | Ok versions => Ok versions
           | Err e => Err ("Failed to get the file versions: " ++ e)
           end),
     (tr1 ++ [EvHTTP (bare_request "GET" (versions_target s (FileID fi)) (AuthToken s))])%list).
Proof.
  intros Hfi Hc Hn Hdo Hcode Hb. unfold GetFileVersions. run. rewrite Hfi.
  rewrite (RunAuthRequest_NilBody_answered w s _ _ _ resp body tr1 Hc Hn Hdo Hb), Hcode.
  simpl. destruct (json_Unmarshal_Versions w body); reflexivity.
Qed.

Lemma GetFileVersions_returns_the_decoded_answer_witness :
  GetFileVersions (Demo.world Demo.two_files Demo.accepts) Demo.session "b.txt" []
  = (Done (Ok []),
     [EvGetAllFileHashes;
      EvHTTP (bare_request "GET" "http://localhost:8080/api/file/2/versions" "t0k3n")]).
Proof.
  apply (GetFileVersions_returns_the_decoded_answer
           (Demo.world Demo.two_files Demo.accepts) Demo.session "b.txt"
           (Demo.file 2 "b.txt" 3) (mkResponse "200 OK" 200 (Ok Demo.status_true))
           Demo.status_true [] [EvGetAllFileHashes]); reflexivity.
Defined.

(** X23. The missing-chunk lookup by id, when the server answers: one GET
    without a body goes to [<host>/api/file/<id>]; on status code 200 the
    call returns the chunk list the answer decodes to, or the decoding
    error, wrapped; on any other status code it returns an error that
    carries the status text and the payload. *)
Theorem GetMissingChunksForFile_returns_the_decoded_answer
    (w : World) (s : State) (fileID : Z) (resp : Response) (body : string) (tr : Trace) :
  getHTTPClient w s = Ok tt ->
  http_NewRequest w "GET" (file_target s fileID) = true ->
  client_Do w tr (bare_request "GET" (file_target s fileID) (AuthToken s)) = DoOk resp ->
  resp_Body resp = Ok body ->
  snd (GetMissingChunksForFile w s fileID tr)
  = (tr ++ [EvHTTP (bare_request "GET" (file_target s fileID) (AuthToken s))])%list
  /\
  (StatusCode resp = 200 ->
   fst (GetMissingChunksForFile w s fileID tr)
   = Done (match json_Unmarshal_MissingChunks w body with
           | Ok chunks => Ok chunks
           | Err e => Err ("Failed to get the file's missing chunk list: " ++ e)
           end))
  /\
  (StatusCode resp <> 200 ->
   exists e,
     fst (GetMissingChunksForFile w s fileID tr) = Done (Err e) /\
     Contains (Status resp) e /\ Contains body e).
Proof.
  intros Hc Hn Hdo Hb. unfold GetMissingChunksForFile. run.
  rewrite (RunAuthRequest_NilBody_answered w s _ _ _ resp body tr Hc Hn Hdo Hb).
  destruct (StatusCode resp =? 200) eqn:Hcode.
  - apply Z.eqb_eq in Hcode.
    split; [destruct (json_Unmarshal_MissingChunks w body); reflexivity|].
    split; [|intros H; contradiction].
    intros _. destruct (json_Unmarshal_MissingChunks w body); reflexivity.
  - apply Z.eqb_neq in Hcode. split; [reflexivity|].
    split; [intros H; contradiction|].
    intros _. eexists. split; [reflexivity|]. split; auto 14 with contains.
Qed.

Lemma GetMissingChunksForFile_returns_the_decoded_answer_witness :
  exists e,
    fst (GetMissingChunksForFile (Demo.world [] Demo.missing) Demo.session 7 [])
    = Done (Err e) /\
    Contains "404 Not Found" e /\ Contains "no such file" e.
Proof.
  destruct (GetMissingChunksForFile_returns_the_decoded_answer
              (Demo.world [] Demo.missing) Demo.session 7 Demo.not_found "no such file" []
              eq_refl eq_refl eq_refl eq_refl) as (_ & _ & H).
  apply H. simpl. lia.
Defined.

(** X24. When the name does not resolve (catalog failure, a corrupt entry
    met first, or no entry with that name), remove-by-name, the version
    listing and the single-file prune return the error of the lookup as it
    is and do nothing else, in dry run as well. *)
Theorem lookup_error_is_returned_unchanged
    (w : World) (s : State) (filename : string) (e : string) (tr tr1 : Trace) :
  GetFileInfoByFilename w filename tr = (Done (Err e), tr1) ->
  (forall dryRun, RmFile w s filename dryRun tr = (Done (Err e), tr1)) /\
  GetFileVersions w s filename tr = (Done (Err e), tr1) /\
  (forall minVersion maxVersion dryRun,
      RmFileVersions w s filename minVersion maxVersion dryRun tr = (Done (Err e), tr1)).
Proof.
  intros H. split; [|split]; intros;
    unfold RmFile, GetFileVersions, RmFileVersions; run; now rewrite H.
Qed.

Lemma lookup_error_is_returned_unchanged_witness :
  RmFile (Demo.world Demo.two_files Demo.accepts) Demo.session "z.txt" true []
  = (Done (Err "could not find the file: z.txt"), [EvGetAllFileHashes])
  /\
  RmFileVersions (Demo.world Demo.corrupt_first Demo.accepts) Demo.session "a.txt" 0 1 false []
  = (Done (Err "cipher: message authentication failed"), [EvGetAllFileHashes]).
Proof.
  split.
  - apply (lookup_error_is_returned_unchanged
             (Demo.world Demo.two_files Demo.accepts) Demo.session "z.txt"
             "could not find the file: z.txt" [] [EvGetAllFileHashes] eq_refl).
  - apply (lookup_error_is_returned_unchanged
             (Demo.world Demo.corrupt_first Demo.accepts) Demo.session "a.txt"
             "cipher: message authentication failed" [] [EvGetAllFileHashes] eq_refl).
Defined.

(** X25. Remove-by-regex off dry run stops at the first matched file whose
    DELETE fails: the call returns an error naming that file, the removal
    line is not printed for it, the files after it are left alone, and the
    files before it stay deleted. *)
Theorem RmRxFiles_first_failure_aborts
    (w : World) (s : State) (pattern : string) (compiledFilter : string -> bool)
    (pre post : list FileInfo) (fi : FileInfo) (name err : string)
    (tr tr1 tr2 : Trace) :
  AllFileHashes w = Ok (pre ++ fi :: post)%list ->
  regexp_Compile w pattern = Ok compiledFilter ->
  range pre (RmRxFiles_body w s compiledFilter false) (tr ++ [EvGetAllFileHashes])%list
  = (Done Next, tr1) ->
  DecryptString w (FileName fi) = Ok name ->
  compiledFilter name = true ->
  RunAuthRequest w s (file_target s (FileID fi)) "DELETE" (AuthToken s) NilBody tr1
  = (Done (Err err), tr2) ->
  RmRxFiles w s pattern false tr
  = (Done (Err ("Failed to remove the file " ++ name ++ ": " ++ err)), tr2).
Proof.
  intros Hcat Hre Hpre Hd Hm Hrun. unfold RmRxFiles, GetAllFileHashes. run.
  rewrite Hcat, Hre, range_app, Hpre.
  erewrite range_return; [reflexivity|].
  rewrite RmRxFiles_body_unfold, Hd, Hm, Hrun. reflexivity.
Qed.

Lemma RmRxFiles_first_failure_aborts_witness :
  exists e,
    RmRxFiles (Demo.world Demo.two_files Demo.missing) Demo.session ".*" false []
    = (Done (Err ("Failed to remove the file a.txt: " ++ e)),
       [EvGetAllFileHashes;
        EvHTTP (bare_request "DELETE" "http://localhost:8080/api/file/1" "t0k3n")]).
Proof.
  exists ("Failed to make the HTTP DELETE request to http://localhost:8080/api/file/1"
          ++ " (status: 404 Not Found): no such file")%string.
  apply (RmRxFiles_first_failure_aborts
           (Demo.world Demo.two_files Demo.missing) Demo.session ".*" (fun _ => true)
           [] [Demo.file 2 "b.txt" 3] (Demo.file 1 "a.txt" 3) "a.txt"
           ("Failed to make the HTTP DELETE request to http://localhost:8080/api/file/1"
            ++ " (status: 404 Not Found): no such file")
           [] [EvGetAllFileHashes]); reflexivity.
Defined.

(* ================================================================== *)
(** ** Failed steps come back as error values *)




Section ErrorValues.

Variable w : World.
Variable s : State.
Hypothesis transport : well_behaved_transport w.


















End ErrorValues.

Section ChunkErrorValues.

Import ChunkStream.

Variable S : Type.
Variable eachFunc : eachChunkFunc S.
Variable filename : string.
Variable C : nat.
Variable localChunkCount : Z.



End ChunkErrorValues.




